(** * Topix: the runtime orchestration core, embedded and verified

    A shallow embedding of the headline store ([TopixDatabase]), the plugin
    runtime ([PluginManager]), the cron scheduler ([Scheduler]), the
    credential vault ([AuthManager]) and the configuration watcher
    ([ConfigWatcher]) of the topix sources, followed by the properties of
    the specification that were checked against them.

    Conventions of the model.
    - An instant ([Date]) is its time value: an integer, milliseconds since
      the epoch.  Time values are at most 8.64e15 in magnitude; an integer
      outside that range stands for an Invalid Date.
    - The store keeps dates as [toISOString()] text and SQLite compares that
      text.  A column of dates holds the instant whose text it is, and every
      comparison of the column is a comparison of the two texts
      ([JsDate.textCompare]); it is the comparison of the instants for the
      years 0000 to 9999 only.
    - The host's time zone is part of the system: [setHours] works on the
      wall clock.
    - Text that went through [JSON.stringify] and [JSON.parse] is kept as the
      value it parses to.
    - JavaScript numbers that are not instants or counters are rationals.
    - A JavaScript [Map] is an insertion-ordered association list when the
      code iterates it and the order reaches the store, a [gmap] otherwise.
    - Code runs in a state-and-exception monad over [System]: a thrown
      error keeps the effects performed before it, as in JavaScript.
    - Console messages are kept without their leading pictograms. *)

From stdpp Require Import gmap strings list fin_maps sorting pretty.
From Stdlib Require Import ZArith QArith.QArith_base Lia.

Open Scope string_scope.
Open Scope list_scope.
Open Scope Z_scope.

(** ** Dynamically typed values ([unknown], [any], parsed YAML) *)

#[warnings="-register-all"]
Inductive JsVal :=
| JUndefined
| JNull
| JBool (b : bool)
| JNum (q : Q)
| JStr (s : string)
| JArr (items : list JsVal)
| JObj (props : list (string * JsVal)).

(** [typeof v] *)
Definition typeof (v : JsVal) : string :=
  match v with
  | JUndefined => "undefined"
  | JNull => "object"
  | JBool _ => "boolean"
  | JNum _ => "number"
  | JStr _ => "string"
  | JArr _ | JObj _ => "object"
  end.

(** [ToBoolean v]: what [if (v)] and [v && ...] test. *)
Definition truthy (v : JsVal) : bool :=
  match v with
  | JUndefined | JNull => false
  | JBool b => b
  | JNum q => negb (Qeq_bool q (0 # 1))
  | JStr s => negb (String.eqb s "")
  | JArr _ | JObj _ => true
  end.

Fixpoint assoc {A : Type} (k : string) (l : list (string * A)) : option A :=
  match l with
  | [] => None
  | (k', v) :: l' => if String.eqb k k' then Some v else assoc k l'
  end.

(** [v.k] for a [v] that is neither [null] nor [undefined].  The property
    names read by the code are never array indices nor [length], so an
    array, like a primitive, answers [undefined]. *)
Definition getProp (v : JsVal) (k : string) : JsVal :=
  match v with
  | JObj props => default JUndefined (assoc k props)
  | _ => JUndefined
  end.

(** [Object.entries(v)] for a truthy [v]. *)
Definition objectEntries (v : JsVal) : list (string * JsVal) :=
  match v with
  | JObj props => props
  | JArr items => imap (λ i x, (pretty i, x)) items
  | JStr s => imap (λ i c, (pretty i, JStr (String c EmptyString))) (String.list_ascii_of_string s)
  | _ => []
  end.

(** [JSON.parse(JSON.stringify(v))] for a [v] that is not [undefined]: a
    property whose value is [undefined] is left out, [undefined] in an
    array becomes [null]. *)
Fixpoint jsonValue (v : JsVal) : JsVal :=
  match v with
  | JArr items =>
      JArr (map (λ x, match x with JUndefined => JNull | _ => jsonValue x end) items)
  | JObj props =>
      JObj ((fix entries (l : list (string * JsVal)) : list (string * JsVal) :=
               match l with
               | [] => []
               | (_, JUndefined) :: l' => entries l'
               | (k, x) :: l' => (k, jsonValue x) :: entries l'
               end) props)
  | _ => v
  end.

(** ** Time values ([Date]) *)

Module JsDate.

Definition msPerDay : Z := 86400000.
Definition msPerHour : Z := 3600000.

(** [TimeClip]: a time value is an integer of at most 8.64e15 in
    magnitude; anything else is [NaN], the time value of an Invalid Date. *)
Definition maxTime : Z := 8640000000000000.

Definition validTime (t : Z) : bool := (- maxTime <=? t) && (t <=? maxTime).

(** [DayFromYear], [Day] and [TimeWithinDay] of ECMAScript. *)
Definition dayFromYear (y : Z) : Z :=
  365 * (y - 1970) + (y - 1969) / 4 - (y - 1901) / 100 + (y - 1601) / 400.

Definition day (t : Z) : Z := t / msPerDay.

Definition timeWithinDay (t : Z) : Z := t mod msPerDay.

(** [YearFromTime]: the largest year whose first day is not after the
    day.  The mean length of a year gives it up to one year. *)
Definition yearFromDay (d : Z) : Z :=
  let y := 1970 + 400 * d / 146097 in
  if d <? dayFromYear y then y - 1
  else if dayFromYear (y + 1) <=? d then y + 1
  else y.

Definition yearFromTime (t : Z) : Z := yearFromDay (day t).

(** [DaysInYear(y) - 365]: 1 in a leap year. *)
Definition leapDays (y : Z) : Z := dayFromYear (y + 1) - dayFromYear y - 365.

Definition dayWithinYear (t : Z) : Z := day t - dayFromYear (yearFromTime t).

(** [MonthFromTime], from zero, and [DateFromTime], from one. *)
Definition monthFromDay (leap d : Z) : Z :=
  if d <? 31 then 0
  else if d <? 59 + leap then 1
  else if d <? 90 + leap then 2
  else if d <? 120 + leap then 3
  else if d <? 151 + leap then 4
  else if d <? 181 + leap then 5
  else if d <? 212 + leap then 6
  else if d <? 243 + leap then 7
  else if d <? 273 + leap then 8
  else if d <? 304 + leap then 9
  else if d <? 334 + leap then 10
  else 11.

Definition dateFromDay (leap d : Z) : Z :=
  if d <? 31 then d + 1
  else if d <? 59 + leap then d - 30
  else if d <? 90 + leap then d - 58 - leap
  else if d <? 120 + leap then d - 89 - leap
  else if d <? 151 + leap then d - 119 - leap
  else if d <? 181 + leap then d - 150 - leap
  else if d <? 212 + leap then d - 180 - leap
  else if d <? 243 + leap then d - 211 - leap
  else if d <? 273 + leap then d - 242 - leap
  else if d <? 304 + leap then d - 272 - leap
  else if d <? 334 + leap then d - 303 - leap
  else d - 333 - leap.

Definition monthFromTime (t : Z) : Z :=
  monthFromDay (leapDays (yearFromTime t)) (dayWithinYear t).

Definition dateFromTime (t : Z) : Z :=
  dateFromDay (leapDays (yearFromTime t)) (dayWithinYear t).

Definition hourFromTime (t : Z) : Z := timeWithinDay t / 3600000.
Definition minFromTime (t : Z) : Z := (timeWithinDay t / 60000) mod 60.
Definition secFromTime (t : Z) : Z := (timeWithinDay t / 1000) mod 60.
Definition msFromTime (t : Z) : Z := timeWithinDay t mod 1000.

Definition digit (d : Z) : Ascii.ascii := Ascii.ascii_of_N (Z.to_N (48 + d)).

(** A number in [width] decimal digits, zeros in front. *)
Fixpoint pad (width : nat) (n : Z) : string :=
  match width with
  | O => ""
  | S w => String (digit (n / 10 ^ Z.of_nat w)) (pad w (n mod 10 ^ Z.of_nat w))
  end.

(** Four digits for the years 0000 to 9999, a sign and six digits for the
    others. *)
Definition yearText (y : Z) : string :=
  if (0 <=? y) && (y <=? 9999) then pad 4 y
  else if y <? 0 then "-" +:+ pad 6 (- y)
  else "+" +:+ pad 6 y.

(** [d.toISOString()] for a valid date: [YYYY-MM-DDTHH:mm:ss.sssZ]. *)
Definition toISOString (t : Z) : string :=
  yearText (yearFromTime t)
  +:+ "-" +:+ pad 2 (monthFromTime t + 1)
  +:+ "-" +:+ pad 2 (dateFromTime t)
  +:+ "T" +:+ pad 2 (hourFromTime t)
  +:+ ":" +:+ pad 2 (minFromTime t)
  +:+ ":" +:+ pad 2 (secFromTime t)
  +:+ "." +:+ pad 3 (msFromTime t) +:+ "Z".

(** How SQLite compares two dates of a column: their texts, byte by byte. *)
Definition textCompare (a b : Z) : comparison :=
  String.compare (toISOString a) (toISOString b).

Definition textLe (a b : Z) : Prop := textCompare a b ≠ Gt.

Definition textLt (a b : Z) : Prop := textCompare a b = Lt.

#[global] Instance comparison_eq_dec : EqDecision comparison.
Proof. solve_decision. Defined.

#[global] Instance textLe_dec a b : Decision (textLe a b).
Proof. unfold textLe. apply _. Defined.

#[global] Instance textLt_dec a b : Decision (textLt a b).
Proof. unfold textLt. apply _. Defined.

(** The instants of the years 0000 to 9999, from
    [0000-01-01T00:00:00.000Z] to [9999-12-31T23:59:59.999Z]. *)
Definition fourDigitYear (t : Z) : Prop := -62167219200000 ≤ t < 253402300800000.

(** The numbers that [toISOString] prints, from the year to the
    millisecond, and their lexicographic comparison. *)
Definition fields (t : Z) : list Z :=
  [yearFromTime t; monthFromTime t + 1; dateFromTime t;
   hourFromTime t; minFromTime t; secFromTime t; msFromTime t].

Fixpoint lexCompare (l1 l2 : list Z) : comparison :=
  match l1, l2 with
  | x :: l1', y :: l2' => match x ?= y with Eq => lexCompare l1' l2' | c => c end
  | _, _ => Eq
  end.

(** The host's time zone: the offset from UTC, in milliseconds, at a UTC
    time value ([LocalTZA(t, true)]) and at a local one
    ([LocalTZA(t, false)]). *)
Record TimeZone := {
  offsetAtUtc : Z → Z;
  offsetAtLocal : Z → Z;
}.

Definition localTime (z : TimeZone) (t : Z) : Z := t + offsetAtUtc z t.

Definition utc (z : TimeZone) (t : Z) : Z := t - offsetAtLocal z t.

(** [d.setHours(d.getHours() - hours)]: the hour of the wall clock moves
    back, the minutes and below stay, and the local time that results is
    read back in the zone.  [None] is an Invalid Date. *)
Definition setHoursBack (z : TimeZone) (hours : Z) (t : Z) : option Z :=
  if validTime t then
    let moved := utc z (localTime z t - hours * msPerHour) in
    if validTime moved then Some moved else None
  else None.

(** A zone without daylight saving time. *)
Definition fixedOffset (offset : Z) : TimeZone :=
  {| offsetAtUtc := λ _, offset; offsetAtLocal := λ _, offset |}.

End JsDate.

(** [ORDER BY ... DESC] as the store answers it: [before a b] says that
    [a] may stand before [b].  SQLite promises no order among rows that may
    stand either way; here they keep the order of the table. *)
Fixpoint insertSorted {A : Type} (before : A → A → Prop) `{∀ a b, Decision (before a b)}
    (x : A) (sorted : list A) : list A :=
  match sorted with
  | [] => [x]
  | y :: rest => if decide (before x y) then x :: sorted else y :: insertSorted before x rest
  end.

Definition stableSort {A : Type} (before : A → A → Prop) `{∀ a b, Decision (before a b)}
    (rows : list A) : list A :=
  foldr (insertSorted before) [] rows.

(** ** Data model (models/types.ts) *)

Inductive RetentionPolicy :=
| RetainCount (value : Z)
| RetainDuration (hours : Z)
| RetainUnlimited.

Record Headline := {
  h_id : string;
  h_pluginId : string;
  h_title : string;
  h_description : option string;
  h_link : option string;
  h_pubDate : Z;
  h_createdAt : Z;
  h_category : string;
  h_tags : list string;
  h_importanceScore : Q;
  h_importanceReason : option string;
  h_metadata : JsVal;
  h_read : bool;
  h_starred : bool;
  h_archived : bool;
}.

(** A row of [headlines].  [row_pub_date] and [row_created_at] hold ISO
    text, [row_tags] and [row_metadata] JSON text; see the conventions. *)
Record HeadlineRow := {
  row_id : string;
  row_plugin_id : string;
  row_title : string;
  row_description : option string;
  row_link : option string;
  row_pub_date : Z;
  row_created_at : Z;
  row_category : string;
  row_tags : list string;
  row_importance_score : option Q;
  row_importance_reason : option string;
  row_metadata : JsVal;
  row_read : bool;
  row_starred : bool;
  row_archived : bool;
}.

Record ImportanceConfig := {
  llmEnabled : bool;
  baseWeight : Q;
  threshold : Q;
  rules : list (string * Q);
}.

Record PluginConfig := {
  pc_pluginId : string;
  pc_enabled : bool;
  pc_schedule : string;
  pc_config : JsVal;
  pc_importance : ImportanceConfig;
  pc_lastRun : option Z;
  pc_lastError : option string;
}.

Inductive AuthType := oauth2 | apikey | basic | custom.

#[global] Instance AuthType_eq_dec : EqDecision AuthType.
Proof. solve_decision. Defined.

(** A value of a credential field: text that [new Date] does not read as
    a date, a [Date] object, the text that [toISOString] gives for an
    instant, or [null]. *)
Inductive CredVal :=
| CStr (s : string)
| CTime (ms : Z)
| CIsoText (ms : Z)
| CNull.

(** [AuthCredentials]: [{ type: AuthType; [key: string]: any }]. *)
Record AuthCredentials := {
  cred_type : AuthType;
  cred_fields : list (string * CredVal);
}.

(** [JSON.parse(JSON.stringify(c))]: a [Date] comes back as its ISO text
    ([Date.prototype.toJSON]), an Invalid Date as [null]. *)
Definition jsonCredVal (v : CredVal) : CredVal :=
  match v with
  | CTime ms => if JsDate.validTime ms then CIsoText ms else CNull
  | _ => v
  end.

Definition jsonCredentials (c : AuthCredentials) : AuthCredentials :=
  {| cred_type := cred_type c;
     cred_fields := map (λ e, (e.1, jsonCredVal e.2)) (cred_fields c) |}.

(** The text kept in a vault or in the [credentials] column: JSON, kept as
    the credential it parses to, or something that [JSON.parse] refuses. *)
Inductive JsonText :=
| Json (c : AuthCredentials)
| NotJson (raw : string).

Record AuthRow := {
  auth_type : string;
  credentials : JsonText;
  auth_created_at : Z;
  auth_updated_at : Z;
}.

(** ** Configuration document (utils/config-file.ts) *)

Record FeedSettings := {
  feed_title : string;
  feed_description : string;
  feed_maxItems : Z;
  feed_ttl : Z;
}.

Record ImportanceSettings := {
  defaultThreshold : Q;
  llmPrompt : string;
  context : string;
}.

Inductive LLMProvider := ollama | openrouter | none.

Record PluginImportanceYAML := {
  y_llmEnabled : option bool;
  y_baseWeight : option Q;
  y_threshold : option Q;
  y_rules : option (list (string * Q));
}.

Record PluginConfigYAML := {
  y_enabled : bool;
  y_schedule : string;
  y_config : JsVal;
  y_importance : option PluginImportanceYAML;
}.

Record TopixConfig := {
  cfg_feed : FeedSettings;
  cfg_importance : ImportanceSettings;
  cfg_llm : LLMProvider;
  cfg_plugins : list (string * PluginConfigYAML);
}.

(** ** The headline store (models/database.ts) *)

Record PluginRunRow := {
  run_last_run : option Z;
  run_last_error : option string;
}.

Record TopixDatabase := {
  headlines : list HeadlineRow;              (* table order *)
  plugin_configs : gmap string PluginRunRow; (* run-state columns *)
  auth : gmap string AuthRow;
}.

Definition with_headlines (hs : list HeadlineRow) (d : TopixDatabase) : TopixDatabase :=
  {| headlines := hs; plugin_configs := plugin_configs d; auth := auth d |}.

Definition with_plugin_configs (m : gmap string PluginRunRow) (d : TopixDatabase) : TopixDatabase :=
  {| headlines := headlines d; plugin_configs := m; auth := auth d |}.

Definition with_auth (m : gmap string AuthRow) (d : TopixDatabase) : TopixDatabase :=
  {| headlines := headlines d; plugin_configs := plugin_configs d; auth := m |}.

Module Database.

(** [x || null] on an optional string: the empty string is falsy. *)
Definition orNullStr (o : option string) : option string :=
  match o with
  | Some s => if String.eqb s "" then None else Some s
  | None => None
  end.

(** [x || null] on a number: zero is falsy. *)
Definition orNullNum (q : Q) : option Q :=
  if Qeq_bool q (0 # 1) then None else Some q.

(** The values that [insertHeadline] binds.  [JSON.stringify] leaves a list
    of strings as it is. *)
Definition toRow (h : Headline) : HeadlineRow :=
  {| row_id := h_id h;
     row_plugin_id := h_pluginId h;
     row_title := h_title h;
     row_description := orNullStr (h_description h);
     row_link := orNullStr (h_link h);
     row_pub_date := h_pubDate h;
     row_created_at := h_createdAt h;
     row_category := h_category h;
     row_tags := h_tags h;
     row_importance_score := orNullNum (h_importanceScore h);
     row_importance_reason := orNullStr (h_importanceReason h);
     row_metadata := jsonValue (h_metadata h);
     row_read := h_read h;
     row_starred := h_starred h;
     row_archived := h_archived h |}.

Definition rowToHeadline (r : HeadlineRow) : Headline :=
  {| h_id := row_id r;
     h_pluginId := row_plugin_id r;
     h_title := row_title r;
     h_description := orNullStr (row_description r);
     h_link := orNullStr (row_link r);
     h_pubDate := row_pub_date r;
     h_createdAt := row_created_at r;
     h_category := row_category r;
     h_tags := row_tags r;
     h_importanceScore := default (0 # 1) (row_importance_score r);
     h_importanceReason := orNullStr (row_importance_reason r);
     h_metadata := row_metadata r;
     h_read := row_read r;
     h_starred := row_starred r;
     h_archived := row_archived r |}.

(** [INSERT INTO headlines ...].  The arguments are evaluated first:
    [toISOString()] throws a [RangeError] on an Invalid Date.  Then the
    values are bound: [JSON.stringify(undefined)] is [undefined], which
    better-sqlite3 refuses with a [TypeError].  Then the row is written:
    [id] is the primary key, a second row with the same id makes the
    statement throw. *)
Definition insertHeadline (h : Headline) (d : TopixDatabase) : string + TopixDatabase :=
  if negb (JsDate.validTime (h_pubDate h) && JsDate.validTime (h_createdAt h))
  then inl "Invalid time value"
  else
    match h_metadata h with
    | JUndefined => inl "SQLite3 can only bind numbers, strings, bigints, buffers, and null"
    | _ =>
        if decide (h_id h ∈ map row_id (headlines d))
        then inl "UNIQUE constraint failed: headlines.id"
        else inr (with_headlines (headlines d ++ [toRow h]) d)
    end.

(** [ORDER BY pub_date DESC]: a row may stand before another when its text
    is not below the other's. *)
Definition byPubDateDesc (a b : HeadlineRow) : Prop :=
  JsDate.textLe (row_pub_date b) (row_pub_date a).

#[global] Instance byPubDateDesc_dec a b : Decision (byPubDateDesc a b).
Proof. unfold byPubDateDesc. apply _. Defined.

Definition orderByPubDateDesc (rows : list HeadlineRow) : list HeadlineRow :=
  stableSort byPubDateDesc rows.

(** [LIMIT n]: a negative limit means no limit in SQLite. *)
Definition limit {A : Type} (n : Z) (rows : list A) : list A :=
  if n <? 0 then rows else take (Z.to_nat n) rows.

(** [SELECT * FROM headlines WHERE plugin_id = ?] *)
Definition selectByPlugin (pluginId : string) (d : TopixDatabase) : list HeadlineRow :=
  filter (λ r, row_plugin_id r = pluginId) (headlines d).

(** Keeps the [keepCount] most recent headlines of a plugin; returns the
    number of rows deleted and the new store. *)
Definition deleteOldHeadlinesByCount (pluginId : string) (keepCount : Z)
    (d : TopixDatabase) : Z * TopixDatabase :=
  let keepIds :=
    map row_id (limit keepCount (orderByPubDateDesc (selectByPlugin pluginId d))) in
  let kept :=
    match keepIds with
    | [] => filter (λ r, ¬ row_plugin_id r = pluginId) (headlines d)
    | _ => filter (λ r, ¬ (row_plugin_id r = pluginId ∧ row_id r ∉ keepIds)) (headlines d)
    end in
  (Z.of_nat (length (headlines d)) - Z.of_nat (length kept), with_headlines kept d).

(** [cutoffDate] is the clock with the hour of the wall clock moved back;
    [cutoffDate.toISOString()] throws on an Invalid Date.  The rows of the
    plugin whose text is below the text of the cutoff are deleted. *)
Definition deleteOldHeadlinesByDuration (pluginId : string) (hours : Z)
    (zone : JsDate.TimeZone) (now : Z) (d : TopixDatabase) : string + Z * TopixDatabase :=
  match JsDate.setHoursBack zone hours now with
  | None => inl "Invalid time value"
  | Some cutoffDate =>
      let kept :=
        filter (λ r, ¬ (row_plugin_id r = pluginId
                        ∧ JsDate.textLt (row_pub_date r) cutoffDate))
          (headlines d) in
      inr (Z.of_nat (length (headlines d)) - Z.of_nat (length kept), with_headlines kept d)
  end.

(** [UPDATE plugin_configs SET last_run = ?, last_error = ? WHERE plugin_id = ?];
    [error || null] turns the empty message into [null]. *)
Definition updatePluginRun (pluginId : string) (error : option string) (now : Z)
    (d : TopixDatabase) : TopixDatabase :=
  match plugin_configs d !! pluginId with
  | Some _ =>
      with_plugin_configs
        (<[pluginId := {| run_last_run := Some now; run_last_error := orNullStr error |}]>
           (plugin_configs d)) d
  | None => d
  end.

Definition authTypeName (t : AuthType) : string :=
  match t with
  | oauth2 => "oauth2"
  | apikey => "apikey"
  | basic => "basic"
  | custom => "custom"
  end.

(** [INSERT INTO auth ... ON CONFLICT(plugin_id) DO UPDATE SET auth_type,
    credentials, updated_at]; the text stored is [JSON.stringify(credentials)]. *)
Definition upsertAuth (pluginId : string) (authType : string) (c : AuthCredentials)
    (now : Z) (d : TopixDatabase) : TopixDatabase :=
  let created := match auth d !! pluginId with
                 | Some old => auth_created_at old
                 | None => now
                 end in
  with_auth
    (<[pluginId := {| auth_type := authType; credentials := Json (jsonCredentials c);
                      auth_created_at := created; auth_updated_at := now |}]> (auth d)) d.

(** [JSON.parse(row.credentials)]; throws on text that is not JSON. *)
Definition getAuth (pluginId : string) (d : TopixDatabase) : string + option AuthCredentials :=
  match auth d !! pluginId with
  | None => inr None
  | Some row =>
      match credentials row with
      | Json c => inr (Some c)
      | NotJson _ => inl "SyntaxError: Unexpected token in JSON"
      end
  end.

Definition deleteAuth (pluginId : string) (d : TopixDatabase) : TopixDatabase :=
  with_auth (delete pluginId (auth d)) d.

(** The primary key of [headlines]: no two rows share an id. *)
Definition uniqueIds (d : TopixDatabase) : Prop :=
  NoDup (map row_id (headlines d)).

(** The inserts of one fetch, in order; the first refused insert stops them. *)
Fixpoint insertAll (hs : list Headline) (d : TopixDatabase) : string + TopixDatabase :=
  match hs with
  | [] => inr d
  | h :: hs' =>
      match insertHeadline h d with
      | inl msg => inl msg
      | inr d' => insertAll hs' d'
      end
  end.

(** The store after the sweep that a retention policy asks for, or the
    message of the error that the sweep throws. *)
Definition applyRetention (pluginId : string) (policy : RetentionPolicy)
    (zone : JsDate.TimeZone) (now : Z) (d : TopixDatabase) : string + TopixDatabase :=
  match policy with
  | RetainCount value => inr (deleteOldHeadlinesByCount pluginId value d).2
  | RetainDuration hours =>
      match deleteOldHeadlinesByDuration pluginId hours zone now d with
      | inl msg => inl msg
      | inr swept => inr swept.2
      end
  | RetainUnlimited => inr d
  end.

End Database.

(** ** Plugins (the [TopixPlugin] contract) *)

(** What a [throw] or a rejected promise carries: an [Error] with its
    message, or some other value. *)
Inductive Thrown :=
| ErrorObj (message : string)
| NonError (shown : string).

(** [error instanceof Error ? error.message : 'Unknown error'] *)
Definition errorMessage (e : Thrown) : string :=
  match e with
  | ErrorObj m => m
  | NonError _ => "Unknown error"
  end.

Record FetchContext := {
  ctx_pluginId : string;
  ctx_config : JsVal;
  ctx_lastRun : option Z;
  ctx_db : TopixDatabase;
}.

(** A plugin is an external collaborator: its methods are given by their
    results.  [None] from a lifecycle hook means it returned normally. *)
Record TopixPlugin := {
  p_id : string;
  p_name : string;
  p_description : string;
  p_version : string;
  p_initialize : PluginConfig → option Thrown;
  p_shutdown : option Thrown;
  p_fetchHeadlines : FetchContext → Thrown + list Headline;
  p_getRetentionPolicy : RetentionPolicy;
}.

(** What [typeof] finds on the default export of a plugin file. *)
Record PluginShape := {
  idIsString : bool;
  nameIsString : bool;
  descriptionIsString : bool;
  versionIsString : bool;
  initializeIsFunction : bool;
  fetchHeadlinesIsFunction : bool;
  getConfigSchemaIsFunction : bool;
}.

Inductive DefaultExport :=
| NotAnObject
| ObjectExport (shape : PluginShape) (plugin : TopixPlugin).

(** [await import(path)] *)
Inductive ImportResult :=
| ImportThrows (e : Thrown)
| Imported (default : DefaultExport).

(** ** The running system *)

Inductive Level := LogLevel | WarnLevel | ErrorLevel.

Record LogEntry := {
  level : Level;
  text : string;
}.

(** A [ScheduledTask] of node-cron. *)
Record ScheduledTask := {
  task_id : nat;
  task_schedule : string;
  task_pluginId : string;
}.

(** The OS keychain under the service name [com.topix.app]: account to
    password; when [kc_failing], every operation rejects. *)
Record Keychain := {
  kc_failing : bool;
  kc_entries : gmap string JsonText;
}.

Record System := {
  now : Z;                                   (* the clock read by [new Date()] *)
  zone : JsDate.TimeZone;                    (* the time zone of the host *)
  console : list LogEntry;
  store : TopixDatabase;
  config : TopixConfig;                      (* ConfigManager.config *)
  configOnDisk : JsVal;                      (* what [loadConfig()] returns now *)
  builtInDir : option (list (string * ImportResult));
  userDir : option (list (string * ImportResult));
  plugins : list (string * TopixPlugin);     (* PluginManager.plugins *)
  verbose : bool;                            (* PluginManager.verbose *)
  tasks : gmap string ScheduledTask;         (* Scheduler.tasks *)
  running : bool;                            (* Scheduler.running *)
  armed : gset nat;                          (* timers live in node-cron *)
  created : nat;                             (* timers created so far *)
  keychainAvailable : bool;                  (* AuthManager.keychainAvailable *)
  keychain : Keychain;
}.

Definition with_console (x : list LogEntry) (s : System) : System :=
  {| now := now s; zone := zone s; console := x; store := store s; config := config s;
     configOnDisk := configOnDisk s; builtInDir := builtInDir s; userDir := userDir s;
     plugins := plugins s; verbose := verbose s; tasks := tasks s; running := running s;
     armed := armed s; created := created s;
     keychainAvailable := keychainAvailable s; keychain := keychain s |}.

Definition with_store (x : TopixDatabase) (s : System) : System :=
  {| now := now s; zone := zone s; console := console s; store := x; config := config s;
     configOnDisk := configOnDisk s; builtInDir := builtInDir s; userDir := userDir s;
     plugins := plugins s; verbose := verbose s; tasks := tasks s; running := running s;
     armed := armed s; created := created s;
     keychainAvailable := keychainAvailable s; keychain := keychain s |}.

Definition with_config (x : TopixConfig) (s : System) : System :=
  {| now := now s; zone := zone s; console := console s; store := store s; config := x;
     configOnDisk := configOnDisk s; builtInDir := builtInDir s; userDir := userDir s;
     plugins := plugins s; verbose := verbose s; tasks := tasks s; running := running s;
     armed := armed s; created := created s;
     keychainAvailable := keychainAvailable s; keychain := keychain s |}.

Definition with_plugins (x : list (string * TopixPlugin)) (s : System) : System :=
  {| now := now s; zone := zone s; console := console s; store := store s; config := config s;
     configOnDisk := configOnDisk s; builtInDir := builtInDir s; userDir := userDir s;
     plugins := x; verbose := verbose s; tasks := tasks s; running := running s;
     armed := armed s; created := created s;
     keychainAvailable := keychainAvailable s; keychain := keychain s |}.

Definition with_scheduler (t : gmap string ScheduledTask) (r : bool) (a : gset nat) (c : nat)
    (s : System) : System :=
  {| now := now s; zone := zone s; console := console s; store := store s; config := config s;
     configOnDisk := configOnDisk s; builtInDir := builtInDir s; userDir := userDir s;
     plugins := plugins s; verbose := verbose s; tasks := t; running := r;
     armed := a; created := c;
     keychainAvailable := keychainAvailable s; keychain := keychain s |}.

Definition with_keychainAvailable (x : bool) (s : System) : System :=
  {| now := now s; zone := zone s; console := console s; store := store s; config := config s;
     configOnDisk := configOnDisk s; builtInDir := builtInDir s; userDir := userDir s;
     plugins := plugins s; verbose := verbose s; tasks := tasks s; running := running s;
     armed := armed s; created := created s;
     keychainAvailable := x; keychain := keychain s |}.

Definition with_keychain (x : Keychain) (s : System) : System :=
  {| now := now s; zone := zone s; console := console s; store := store s; config := config s;
     configOnDisk := configOnDisk s; builtInDir := builtInDir s; userDir := userDir s;
     plugins := plugins s; verbose := verbose s; tasks := tasks s; running := running s;
     armed := armed s; created := created s;
     keychainAvailable := keychainAvailable s; keychain := x |}.

(** ** The state-and-exception monad *)

Inductive Outcome (A : Type) :=
| Returned (a : A)
| Threw (e : Thrown).
Arguments Returned {A} a.
Arguments Threw {A} e.

Definition M (A : Type) : Type := System → Outcome A * System.

Definition ret {A : Type} (a : A) : M A := λ s, (Returned a, s).

Definition bind {A B : Type} (m : M A) (k : A → M B) : M B :=
  λ s, match m s with
       | (Returned a, s') => k a s'
       | (Threw e, s') => (Threw e, s')
       end.

Definition throw {A : Type} (e : Thrown) : M A := λ s, (Threw e, s).

(** [try { body } catch (error) { handler }] *)
Definition tryCatch {A : Type} (body : M A) (handler : Thrown → M A) : M A :=
  λ s, match body s with
       | (Returned a, s') => (Returned a, s')
       | (Threw e, s') => handler e s'
       end.

Definition get : M System := λ s, (Returned s, s).
Definition modify (f : System → System) : M unit := λ s, (Returned tt, f s).

#[global] Instance M_ret : MRet M := @ret.
#[global] Instance M_bind : MBind M := λ A B k m, bind m k.

Definition skip : M unit := ret tt.

Definition when (b : bool) (m : M unit) : M unit := if b then m else skip.

Fixpoint forEach {A : Type} (f : A → M unit) (l : list A) : M unit :=
  match l with
  | [] => skip
  | x :: l' => f x;; forEach f l'
  end.

Definition emit (lv : Level) (msg : string) : M unit :=
  modify (λ s, with_console (console s ++ [{| level := lv; text := msg |}]) s).

Definition consoleLog : string → M unit := emit LogLevel.
Definition consoleWarn : string → M unit := emit WarnLevel.
Definition consoleError : string → M unit := emit ErrorLevel.

(** How the console prints a caught value after a message. *)
Definition shown (e : Thrown) : string :=
  match e with
  | ErrorObj m => "Error: " +:+ m
  | NonError v => v
  end.

(** An insertion-ordered JavaScript [Map] with string keys. *)
Fixpoint mapSet {A : Type} (k : string) (v : A) (m : list (string * A)) : list (string * A) :=
  match m with
  | [] => [(k, v)]
  | (k', v') :: m' => if String.eqb k k' then (k, v) :: m' else (k', v') :: mapSet k v m'
  end.

Definition mapHas {A : Type} (k : string) (m : list (string * A)) : bool :=
  bool_decide (is_Some (assoc k m)).

(** ** The plugin runtime (managers/plugin-manager.ts) *)

Module PluginManager.

(** [s.endsWith(suffix)] and [s.includes(part)] on file names. *)
Definition endsWith (s suffix : string) : bool :=
  String.prefix (String.rev suffix) (String.rev s).

Definition includes (s part : string) : bool :=
  bool_decide (is_Some (String.index 0 part s)).

Definition isValidPlugin (x : DefaultExport) : bool :=
  match x with
  | NotAnObject => false
  | ObjectExport sh _ =>
      idIsString sh && nameIsString sh && descriptionIsString sh && versionIsString sh
      && initializeIsFunction sh && fetchHeadlinesIsFunction sh
      && getConfigSchemaIsFunction sh
  end.

Definition setPlugin (p : TopixPlugin) : M unit :=
  modify (λ s, with_plugins (mapSet (p_id p) p (plugins s)) s).

Definition whenVerbose (m : M unit) : M unit :=
  s ← get; when (verbose s) m.

(** The body of the loop of [loadBuiltInPlugins] for one directory entry. *)
Definition loadBuiltInFile (entry : string * ImportResult) : M unit :=
  let '(file, imported) := entry in
  if (negb (endsWith file ".ts") && negb (endsWith file ".js"))
     || endsWith file ".d.ts" || includes file "example"
     || includes file ".test." || includes file ".spec."
  then skip
  else
    match imported with
    | ImportThrows e =>
        consoleError ("  Error loading plugin " +:+ file +:+ ": " +:+ shown e)
    | Imported x =>
        match x with
        | ObjectExport _ plugin =>
            if isValidPlugin x then
              setPlugin plugin;;
              whenVerbose (consoleLog ("  Loaded built-in plugin: " +:+ p_name plugin
                                       +:+ " (" +:+ p_id plugin +:+ ")"))
            else whenVerbose (consoleWarn ("  Invalid plugin in " +:+ file))
        | NotAnObject => whenVerbose (consoleWarn ("  Invalid plugin in " +:+ file))
        end
    end.

Definition loadBuiltInPlugins : M unit :=
  s ← get;
  match builtInDir s with
  | None => whenVerbose (consoleWarn "  Built-in plugins directory not found")
  | Some files => forEach loadBuiltInFile files
  end.

(** The body of the loop of [loadUserPlugins] for one directory entry. *)
Definition loadUserFile (entry : string * ImportResult) : M unit :=
  let '(file, imported) := entry in
  if negb (endsWith file ".js") then skip
  else
    match imported with
    | ImportThrows e =>
        consoleError ("  Error loading user plugin " +:+ file +:+ ": " +:+ shown e)
    | Imported x =>
        match x with
        | ObjectExport _ plugin =>
            if isValidPlugin x then
              s ← get;
              if mapHas (p_id plugin) (plugins s) then
                whenVerbose (consoleWarn ("  User plugin " +:+ p_id plugin
                                          +:+ " conflicts with built-in plugin, skipping"))
              else
                setPlugin plugin;;
                whenVerbose (consoleLog ("  Loaded user plugin: " +:+ p_name plugin
                                         +:+ " (" +:+ p_id plugin +:+ ")"))
            else whenVerbose (consoleWarn ("  Invalid user plugin in " +:+ file))
        | NotAnObject => whenVerbose (consoleWarn ("  Invalid user plugin in " +:+ file))
        end
    end.

Definition loadUserPlugins : M unit :=
  s ← get;
  match userDir s with
  | None => skip
  | Some files => forEach loadUserFile files
  end.

(** [yamlPluginToDbPlugin] (utils/config-file.ts) *)
Definition yamlPluginToDbPlugin (pluginId : string) (yaml : PluginConfigYAML) : PluginConfig :=
  {| pc_pluginId := pluginId;
     pc_enabled := y_enabled yaml;
     pc_schedule := y_schedule yaml;
     pc_config := y_config yaml;
     pc_importance :=
       {| llmEnabled := default true (y_importance yaml ≫= y_llmEnabled);
          baseWeight := default (1 # 1) (y_importance yaml ≫= y_baseWeight);
          threshold := default (1 # 2) (y_importance yaml ≫= y_threshold);
          rules := default [] (y_importance yaml ≫= y_rules) |};
     pc_lastRun := None;
     pc_lastError := None |}.

(** The keys of [fullConfig.plugins] are distinct, so the object built by
    the loop is the list of its entries. *)
Definition getPluginConfigs : M (list (string * PluginConfig)) :=
  s ← get;
  mret (map (λ e, (e.1, yamlPluginToDbPlugin e.1 e.2)) (cfg_plugins (config s))).

(** [configs[pluginId] || null] *)
Definition getPluginConfig (pluginId : string) : M (option PluginConfig) :=
  configs ← getPluginConfigs;
  mret (assoc pluginId configs).

Definition updatePluginRun (pluginId : string) (error : option string) : M unit :=
  modify (λ s, with_store (Database.updatePluginRun pluginId error (now s) (store s)) s).

Definition initializeEnabledPlugins : M unit :=
  configs ← getPluginConfigs;
  forEach (λ c : PluginConfig,
    s ← get;
    match assoc (pc_pluginId c) (plugins s) with
    | None =>
        whenVerbose (consoleWarn ("  Plugin " +:+ pc_pluginId c
                                  +:+ " is enabled but not loaded"))
    | Some plugin =>
        match p_initialize plugin c with
        | None => whenVerbose (consoleLog ("  Initialized plugin: " +:+ p_name plugin))
        | Some e =>
            consoleError ("  Error initializing " +:+ p_name plugin +:+ ": " +:+ shown e);;
            updatePluginRun (pc_pluginId c) (Some (errorMessage e))
        end
    end)
    (filter (λ c, pc_enabled c = true) (map snd configs)).

Definition initialize (initializePlugins : bool) : M unit :=
  whenVerbose (consoleLog "Initializing Plugin Manager...");;
  loadBuiltInPlugins;;
  loadUserPlugins;;
  when initializePlugins initializeEnabledPlugins;;
  s ← get;
  whenVerbose (consoleLog ("Plugin Manager initialized with "
                           +:+ pretty (length (plugins s)) +:+ " plugins")).

Definition getPlugin (pluginId : string) : M (option TopixPlugin) :=
  s ← get; mret (assoc pluginId (plugins s)).

Definition getEnabledPlugins : M (list TopixPlugin) :=
  configs ← getPluginConfigs;
  let enabledIds := map pc_pluginId (filter (λ c, pc_enabled c = true) (map snd configs)) in
  s ← get;
  mret (filter (λ p, p_id p ∈ enabledIds) (map snd (plugins s))).

Definition insertHeadline (h : Headline) : M unit :=
  s ← get;
  match Database.insertHeadline h (store s) with
  | inl msg => throw (ErrorObj msg)
  | inr d => modify (with_store d)
  end.

Definition enforceRetentionPolicy (pluginId pluginName : string) (policy : RetentionPolicy)
    : M unit :=
  s ← get;
  match policy with
  | RetainCount value =>
      let '(deletedByCount, d) := Database.deleteOldHeadlinesByCount pluginId value (store s) in
      modify (with_store d);;
      when ((0 <? deletedByCount) && verbose s)
        (consoleLog ("  Deleted " +:+ pretty deletedByCount +:+ " old headlines from "
                     +:+ pluginName +:+ " (keeping last " +:+ pretty value +:+ ")"))
  | RetainDuration hours =>
      match Database.deleteOldHeadlinesByDuration pluginId hours (zone s) (now s) (store s) with
      | inl msg => throw (ErrorObj msg)
      | inr (deletedByDuration, d) =>
          modify (with_store d);;
          when ((0 <? deletedByDuration) && verbose s)
            (consoleLog ("  Deleted " +:+ pretty deletedByDuration +:+ " old headlines from "
                         +:+ pluginName +:+ " (keeping last " +:+ pretty hours +:+ "h)"))
      end
  | RetainUnlimited => skip
  end.

(** [new Error(`Plugin ${pluginId} not found`)] *)
Definition notFound (pluginId : string) : Thrown :=
  ErrorObj ("Plugin " +:+ pluginId +:+ " not found").

(** [new Error(`Plugin ${pluginId} is not enabled`)] *)
Definition notEnabled (pluginId : string) : Thrown :=
  ErrorObj ("Plugin " +:+ pluginId +:+ " is not enabled").

(** [fetchFromPlugin] up to its [await]: the two preconditions. *)
Definition fetchBegin (pluginId : string) : M (TopixPlugin * PluginConfig) :=
  s ← get;
  match assoc pluginId (plugins s) with
  | None => throw (notFound pluginId)
  | Some plugin =>
      config ← getPluginConfig pluginId;
      match config with
      | Some c => if pc_enabled c then mret (plugin, c) else throw (notEnabled pluginId)
      | None => throw (notEnabled pluginId)
      end
  end.

Definition fetchContext (pluginId : string) (c : PluginConfig) (s : System) : FetchContext :=
  {| ctx_pluginId := pluginId; ctx_config := pc_config c;
     ctx_lastRun := pc_lastRun c; ctx_db := store s |}.

(** [fetchFromPlugin] from the moment [plugin.fetchHeadlines(context)]
    settles with [settled]: the rest of the [try] block and its [catch]. *)
Definition fetchSettle (pluginId : string) (plugin : TopixPlugin)
    (settled : Thrown + list Headline) : M (list Headline) :=
  tryCatch
    (match settled with
     | inl e => throw e
     | inr hs =>
         forEach insertHeadline hs;;
         enforceRetentionPolicy pluginId (p_name plugin) (p_getRetentionPolicy plugin);;
         updatePluginRun pluginId None;;
         consoleLog ("Fetched " +:+ pretty (length hs) +:+ " headlines from "
                     +:+ p_name plugin);;
         mret hs
     end)
    (λ error,
       let errorMsg := errorMessage error in
       consoleError ("Error fetching from " +:+ p_name plugin +:+ ": " +:+ errorMsg);;
       updatePluginRun pluginId (Some errorMsg);;
       throw error).

(** [fetchFromPlugin] run to completion, as [await fetchFromPlugin(id)] does. *)
Definition fetchFromPlugin (pluginId : string) : M (list Headline) :=
  pc ← fetchBegin pluginId;
  s ← get;
  fetchSettle pluginId pc.1 (p_fetchHeadlines pc.1 (fetchContext pluginId pc.2 s)).

Fixpoint fetchEach (enabledPlugins : list TopixPlugin)
    (results : list (string * list Headline)) : M (list (string * list Headline)) :=
  match enabledPlugins with
  | [] => mret results
  | plugin :: rest =>
      results' ← tryCatch
        (hs ← fetchFromPlugin (p_id plugin);
         mret (mapSet (p_id plugin) hs results))
        (λ _,
           consoleError ("  Failed to fetch from " +:+ p_name plugin);;
           mret (mapSet (p_id plugin) [] results));
      fetchEach rest results'
  end.

Definition fetchFromAllPlugins : M (list (string * list Headline)) :=
  enabledPlugins ← getEnabledPlugins;
  consoleLog ("Fetching from " +:+ pretty (length enabledPlugins) +:+ " enabled plugins...");;
  results ← fetchEach enabledPlugins [];
  let totalHeadlines := foldl (λ sum r, (sum + length r.2)%nat) 0%nat results in
  consoleLog ("Fetched " +:+ pretty totalHeadlines +:+ " total headlines from "
              +:+ pretty (length enabledPlugins) +:+ " plugins");;
  mret results.

(** [handleConfigReload]: shut down and, when enabled, initialise again. *)
Definition handleConfigReload : M unit :=
  consoleLog "Reloading plugin configurations...";;
  configs ← getPluginConfigs;
  forEach (λ e : string * PluginConfig,
    s ← get;
    match assoc e.1 (plugins s) with
    | None => skip
    | Some plugin =>
        if pc_enabled e.2 then
          match p_shutdown plugin with
          | Some err => consoleError ("  Error reloading " +:+ p_name plugin +:+ ": " +:+ shown err)
          | None =>
              match p_initialize plugin e.2 with
              | Some err =>
                  consoleError ("  Error reloading " +:+ p_name plugin +:+ ": " +:+ shown err)
              | None => consoleLog ("  Reloaded plugin: " +:+ p_name plugin)
              end
          end
        else
          match p_shutdown plugin with
          | Some err => consoleError ("  Error disabling " +:+ p_name plugin +:+ ": " +:+ shown err)
          | None => consoleLog ("  Disabled plugin: " +:+ p_name plugin)
          end
    end) configs;;
  consoleLog "Plugin configuration reload complete".

End PluginManager.

(** ** The scheduler (managers/scheduler.ts) *)

Module Scheduler.

Section WithCron.

(** [cron.validate] of node-cron. *)
Variable cronValidate : string → bool.

Definition setScheduler (t : gmap string ScheduledTask) (r : bool) (a : gset nat) (c : nat)
    : M unit :=
  modify (with_scheduler t r a c).

(** [task.stop()] *)
Definition stopTask (t : ScheduledTask) : M unit :=
  s ← get; setScheduler (tasks s) (running s) (armed s ∖ {[task_id t]}) (created s).

Definition schedulePlugin (pluginId schedule : string) : M unit :=
  if negb (cronValidate schedule) then
    consoleWarn ("Invalid cron schedule for " +:+ pluginId +:+ ": " +:+ schedule)
  else
    s ← get;
    match tasks s !! pluginId with
    | Some old =>
        stopTask old;;
        s1 ← get;
        setScheduler (delete pluginId (tasks s1)) (running s1) (armed s1) (created s1)
    | None => skip
    end;;
    s2 ← get;
    let task := {| task_id := created s2; task_schedule := schedule;
                   task_pluginId := pluginId |} in
    setScheduler (<[pluginId := task]> (tasks s2)) (running s2)
                 (armed s2 ∪ {[task_id task]}) (S (created s2));;
    consoleLog ("   Scheduled " +:+ pluginId +:+ ": " +:+ schedule).

Definition start : M unit :=
  s ← get;
  if running s then consoleWarn "Scheduler is already running"
  else
    consoleLog "Starting scheduler...";;
    forEach (λ e : string * PluginConfigYAML, schedulePlugin e.1 (y_schedule e.2))
      (filter (λ e, y_enabled e.2 = true) (cfg_plugins (config s)));;
    s1 ← get;
    setScheduler (tasks s1) true (armed s1) (created s1);;
    consoleLog ("Scheduler started with " +:+ pretty (size (tasks s1)) +:+ " scheduled tasks").

Definition stop : M unit :=
  s ← get;
  if negb (running s) then skip
  else
    consoleLog "Stopping scheduler...";;
    forEach (λ e : string * ScheduledTask,
               stopTask e.2;; consoleLog ("   Stopped schedule for " +:+ e.1))
      (map_to_list (tasks s));;
    s1 ← get;
    setScheduler ∅ false (armed s1) (created s1);;
    consoleLog "Scheduler stopped".

Definition failedMessage (plugin : TopixPlugin) (error : Thrown) : string :=
  "Scheduled fetch failed for " +:+ p_name plugin +:+ ": " +:+ errorMessage error.

(** [executePlugin] up to the [await] inside [fetchFromPlugin]: [None]
    when nothing is left pending. *)
Definition executeBegin (pluginId : string) : M (option (TopixPlugin * PluginConfig)) :=
  found ← PluginManager.getPlugin pluginId;
  match found with
  | None => consoleError ("Plugin " +:+ pluginId +:+ " not found");; mret None
  | Some plugin =>
      s ← get;
      consoleLog ("[" +:+ pretty (now s) +:+ "] Running scheduled fetch: " +:+ p_name plugin);;
      tryCatch
        (pc ← PluginManager.fetchBegin pluginId; mret (Some pc))
        (λ error, consoleError (failedMessage plugin error);; mret None)
  end.

(** [executePlugin] once the plugin's promise has settled. *)
Definition executeSettle (pluginId : string) (plugin : TopixPlugin)
    (settled : Thrown + list Headline) : M unit :=
  tryCatch
    (PluginManager.fetchSettle pluginId plugin settled;; skip)
    (λ error, consoleError (failedMessage plugin error)).

(** [executePlugin] run to completion. *)
Definition executePlugin (pluginId : string) : M unit :=
  begun ← executeBegin pluginId;
  match begun with
  | None => skip
  | Some pc =>
      s ← get;
      executeSettle pluginId pc.1
        (p_fetchHeadlines pc.1 (PluginManager.fetchContext pluginId pc.2 s))
  end.

Definition reschedulePlugin (pluginId schedule : string) : M unit :=
  s ← get;
  if negb (running s) then skip
  else
    consoleLog ("Rescheduling " +:+ pluginId +:+ ": " +:+ schedule);;
    schedulePlugin pluginId schedule.

Definition unschedulePlugin (pluginId : string) : M unit :=
  s ← get;
  match tasks s !! pluginId with
  | Some task =>
      stopTask task;;
      s1 ← get;
      setScheduler (delete pluginId (tasks s1)) (running s1) (armed s1) (created s1);;
      consoleLog ("Unscheduled " +:+ pluginId)
  | None => skip
  end.

End WithCron.

End Scheduler.

(** ** The event loop: fetches that overlap

    A fetch is suspended at [await plugin.fetchHeadlines(context)] and
    resumed when that promise settles; between the two, timers and callers
    may start other fetches. *)

Module EventLoop.

Record InFlight := {
  fl_pluginId : string;
  fl_plugin : TopixPlugin;
  fl_scheduled : bool;          (* started by a timer, not by a caller *)
}.

Record Loop := {
  sys : System;
  inFlight : list InFlight;     (* fetches awaiting their plugin *)
  invoked : list string;        (* calls of [plugin.fetchHeadlines], by plugin *)
}.

Inductive Event :=
| Tick (pluginId : string)                          (* a cron timer fires *)
| ManualFetch (pluginId : string)                   (* a caller of [fetchFromPlugin] *)
| Settle (i : nat) (settled : Thrown + list Headline).

Definition suspend (pluginId : string) (plugin : TopixPlugin) (scheduled : bool)
    (s : System) (l : Loop) : Loop :=
  {| sys := s;
     inFlight := inFlight l ++ [{| fl_pluginId := pluginId; fl_plugin := plugin;
                                   fl_scheduled := scheduled |}];
     invoked := invoked l ++ [pluginId] |}.

Definition step (ev : Event) (l : Loop) : Loop :=
  match ev with
  | Tick pluginId =>
      match tasks (sys l) !! pluginId with
      | Some task =>
          if decide (task_id task ∈ armed (sys l)) then
            match Scheduler.executeBegin pluginId (sys l) with
            | (Returned (Some pc), s) => suspend pluginId pc.1 true s l
            | (_, s) => {| sys := s; inFlight := inFlight l; invoked := invoked l |}
            end
          else l
      | None => l
      end
  | ManualFetch pluginId =>
      match PluginManager.fetchBegin pluginId (sys l) with
      | (Returned pc, s) => suspend pluginId pc.1 false s l
      | (Threw _, s) => {| sys := s; inFlight := inFlight l; invoked := invoked l |}
      end
  | Settle i settled =>
      match inFlight l !! i with
      | Some f =>
          let s :=
            if fl_scheduled f
            then (Scheduler.executeSettle (fl_pluginId f) (fl_plugin f) settled (sys l)).2
            else (PluginManager.fetchSettle (fl_pluginId f) (fl_plugin f) settled (sys l)).2 in
          {| sys := s; inFlight := delete i (inFlight l); invoked := invoked l |}
      | None => l
      end
  end.

Definition run (events : list Event) (l : Loop) : Loop :=
  foldl (λ acc ev, step ev acc) l events.

(** The fetches of one plugin that are in flight. *)
Definition inFlightFor (pluginId : string) (l : Loop) : nat :=
  length (filter (λ f, fl_pluginId f = pluginId) (inFlight l)).

Definition invokedFor (pluginId : string) (l : Loop) : nat :=
  length (filter (λ p, p = pluginId) (invoked l)).

Definition idle (s : System) : Loop :=
  {| sys := s; inFlight := []; invoked := [] |}.

End EventLoop.

(** ** The credential vault (managers/auth-manager.ts) *)

(** The answer of the token endpoint to the refresh request. *)
Inductive TokenReply :=
| RequestFails (e : Thrown)
| NotOk (statusText : string)
| TokenData (access_token : string) (refresh_token : option string) (expires_in : Z).

Module AuthManager.

Section WithNetwork.

(** [fetch(tokenUrl, { method: 'POST', body })]: the reply for a token
    URL and the form fields sent. *)
Variable tokenEndpoint : string → list (string * string) → TokenReply.

Definition setKeychainAvailable (b : bool) : M unit :=
  modify (with_keychainAvailable b).

Definition keychainError : Thrown := ErrorObj "Keychain unavailable".

(** The constructor probes the keychain with [findCredentials]. *)
Definition checkKeychainAvailability : M unit :=
  s ← get;
  when (kc_failing (keychain s)) (setKeychainAvailable false).

Definition getAuthType (c : AuthCredentials) : string :=
  Database.authTypeName (cred_type c).

Definition upsertAuth (pluginId authType : string) (c : AuthCredentials) : M unit :=
  modify (λ s, with_store (Database.upsertAuth pluginId authType c (now s) (store s)) s).

(** [keytar.setPassword(KEYCHAIN_SERVICE, pluginId, JSON.stringify(credentials))] *)
Definition storeInKeychain (pluginId : string) (c : AuthCredentials) : M unit :=
  s ← get;
  if kc_failing (keychain s) then throw keychainError
  else modify (with_keychain {| kc_failing := false;
                                kc_entries := <[pluginId := Json (jsonCredentials c)]>
                                                (kc_entries (keychain s)) |}).

(** [keytar.getPassword] then [JSON.parse]; an absent or empty password
    is [null]. *)
Definition getFromKeychain (pluginId : string) : M (option AuthCredentials) :=
  s ← get;
  if kc_failing (keychain s) then throw keychainError
  else
    match kc_entries (keychain s) !! pluginId with
    | None => mret None
    | Some (Json c) => mret (Some c)
    | Some (NotJson raw) =>
        if String.eqb raw "" then mret None
        else throw (ErrorObj "SyntaxError: Unexpected token in JSON")
    end.

(** The record kept beside a keychain entry: [{ type: authType }]. *)
Definition metadataOnly (c : AuthCredentials) : AuthCredentials :=
  {| cred_type := cred_type c; cred_fields := [] |}.

Definition storeCredentials (pluginId : string) (c : AuthCredentials) : M unit :=
  let authType := getAuthType c in
  s ← get;
  inKeychain ←
    (if keychainAvailable s then
       tryCatch
         (storeInKeychain pluginId c;;
          consoleLog ("Stored credentials for " +:+ pluginId +:+ " in Keychain");;
          upsertAuth pluginId authType (metadataOnly c);;
          mret true)
         (λ error,
            consoleWarn ("Failed to store in Keychain, falling back to database: "
                         +:+ shown error);;
            setKeychainAvailable false;;
            mret false)
     else mret false);
  if inKeychain : bool then skip
  else
    upsertAuth pluginId authType c;;
    consoleLog ("Stored credentials for " +:+ pluginId
                +:+ " in database (Keychain unavailable)").

Definition getAuth (pluginId : string) : M (option AuthCredentials) :=
  s ← get;
  match Database.getAuth pluginId (store s) with
  | inl msg => throw (ErrorObj msg)
  | inr found => mret found
  end.

Definition getCredentials (pluginId : string) : M (option AuthCredentials) :=
  s ← get;
  fromKeychain ←
    (if keychainAvailable s then
       tryCatch
         (getFromKeychain pluginId)
         (λ error,
            consoleWarn ("Failed to retrieve from Keychain: " +:+ shown error);;
            setKeychainAvailable false;;
            mret None)
     else mret None);
  match fromKeychain with
  | Some c => mret (Some c)
  | None => getAuth pluginId
  end.

Definition deleteCredentials (pluginId : string) : M unit :=
  s ← get;
  when (keychainAvailable s)
    (if kc_failing (keychain s) then
       consoleWarn ("Failed to delete from Keychain: " +:+ shown keychainError)
     else
       modify (with_keychain {| kc_failing := false;
                                kc_entries := delete pluginId (kc_entries (keychain s)) |});;
       consoleLog ("Deleted credentials for " +:+ pluginId +:+ " from Keychain"));;
  modify (λ s, with_store (Database.deleteAuth pluginId (store s)) s);;
  consoleLog ("Deleted credentials for " +:+ pluginId).

Definition hasCredentials (pluginId : string) : M bool :=
  found ← getCredentials pluginId;
  mret (bool_decide (is_Some found)).

(** A text field of a credential; absent, empty or not text reads as falsy. *)
Definition textField (k : string) (c : AuthCredentials) : option string :=
  match assoc k (cred_fields c) with
  | Some (CStr s) => if String.eqb s "" then None else Some s
  | Some (CIsoText ms) => Some (JsDate.toISOString ms)
  | _ => None
  end.

(** [new Date(c.expiresAt).getTime()] when [c.expiresAt] is truthy; text
    that is not a date, like an Invalid Date, gives [NaN], for which every
    comparison is false. *)
Inductive Expiry :=
| NoExpiry
| ExpiresAt (ms : Z)
| ExpiryNaN.

Definition expiry (c : AuthCredentials) : Expiry :=
  match assoc "expiresAt" (cred_fields c) with
  | Some (CTime ms) => if JsDate.validTime ms then ExpiresAt ms else ExpiryNaN
  | Some (CIsoText ms) => ExpiresAt ms
  | Some (CStr s) => if String.eqb s "" then NoExpiry else ExpiryNaN
  | Some CNull | None => NoExpiry
  end.

Definition fiveMinutes : Z := 5 * 60 * 1000.

Definition refreshOAuth2Token (pluginId : string) : M (option AuthCredentials) :=
  found ← getCredentials pluginId;
  match found with
  | None => mret None
  | Some oauth2Creds =>
      if negb (bool_decide (cred_type oauth2Creds = oauth2)) then mret None
      else
        match textField "refreshToken" oauth2Creds with
        | None =>
            consoleWarn ("No refresh token available for " +:+ pluginId);;
            mret None
        | Some refreshToken =>
            s ← get;
            let stillValid :=
              match expiry oauth2Creds with
              | ExpiresAt expiresAt => fiveMinutes <? expiresAt - now s
              | _ => false
              end in
            if stillValid then mret (Some oauth2Creds)
            else
              tryCatch
                (match textField "tokenUrl" oauth2Creds with
                 | None => throw (ErrorObj "Token URL not found in credentials")
                 | Some tokenUrl =>
                     match tokenEndpoint tokenUrl
                             [("grant_type", "refresh_token");
                              ("refresh_token", refreshToken);
                              ("client_id", default "" (textField "clientId" oauth2Creds));
                              ("client_secret",
                               default "" (textField "clientSecret" oauth2Creds))] with
                     | RequestFails e => throw e
                     | NotOk statusText =>
                         throw (ErrorObj ("Token refresh failed: " +:+ statusText))
                     | TokenData access_token refresh_token expires_in =>
                         s1 ← get;
                         let newRefresh :=
                           match refresh_token with
                           | Some r => if String.eqb r "" then refreshToken else r
                           | None => refreshToken
                           end in
                         let updatedCredentials :=
                           {| cred_type := cred_type oauth2Creds;
                              cred_fields :=
                                mapSet "expiresAt" (CTime (now s1 + expires_in * 1000))
                                  (mapSet "refreshToken" (CStr newRefresh)
                                     (mapSet "accessToken" (CStr access_token)
                                        (cred_fields oauth2Creds))) |} in
                         storeCredentials pluginId updatedCredentials;;
                         consoleLog ("Refreshed OAuth2 token for " +:+ pluginId);;
                         mret (Some updatedCredentials)
                     end
                 end)
                (λ error,
                   consoleError ("Failed to refresh OAuth2 token for " +:+ pluginId
                                 +:+ ": " +:+ shown error);;
                   mret None)
        end
  end.

Definition validateOAuth2Token (pluginId : string) : M (option AuthCredentials) :=
  found ← getCredentials pluginId;
  match found with
  | None => mret None
  | Some oauth2Creds =>
      if negb (bool_decide (cred_type oauth2Creds = oauth2)) then mret None
      else
        s ← get;
        let expired :=
          match expiry oauth2Creds with
          | ExpiresAt expiresAt => expiresAt <=? now s
          | _ => false
          end in
        if expired then refreshOAuth2Token pluginId
        else mret (Some oauth2Creds)
  end.

End WithNetwork.

End AuthManager.

(** ** Structural validation of the configuration (utils/config-file.ts) *)

Module ConfigFile.

Record ValidationResult := {
  valid : bool;
  errors : list string;
}.

Definition isObject (v : JsVal) : bool := String.eqb (typeof v) "object".

Definition validateFeed (cfg : JsVal) : list string :=
  let feed := getProp cfg "feed" in
  if truthy feed then
    if negb (isObject feed) then ["feed must be an object"]
    else
      (if truthy (getProp feed "title")
          && negb (String.eqb (typeof (getProp feed "title")) "string")
       then ["feed.title must be a string"] else [])
      ++
      (if truthy (getProp feed "maxItems")
          && negb (String.eqb (typeof (getProp feed "maxItems")) "number")
       then ["feed.maxItems must be a number"] else [])
  else [].

(** [typeof x !== 'number' || x < 0 || x > 1] *)
Definition outsideUnitInterval (x : JsVal) : bool :=
  match x with
  | JNum q => negb (Qle_bool (0 # 1) q) || negb (Qle_bool q (1 # 1))
  | _ => true
  end.

Definition validateImportance (cfg : JsVal) : list string :=
  let importance := getProp cfg "importance" in
  if truthy importance then
    if negb (isObject importance) then ["importance must be an object"]
    else
      if truthy (getProp importance "defaultThreshold")
         && outsideUnitInterval (getProp importance "defaultThreshold")
      then ["importance.defaultThreshold must be a number between 0 and 1"]
      else []
  else [].

(** A word between double quotes. *)
Definition quoted (s : string) : string :=
  String (Ascii.ascii_of_nat 34) (s +:+ String (Ascii.ascii_of_nat 34) EmptyString).

(** [['ollama', 'openrouter', 'none'].includes(x)] *)
Definition knownProvider (x : JsVal) : bool :=
  match x with
  | JStr s => bool_decide (s ∈ ["ollama"; "openrouter"; "none"])
  | _ => false
  end.

Definition validateLlm (cfg : JsVal) : list string :=
  let llm := getProp cfg "llm" in
  if truthy llm then
    if negb (isObject llm) then ["llm must be an object"]
    else
      if truthy (getProp llm "provider") && negb (knownProvider (getProp llm "provider"))
      then ["llm.provider must be " +:+ quoted "ollama" +:+ ", " +:+ quoted "openrouter"
            +:+ ", or " +:+ quoted "none"]
      else []
  else [].

(** The checks on one entry of [plugins] that is an object. *)
Definition validatePlugin (pluginId : string) (plugin : JsVal) : list string :=
  (match getProp plugin "enabled" with
   | JUndefined => []
   | JBool _ => []
   | _ => ["plugins." +:+ pluginId +:+ ".enabled must be a boolean"]
   end)
  ++
  (if truthy (getProp plugin "schedule")
      && negb (String.eqb (typeof (getProp plugin "schedule")) "string")
   then ["plugins." +:+ pluginId +:+ ".schedule must be a string (cron expression)"]
   else [])
  ++
  (if truthy (getProp plugin "config") && negb (isObject (getProp plugin "config"))
   then ["plugins." +:+ pluginId +:+ ".config must be an object"]
   else []).

(** The loop over [Object.entries(cfg.plugins)]; reading a property of a
    [null] entry throws. *)
Fixpoint validateEntries (entries : list (string * JsVal)) : Thrown + list string :=
  match entries with
  | [] => inr []
  | (pluginId, pluginCfg) :: rest =>
      let here :=
        if negb (isObject pluginCfg)
        then inr ["plugins." +:+ pluginId +:+ " must be an object"]
        else
          match pluginCfg with
          | JNull => inl (ErrorObj "Cannot read properties of null (reading 'enabled')")
          | _ => inr (validatePlugin pluginId pluginCfg)
          end in
      match here, validateEntries rest with
      | inl e, _ => inl e
      | inr _, inl e => inl e
      | inr errs, inr more => inr (errs ++ more)
      end
  end.

Definition validatePlugins (cfg : JsVal) : Thrown + list string :=
  let plugins := getProp cfg "plugins" in
  if truthy plugins then
    if negb (isObject plugins) then inr ["plugins must be an object"]
    else validateEntries (objectEntries plugins)
  else inr [].

Definition validateConfig (config : JsVal) : Thrown + ValidationResult :=
  if negb (truthy config) || negb (isObject config)
  then inr {| valid := false; errors := ["Config must be an object"] |}
  else
    match validatePlugins config with
    | inl e => inl e
    | inr pluginErrors =>
        let errors := validateFeed config ++ validateImportance config
                      ++ validateLlm config ++ pluginErrors in
        inr {| valid := bool_decide (length errors = 0%nat); errors := errors |}
    end.

End ConfigFile.

(** ** The configuration watcher (utils/config-watcher.ts) *)

Module ConfigWatcher.

Record ConfigWatcher := {
  watching : bool;                              (* [watcher !== null] *)
  changeHandler : option (JsVal → M unit);
  debounceTimer : bool;                         (* a timer is pending *)
}.

Definition initial : ConfigWatcher :=
  {| watching := false; changeHandler := None; debounceTimer := false |}.

Definition start (handler : JsVal → M unit) (w : ConfigWatcher) : ConfigWatcher * M unit :=
  if watching w then (w, consoleWarn "Config watcher is already running")
  else ({| watching := true; changeHandler := Some handler; debounceTimer := debounceTimer w |},
        consoleLog "Watching config file for changes").

(** [handleFileChange]: clears the pending timer and sets a new one. *)
Definition handleFileChange (w : ConfigWatcher) : ConfigWatcher :=
  {| watching := watching w; changeHandler := changeHandler w; debounceTimer := true |}.

(** [loadConfig()]: the document now on disk, merged with the defaults. *)
Definition loadConfig : M JsVal :=
  s ← get; mret (configOnDisk s).

Definition validateConfig (c : JsVal) : M ConfigFile.ValidationResult :=
  match ConfigFile.validateConfig c with
  | inl e => throw e
  | inr r => mret r
  end.

Definition processConfigChange (w : ConfigWatcher) : M unit :=
  consoleLog "Config file changed, reloading...";;
  tryCatch
    (newConfig ← loadConfig;
     validation ← validateConfig newConfig;
     if negb (ConfigFile.valid validation) then
       consoleError "Config validation failed:";;
       forEach (λ error, consoleError ("   - " +:+ error)) (ConfigFile.errors validation);;
       consoleError "   Keeping existing configuration"
     else
       match changeHandler w with
       | Some handler =>
           handler newConfig;;
           consoleLog "Config reloaded successfully"
       | None => skip
       end)
    (λ error,
       consoleError ("Failed to reload config: " +:+ shown error);;
       consoleError "   Keeping existing configuration").

End ConfigWatcher.

(** ** The change handler installed by the service (managers/service-manager.ts) *)

Module ServiceManager.

Section WithHost.

Variable cronValidate : string → bool.

(** The typed reading of the document on disk: the cast
    [load(fileContents) as TopixConfig] of [loadConfig]. *)
Variable asTopixConfig : JsVal → TopixConfig.

(** [ConfigManager.reload] *)
Definition reload : M unit :=
  modify (λ s, with_config (asTopixConfig (configOnDisk s)) s);;
  consoleLog "Configuration reloaded from file".

Definition onConfigChange (_ : JsVal) : M unit :=
  consoleLog "Config file changed, reloading...";;
  reload;;
  PluginManager.handleConfigReload;;
  s ← get;
  forEach (λ e : string * PluginConfigYAML,
             if y_enabled e.2
             then Scheduler.reschedulePlugin cronValidate e.1 (y_schedule e.2)
             else Scheduler.unschedulePlugin e.1)
    (cfg_plugins (config s)).

End WithHost.

End ServiceManager.

(** ** Vocabulary of the properties *)

(** What a fetch reads besides the store, and must leave alone. *)
Definition runtime (s : System) :=
  (now s, config s, plugins s, verbose s, tasks s, running s, armed s, created s).

Definition preserves {A : Type} (m : M A) : Prop :=
  ∀ s, runtime (m s).2 = runtime s.

(** A property of the store that a computation never breaks. *)
Definition keepsStore (Q : TopixDatabase → Prop) {A : Type} (m : M A) : Prop :=
  ∀ s, Q (store s) → Q (store (m s).2).

(** The loaded plugins whose id has an enabled configuration: the value of
    [getEnabledPlugins]. *)
Definition enabledPluginsOf (s : System) : list TopixPlugin :=
  let configs := map (λ e, (e.1, PluginManager.yamlPluginToDbPlugin e.1 e.2))
                     (cfg_plugins (config s)) in
  let enabledIds := map pc_pluginId (filter (λ c, pc_enabled c = true) (map snd configs)) in
  filter (λ p, p_id p ∈ enabledIds) (map snd (plugins s)).

(** What [fetchFromAllPlugins] records for one plugin. *)
Definition recorded (o : Outcome (list Headline)) : list Headline :=
  match o with
  | Returned hs => hs
  | Threw _ => []
  end.

(** Every key of the registry is the id of its plugin, and no key repeats. *)
Definition registryOk (registry : list (string * TopixPlugin)) : Prop :=
  NoDup (map fst registry) ∧ ∀ e, e ∈ registry → p_id e.2 = e.1.

(** A line of the console. *)
Definition entry (lv : Level) (msg : string) : LogEntry := {| level := lv; text := msg |}.

(** The state in which the loop of [fetchFromAllPlugins] leaves its body
    for [plugin]: what [fetchFromPlugin] left, with one more line on the
    console when it threw. *)
Definition afterFetch (plugin : TopixPlugin) (s : System) : System :=
  match PluginManager.fetchFromPlugin (p_id plugin) s with
  | (Returned _, s1) => s1
  | (Threw _, s1) =>
      with_console
        (console s1 ++ [entry ErrorLevel ("  Failed to fetch from " +:+ p_name plugin)]) s1
  end.

(** The plugins of a batch, one after the other, each with the state in
    which the batch reaches it. *)
Fixpoint visits (batch : list TopixPlugin) (s : System) : list (TopixPlugin * System) :=
  match batch with
  | [] => []
  | plugin :: rest => (plugin, s) :: visits rest (afterFetch plugin s)
  end.

(** The state in which the batch ends. *)
Definition afterBatch (batch : list TopixPlugin) (s : System) : System :=
  foldl (λ s1 plugin, afterFetch plugin s1) s batch.

(** The scheduler's own state. *)
Definition timers (s : System) := (tasks s, running s, armed s, created s).

(** The same system once every operation of the keychain rejects. *)
Definition keychainFails (s : System) : System :=
  with_keychain {| kc_failing := true; kc_entries := kc_entries (keychain s) |} s.

(** An event that asks for a fetch of [pid]: a caller, or a timer of the
    plugin that is armed. *)
Definition triggers (pid : string) (ev : EventLoop.Event) (l : EventLoop.Loop) : Prop :=
  ev = EventLoop.ManualFetch pid
  ∨ (ev = EventLoop.Tick pid
     ∧ ∃ task, tasks (EventLoop.sys l) !! pid = Some task
               ∧ task_id task ∈ armed (EventLoop.sys l)).

(** ** Sample systems, for the concrete cases below *)

Module Sample.

Definition headline (id pluginId : string) (pubDate : Z) : Headline :=
  {| h_id := id; h_pluginId := pluginId; h_title := "title of " +:+ id;
     h_description := None; h_link := None; h_pubDate := pubDate; h_createdAt := pubDate;
     h_category := "news"; h_tags := []; h_importanceScore := 1 # 2;
     h_importanceReason := None; h_metadata := JObj [];
     h_read := false; h_starred := false; h_archived := false |}.

Definition plugin (id : string) (policy : RetentionPolicy)
    (fetched : Thrown + list Headline) : TopixPlugin :=
  {| p_id := id; p_name := id; p_description := "sample plugin"; p_version := "1.0.0";
     p_initialize := λ _, None; p_shutdown := None;
     p_fetchHeadlines := λ _, fetched; p_getRetentionPolicy := policy |}.

Definition yaml (enabled : bool) (schedule : string) : PluginConfigYAML :=
  {| y_enabled := enabled; y_schedule := schedule; y_config := JObj [];
     y_importance := None |}.

Definition configOf (entries : list (string * PluginConfigYAML)) : TopixConfig :=
  {| cfg_feed := {| feed_title := "My Personal Feed";
                    feed_description := "Curated headlines from multiple sources";
                    feed_maxItems := 100; feed_ttl := 60 |};
     cfg_importance := {| defaultThreshold := 1 # 2; llmPrompt := "Rate the importance";
                          context := "" |};
     cfg_llm := ollama;
     cfg_plugins := entries |}.

Definition storeOf (rows : list Headline) : TopixDatabase :=
  {| headlines := map Database.toRow rows; plugin_configs := ∅; auth := ∅ |}.

Definition system (clock : Z) (registry : list TopixPlugin)
    (entries : list (string * PluginConfigYAML)) (rows : list Headline) : System :=
  {| now := clock; zone := JsDate.fixedOffset 0; console := []; store := storeOf rows;
     config := configOf entries;
     configOnDisk := JObj []; builtInDir := None; userDir := None;
     plugins := map (λ p, (p_id p, p)) registry; verbose := true;
     tasks := ∅; running := false; armed := ∅; created := 0;
     keychainAvailable := true;
     keychain := {| kc_failing := false; kc_entries := ∅ |} |}.

Definition every5 : string := "*/5 * * * *".

Definition stored : list Headline :=
  [headline "a1" "alpha" 10; headline "b1" "beta" 1; headline "a2" "alpha" 20].

Definition fetched : list Headline :=
  [headline "a3" "alpha" 30; headline "a4" "alpha" 5].

Definition alphaCount3 : TopixPlugin := plugin "alpha" (RetainCount 3) (inr fetched).

Definition sysCount3 : System :=
  system 1000 [alphaCount3] [("alpha", yaml true every5)] stored.

(** A day and a half after the epoch: one stored headline is older than a
    day, one is not. *)
Definition fetchedToday : list Headline :=
  [headline "d3" "alpha" 129000000; headline "d4" "alpha" 100].

Definition alphaDuration : TopixPlugin :=
  plugin "alpha" (RetainDuration 24) (inr fetchedToday).

Definition sysDuration : System :=
  system 129600000 [alphaDuration] [("alpha", yaml true every5)]
    [headline "d1" "alpha" 1000; headline "d2" "alpha" 100000000;
     headline "e1" "beta" 5].

(** Dates of the year 2026 and the first instant of the year 10000. *)
Definition jan2026 : Z := 1767225600000.        (* 2026-01-01T00:00:00.000Z *)
Definition jun2026 : Z := 1780272000000.        (* 2026-06-01T00:00:00.000Z *)
Definition year10000 : Z := 253402300800000.    (* +010000-01-01T00:00:00.000Z *)

(** A plugin that keeps two headlines, over a store that holds two of
    2026; the fetch brings one of the year 10000. *)
Definition alphaCount2 : TopixPlugin :=
  plugin "alpha" (RetainCount 2) (inr [headline "far" "alpha" year10000]).

Definition sysFarFuture : System :=
  system jun2026 [alphaCount2] [("alpha", yaml true every5)]
    [headline "jan" "alpha" jan2026; headline "jun" "alpha" jun2026].

(** Two events before the year 0000; the plugin keeps one headline. *)
Definition foundingOfRome : Z := -85888425600000.   (* -000752-04-21T00:00:00.000Z *)
Definition idesOfMarch : Z := -63517824000000.      (* -000043-03-15T00:00:00.000Z *)

Definition sysAntiquity : System :=
  system jun2026
    [plugin "alpha" (RetainCount 1) (inr [headline "ides" "alpha" idesOfMarch])]
    [("alpha", yaml true every5)]
    [headline "rome" "alpha" foundingOfRome].

(** Three headlines stamped with the same instant, as those of one fetch
    of a built-in plugin are. *)
Definition sysSameInstant : System :=
  system jun2026
    [plugin "alpha" (RetainCount 1)
       (inr [headline "x1" "alpha" jun2026; headline "x2" "alpha" jun2026;
             headline "x3" "alpha" jun2026])]
    [("alpha", yaml true every5)] [].

(** America/New_York around the end of daylight saving time in 2026: four
    hours behind UTC until 2026-11-01T06:00:00Z, when the wall clock goes
    from 02:00 back to 01:00, five hours behind from then on.  A time of
    the wall clock between 01:00 and 02:00 of that day occurs twice and is
    read as the first of the two. *)
Definition fallBack2026 : Z := 1793512800000.   (* 2026-11-01T06:00:00.000Z *)

Definition newYork : JsDate.TimeZone :=
  {| JsDate.offsetAtUtc := λ t,
       if t <? fallBack2026 then -4 * JsDate.msPerHour else -5 * JsDate.msPerHour;
     JsDate.offsetAtLocal := λ t,
       if t <? fallBack2026 - 4 * JsDate.msPerHour
       then -4 * JsDate.msPerHour else -5 * JsDate.msPerHour |}.

(** Noon in New York on 2026-11-01, and three headlines of the day before:
    published 26 hours, 24 hours and a half, and 23 hours earlier. *)
Definition noonAfterFallBack : Z := 1793552400000.   (* 2026-11-01T17:00:00.000Z *)

Definition yesterday : list Headline :=
  [headline "h26" "alpha" (noonAfterFallBack - 26 * JsDate.msPerHour);
   headline "h24" "alpha" (noonAfterFallBack - 24 * JsDate.msPerHour - 1800000);
   headline "h23" "alpha" (noonAfterFallBack - 23 * JsDate.msPerHour)].

Definition alphaDay : TopixPlugin := plugin "alpha" (RetainDuration 24) (inr []).

Definition inZone (z : JsDate.TimeZone) (s : System) : System :=
  {| now := now s; zone := z; console := console s; store := store s; config := config s;
     configOnDisk := configOnDisk s; builtInDir := builtInDir s; userDir := userDir s;
     plugins := plugins s; verbose := verbose s; tasks := tasks s; running := running s;
     armed := armed s; created := created s;
     keychainAvailable := keychainAvailable s; keychain := keychain s |}.

Definition sysFallBack : System :=
  inZone newYork
    (system noonAfterFallBack [alphaDay] [("alpha", yaml true every5)] yesterday).

(** A batch: the first plugin fails, the second works, the third is
    disabled. *)
Definition failing : TopixPlugin :=
  plugin "alpha" RetainUnlimited (inl (ErrorObj "network down")).

Definition working : TopixPlugin :=
  plugin "beta" RetainUnlimited (inr [headline "b9" "beta" 50]).

Definition disabled : TopixPlugin :=
  plugin "gamma" RetainUnlimited (inr [headline "g9" "gamma" 60]).

Definition sysBatch : System :=
  system 1000 [failing; working; disabled]
    [("alpha", yaml true every5); ("beta", yaml true every5); ("gamma", yaml false every5)]
    [].

(** Two plugins that bring nothing: one fails, the other finds no
    headline. *)
Definition silent : TopixPlugin := plugin "alpha" RetainUnlimited (inr []).

Definition sysFailing : System :=
  system 1000 [failing] [("alpha", yaml true every5)] [].

Definition sysSilent : System :=
  system 1000 [silent] [("alpha", yaml true every5)] [].

(** A stand-in for the validator of node-cron: it accepts two expressions. *)
Definition cronValidate (schedule : string) : bool :=
  bool_decide (schedule ∈ ["*/5 * * * *"; "0 * * * *"]).

(** The sample system once its scheduler has started: one armed timer. *)
Definition sysTicking : System :=
  (Scheduler.start cronValidate sysCount3).2.

(** What two overlapping fetches of alpha bring back. *)
Definition firstBatch : list Headline :=
  [headline "t1" "alpha" 100; headline "t2" "alpha" 101].

Definition secondBatch : list Headline :=
  [headline "t3" "alpha" 102; headline "t4" "alpha" 103].

Definition apiKeyCredential : AuthCredentials :=
  {| cred_type := apikey; cred_fields := [("apiKey", CStr "test-api-key-12345")] |}.

(** An endpoint that always grants a new token for an hour. *)
Definition tokenEndpoint (url : string) (form : list (string * string)) : TokenReply :=
  TokenData "fresh-access-token" None 3600.

(** An OAuth2 credential that expires [minutes] after the clock of the
    sample systems, which reads 1000. *)
Definition oauth2Credential (minutes : Z) : AuthCredentials :=
  {| cred_type := oauth2;
     cred_fields := [("accessToken", CStr "test-access-token");
                     ("refreshToken", CStr "test-refresh-token");
                     ("expiresAt", CIsoText (1000 + minutes * 60 * 1000));
                     ("tokenUrl", CStr "https://example.com/token")] |}.

(** The system after the credential was stored in the working keychain. *)
Definition sysWithToken (minutes : Z) : System :=
  (AuthManager.storeCredentials "alpha" (oauth2Credential minutes) sysCount3).2.

(** The system after the file on disk was replaced by [doc]. *)
Definition onDisk (doc : JsVal) (s : System) : System :=
  {| now := now s; zone := zone s; console := console s; store := store s; config := config s;
     configOnDisk := doc; builtInDir := builtInDir s; userDir := userDir s;
     plugins := plugins s; verbose := verbose s; tasks := tasks s; running := running s;
     armed := armed s; created := created s;
     keychainAvailable := keychainAvailable s; keychain := keychain s |}.

(** A document that disables alpha; with [threshold] out of range it is
    refused. *)
Definition document (threshold : Q) : JsVal :=
  JObj [("feed", JObj [("title", JStr "My Personal Feed"); ("maxItems", JNum (100 # 1))]);
        ("importance", JObj [("defaultThreshold", JNum threshold)]);
        ("llm", JObj [("provider", JStr "ollama")]);
        ("plugins", JObj [("alpha", JObj [("enabled", JBool false);
                                           ("schedule", JStr "*/5 * * * *");
                                           ("config", JObj [])])])].

(** The typed reading of the sample [document]. *)
Definition asTopixConfig (doc : JsVal) : TopixConfig :=
  configOf [("alpha", yaml false every5)].

Definition watcher : ConfigWatcher.ConfigWatcher :=
  {| ConfigWatcher.watching := true;
     ConfigWatcher.changeHandler := Some (ServiceManager.onConfigChange cronValidate asTopixConfig);
     ConfigWatcher.debounceTimer := false |}.

Definition okShape : PluginShape :=
  {| idIsString := true; nameIsString := true; descriptionIsString := true;
     versionIsString := true; initializeIsFunction := true;
     fetchHeadlinesIsFunction := true; getConfigSchemaIsFunction := true |}.

(** A user plugin that takes the id of the built-in weather plugin. *)
Definition builtinWeather : TopixPlugin :=
  plugin "weather" (RetainCount 1) (inr []).

Definition userWeather : TopixPlugin :=
  {| p_id := "weather"; p_name := "My weather"; p_description := "user plugin";
     p_version := "0.0.1"; p_initialize := λ _, None; p_shutdown := None;
     p_fetchHeadlines := λ _, inr [headline "u1" "weather" 1];
     p_getRetentionPolicy := RetainUnlimited |}.

Definition sysDiscovery (verbosely : bool) : System :=
  {| now := 1000; zone := JsDate.fixedOffset 0; console := []; store := storeOf [];
     config := configOf [];
     configOnDisk := JObj [];
     builtInDir := Some [("weather-plugin.ts", Imported (ObjectExport okShape builtinWeather));
                         ("example-plugin.ts",
                          Imported (ObjectExport okShape
                                      (plugin "example" RetainUnlimited (inr []))))];
     userDir := Some [("weather.js", Imported (ObjectExport okShape userWeather));
                      ("notes.txt", Imported NotAnObject)];
     plugins := []; verbose := verbosely;
     tasks := ∅; running := false; armed := ∅; created := 0;
     keychainAvailable := true;
     keychain := {| kc_failing := false; kc_entries := ∅ |} |}.

(** The plugin of the example scenario of the specification: [count(3)],
    and every fetch brings two headlines newer than all those stored. *)
Definition twoNewer : TopixPlugin :=
  {| p_id := "alpha"; p_name := "alpha"; p_description := "sample plugin";
     p_version := "1.0.0"; p_initialize := λ _, None; p_shutdown := None;
     p_fetchHeadlines := λ ctx,
       let latest := foldr Z.max 0 (map row_pub_date (headlines (ctx_db ctx))) in
       inr [headline ("h" +:+ pretty (latest + 1)) "alpha" (latest + 1);
            headline ("h" +:+ pretty (latest + 2)) "alpha" (latest + 2)];
     p_getRetentionPolicy := RetainCount 3 |}.

Definition sysScenario : System :=
  system 1000 [twoNewer] [("alpha", yaml true every5)] [].

End Sample.

(** * The rest of the managers

    Vocabulary for invariants, and models of the code that the properties
    of the specification do not reach: the life cycle of the plugin manager,
    the queries of the store, the feed, the report of the scheduler and the
    preferences of the configuration manager.  They follow the conventions
    above; the host's file system and js-yaml enter as the functions
    [toDocument] and [writeFileSync] of the section that uses them. *)

(** ** Invariants and effects *)

(** A property of the system that a computation never breaks. *)
Definition keeps (P : System → Prop) {A : Type} (m : M A) : Prop :=
  ∀ s, P s → P (m s).2.

(** A computation that cannot throw. *)
Definition neverThrows {A : Type} (m : M A) : Prop :=
  ∀ s, ∃ a, (m s).1 = Returned a.

(** The scheduler and node-cron agree: every task of the map is armed,
    carries the id of its plugin and was created by the scheduler; every
    armed timer is the task of some plugin; no two plugins share a timer. *)
Definition schedulerOk (s : System) : Prop :=
  (∀ pid t, tasks s !! pid = Some t →
            task_id t ∈ armed s ∧ (task_id t < created s)%nat ∧ task_pluginId t = pid)
  ∧ (∀ i, i ∈ armed s → ∃ pid t, tasks s !! pid = Some t ∧ task_id t = i)
  ∧ (∀ p q t u, tasks s !! p = Some t → tasks s !! q = Some u →
                task_id t = task_id u → p = q).

(** The timers left armed once the task of a plugin, if any, is stopped. *)
Definition disarm (old : option ScheduledTask) (a : gset nat) : gset nat :=
  match old with
  | Some t => a ∖ {[task_id t]}
  | None => a
  end.

(** The entry of the configuration that [start] turns into the task of
    [pid]: enabled, and with an expression that node-cron accepts. *)
Definition schedulable (cronValidate : string → bool) (s : System) (pid : string)
    (y : PluginConfigYAML) : Prop :=
  (pid, y) ∈ cfg_plugins (config s) ∧ y_enabled y = true ∧ cronValidate (y_schedule y) = true.

(** ** The rest of the plugin manager (managers/plugin-manager.ts) *)

Module Lifecycle.

(** [shutdown]: every plugin is shut down, failures are reported, and the
    registry is cleared. *)
Definition shutdown : M unit :=
  PluginManager.whenVerbose (consoleLog "Shutting down plugins...");;
  s ← get;
  forEach (λ e : string * TopixPlugin,
             match p_shutdown e.2 with
             | None => PluginManager.whenVerbose (consoleLog ("  " +:+ e.1 +:+ " shut down"))
             | Some err => consoleError ("  Error shutting down " +:+ e.1 +:+ ": " +:+ shown err)
             end)
    (plugins s);;
  modify (with_plugins []).

Definition enablePlugin (pluginId : string) : M unit :=
  consoleWarn "enablePlugin is deprecated - edit config.yaml instead";;
  found ← PluginManager.getPlugin pluginId;
  match found with
  | None => throw (PluginManager.notFound pluginId)
  | Some _ => throw (ErrorObj "Please enable the plugin by editing config.yaml")
  end.

Definition disablePlugin (pluginId : string) : M unit :=
  consoleWarn "disablePlugin is deprecated - edit config.yaml instead";;
  found ← PluginManager.getPlugin pluginId;
  match found with
  | None => throw (PluginManager.notFound pluginId)
  | Some _ => throw (ErrorObj "Please disable the plugin by editing config.yaml")
  end.

Definition updatePluginConfig (pluginId : string) : M unit :=
  consoleWarn "updatePluginConfig is deprecated - edit config.yaml instead";;
  throw (ErrorObj "Please update the plugin configuration by editing config.yaml").

Record PluginStats := {
  total : Z;
  enabled : Z;
  disabled : Z;
}.

(** [getPluginStats]: [enabled] counts the enabled entries of the
    configuration, loaded or not. *)
Definition getPluginStats : M PluginStats :=
  configs ← PluginManager.getPluginConfigs;
  let enabled := Z.of_nat (length (filter (λ c, pc_enabled c = true) (map snd configs))) in
  s ← get;
  let size := Z.of_nat (length (plugins s)) in
  mret {| total := size; enabled := enabled; disabled := size - enabled |}.

End Lifecycle.

(** Where a registered plugin came from: a valid default export of a
    file of the built-in directory that discovery does not skip, or of a
    [.js] file of the user directory. *)
Definition discovered (builtIn user : option (list (string * ImportResult)))
    (p : TopixPlugin) : Prop :=
  ∃ file shape,
    PluginManager.isValidPlugin (ObjectExport shape p) = true
    ∧ (((file, Imported (ObjectExport shape p)) ∈ default [] builtIn
        ∧ PluginManager.includes file "example" = false
        ∧ PluginManager.endsWith file ".d.ts" = false)
       ∨ ((file, Imported (ObjectExport shape p)) ∈ default [] user
          ∧ PluginManager.endsWith file ".js" = true)).

(** The registry holds discovered plugins only, each under its own id. *)
Definition registrySound (builtIn user : option (list (string * ImportResult)))
    (s : System) : Prop :=
  builtInDir s = builtIn ∧ userDir s = user
  ∧ registryOk (plugins s)
  ∧ ∀ e, e ∈ plugins s → discovered builtIn user e.2.

(** ** Reading and flagging headlines (models/database.ts) *)

Module Queries.

(** The options of [getHeadlines]; an absent option is [None]. *)
Record HeadlineQuery := {
  q_limit : option Z;
  q_offset : option Z;
  q_category : option string;
  q_pluginId : option string;
  q_minImportanceScore : option Q;
  q_archived : option bool;
}.

(** The [WHERE] clause built by [getHeadlines]: [if (category)] and
    [if (pluginId)] skip an empty string, [importance_score >= ?] is not
    true of a [NULL] score. *)
Definition selected (q : HeadlineQuery) (r : HeadlineRow) : bool :=
  Bool.eqb (row_archived r) (default false (q_archived q))
  && match Database.orNullStr (q_category q) with
     | Some c => String.eqb (row_category r) c
     | None => true
     end
  && match Database.orNullStr (q_pluginId q) with
     | Some p => String.eqb (row_plugin_id r) p
     | None => true
     end
  && match q_minImportanceScore q with
     | Some m => match row_importance_score r with
                 | Some x => Qle_bool m x
                 | None => false
                 end
     | None => true
     end.

(** [ORDER BY created_at DESC]: a row may stand before another when its
    text is not below the other's. *)
Definition byCreatedAtDesc (a b : HeadlineRow) : Prop :=
  JsDate.textLe (row_created_at b) (row_created_at a).

#[global] Instance byCreatedAtDesc_dec a b : Decision (byCreatedAtDesc a b).
Proof. unfold byCreatedAtDesc. apply _. Defined.

Definition orderByCreatedAtDesc (rows : list HeadlineRow) : list HeadlineRow :=
  stableSort byCreatedAtDesc rows.

(** [OFFSET n]: SQLite reads a negative offset as zero. *)
Definition offset {A : Type} (n : Z) (rows : list A) : list A :=
  drop (Z.to_nat n) rows.

Definition getHeadlines (q : HeadlineQuery) (d : TopixDatabase) : list Headline :=
  let rows := filter (λ r, selected q r = true) (headlines d) in
  let rows := orderByCreatedAtDesc rows in
  let rows := Database.limit (default 50 (q_limit q)) (offset (default 0 (q_offset q)) rows) in
  map Database.rowToHeadline rows.

(** [SELECT * FROM headlines WHERE id = ?] with [.get]: the first row. *)
Definition getHeadlineById (id : string) (d : TopixDatabase) : option Headline :=
  Database.rowToHeadline <$> head (filter (λ r, row_id r = id) (headlines d)).

(** The [updates] of [updateHeadlineStatus]. *)
Record StatusUpdates := {
  u_read : option bool;
  u_starred : option bool;
  u_archived : option bool;
}.

Definition setStatus (u : StatusUpdates) (r : HeadlineRow) : HeadlineRow :=
  {| row_id := row_id r;
     row_plugin_id := row_plugin_id r;
     row_title := row_title r;
     row_description := row_description r;
     row_link := row_link r;
     row_pub_date := row_pub_date r;
     row_created_at := row_created_at r;
     row_category := row_category r;
     row_tags := row_tags r;
     row_importance_score := row_importance_score r;
     row_importance_reason := row_importance_reason r;
     row_metadata := row_metadata r;
     row_read := default (row_read r) (u_read u);
     row_starred := default (row_starred r) (u_starred u);
     row_archived := default (row_archived r) (u_archived u) |}.

(** [UPDATE headlines SET ... WHERE id = ?]; nothing is sent when no flag
    is given. *)
Definition updateHeadlineStatus (id : string) (u : StatusUpdates) (d : TopixDatabase)
    : TopixDatabase :=
  match u_read u, u_starred u, u_archived u with
  | None, None, None => d
  | _, _, _ =>
      with_headlines
        (map (λ r, if decide (row_id r = id) then setStatus u r else r) (headlines d)) d
  end.

End Queries.

(** A headline with the flags that [updates] names replaced. *)
Definition flagged (u : Queries.StatusUpdates) (h : Headline) : Headline :=
  {| h_id := h_id h; h_pluginId := h_pluginId h; h_title := h_title h;
     h_description := h_description h; h_link := h_link h;
     h_pubDate := h_pubDate h; h_createdAt := h_createdAt h;
     h_category := h_category h; h_tags := h_tags h;
     h_importanceScore := h_importanceScore h;
     h_importanceReason := h_importanceReason h; h_metadata := h_metadata h;
     h_read := default (h_read h) (Queries.u_read u);
     h_starred := default (h_starred h) (Queries.u_starred u);
     h_archived := default (h_archived h) (Queries.u_archived u) |}.

(** The same system once the keychain answers again. *)
Definition keychainRecovers (s : System) : System :=
  with_keychain {| kc_failing := false; kc_entries := kc_entries (keychain s) |} s.

(** The system after a failed keychain operation was reported and the
    keychain given up. *)
Definition demoted (msg : string) (s : System) : System :=
  with_keychainAvailable false (with_console (console s ++ [entry WarnLevel msg]) s).


(** ** The RSS feed of the service (managers/service-manager.ts) *)

Module Feed.

(** [s.replace(/c/g, replacement)] for a one-character pattern. *)
Fixpoint replaceAll (c : Ascii.ascii) (replacement : string) (s : string) : string :=
  match s with
  | EmptyString => EmptyString
  | String a rest =>
      if Ascii.eqb a c then replacement +:+ replaceAll c replacement rest
      else String a (replaceAll c replacement rest)
  end.

(** The five characters that XML reserves, by code. *)
Definition ampersand : Ascii.ascii := Ascii.ascii_of_nat 38.
Definition lessThan : Ascii.ascii := Ascii.ascii_of_nat 60.
Definition greaterThan : Ascii.ascii := Ascii.ascii_of_nat 62.
Definition doubleQuote : Ascii.ascii := Ascii.ascii_of_nat 34.
Definition apostrophe : Ascii.ascii := Ascii.ascii_of_nat 39.

Definition escapeXml (unsafe : string) : string :=
  replaceAll apostrophe "&apos;"
    (replaceAll doubleQuote "&quot;"
       (replaceAll greaterThan "&gt;"
          (replaceAll lessThan "&lt;"
             (replaceAll ampersand "&amp;" unsafe)))).

(** The query of [generateRSSFeed]. *)
Definition feedQuery (feed : FeedSettings) (importance : ImportanceSettings)
    : Queries.HeadlineQuery :=
  {| Queries.q_limit := Some (feed_maxItems feed);
     Queries.q_offset := None;
     Queries.q_category := None;
     Queries.q_pluginId := None;
     Queries.q_minImportanceScore := Some (defaultThreshold importance);
     Queries.q_archived := Some false |}.

(** The headlines that [generateRSSFeed] turns into items. *)
Definition feedItems : M (list Headline) :=
  s ← get;
  mret (Queries.getHeadlines (feedQuery (cfg_feed (config s)) (cfg_importance (config s)))
          (store s)).

End Feed.

(** What [escapeXml] writes for one character. *)
Definition entity (a : Ascii.ascii) : string :=
  if Ascii.eqb a Feed.ampersand then "&amp;"
  else if Ascii.eqb a Feed.lessThan then "&lt;"
  else if Ascii.eqb a Feed.greaterThan then "&gt;"
  else if Ascii.eqb a Feed.doubleQuote then "&quot;"
  else if Ascii.eqb a Feed.apostrophe then "&apos;"
  else String a EmptyString.

(** ** What the scheduler reports (managers/scheduler.ts) *)

Module SchedulerInfo.

Record ScheduledInfo := {
  info_pluginId : string;
  info_schedule : string;
  info_active : bool;
}.

(** [getScheduledTasks]: one entry for every task whose plugin the
    configuration lists, with the schedule that the configuration gives.
    The source lists them in the insertion order of its [Map]; the order
    here is that of the model's map. *)
Definition getScheduledTasks : M (list ScheduledInfo) :=
  s ← get;
  mret (omap (λ e : string * ScheduledTask,
                (λ y, {| info_pluginId := e.1; info_schedule := y_schedule y;
                         info_active := true |})
                <$> assoc e.1 (cfg_plugins (config s)))
          (map_to_list (tasks s))).

End SchedulerInfo.

(** ** Preferences kept in the configuration file (managers/config-manager.ts) *)

Definition with_configOnDisk (x : JsVal) (s : System) : System :=
  {| now := now s; zone := zone s; console := console s; store := store s; config := config s;
     configOnDisk := x; builtInDir := builtInDir s; userDir := userDir s;
     plugins := plugins s; verbose := verbose s; tasks := tasks s; running := running s;
     armed := armed s; created := created s;
     keychainAvailable := keychainAvailable s; keychain := keychain s |}.

Module ConfigManager.

Record NotificationSettings := {
  n_enabled : bool;
  n_urgentThreshold : Q;
}.

Record UserPreferences := {
  prefs_feed : FeedSettings;
  prefs_importance : ImportanceSettings;
  prefs_llm : LLMProvider;
  prefs_notifications : option NotificationSettings;
}.

(** [Partial<UserPreferences['feed']>]: the keys given; no key is given
    with the value [undefined]. *)
Record FeedPatch := {
  fp_title : option string;
  fp_description : option string;
  fp_maxItems : option Z;
  fp_ttl : option Z;
}.

Record NotificationPatch := {
  np_enabled : option bool;
  np_urgentThreshold : option Q;
}.

Definition defaultNotifications : NotificationSettings :=
  {| n_enabled := false; n_urgentThreshold := 9 # 10 |}.

Section WithDisk.

(** The document that [dump(config)] leaves in the file. *)
Variable toDocument : TopixConfig → JsVal.

(** [writeFileSync(configPath, header + yaml)]: what it throws, if it does. *)
Variable writeFileSync : JsVal → option Thrown.

(** [saveConfig] (utils/config-file.ts) *)
Definition saveConfig (cfg : TopixConfig) : M unit :=
  match writeFileSync (toDocument cfg) with
  | None => modify (with_configOnDisk (toDocument cfg))
  | Some error =>
      consoleError ("Failed to save config file: " +:+ shown error);;
      throw error
  end.

Definition persist : M unit :=
  s ← get; saveConfig (config s).

Definition getPreferences : M UserPreferences :=
  s ← get;
  mret {| prefs_feed := cfg_feed (config s);
          prefs_importance := cfg_importance (config s);
          prefs_llm := cfg_llm (config s);
          prefs_notifications := Some defaultNotifications |}.

Definition setPreferences (prefs : UserPreferences) : M unit :=
  modify (λ s, with_config {| cfg_feed := prefs_feed prefs;
                              cfg_importance := prefs_importance prefs;
                              cfg_llm := prefs_llm prefs;
                              cfg_plugins := cfg_plugins (config s) |} s);;
  persist;;
  consoleLog "Updated user preferences".

Definition getFeedConfig : M FeedSettings :=
  prefs ← getPreferences; mret (prefs_feed prefs).

(** [{ ...prefs.feed, ...config }] *)
Definition mergeFeed (feed : FeedSettings) (patch : FeedPatch) : FeedSettings :=
  {| feed_title := default (feed_title feed) (fp_title patch);
     feed_description := default (feed_description feed) (fp_description patch);
     feed_maxItems := default (feed_maxItems feed) (fp_maxItems patch);
     feed_ttl := default (feed_ttl feed) (fp_ttl patch) |}.

Definition setFeedConfig (patch : FeedPatch) : M unit :=
  prefs ← getPreferences;
  setPreferences {| prefs_feed := mergeFeed (prefs_feed prefs) patch;
                    prefs_importance := prefs_importance prefs;
                    prefs_llm := prefs_llm prefs;
                    prefs_notifications := prefs_notifications prefs |}.

Definition getNotificationConfig : M (option NotificationSettings) :=
  prefs ← getPreferences; mret (prefs_notifications prefs).

Definition setNotificationConfig (patch : NotificationPatch) : M unit :=
  prefs ← getPreferences;
  let current := default defaultNotifications (prefs_notifications prefs) in
  setPreferences
    {| prefs_feed := prefs_feed prefs;
       prefs_importance := prefs_importance prefs;
       prefs_llm := prefs_llm prefs;
       prefs_notifications :=
         Some {| n_enabled := default (n_enabled current) (np_enabled patch);
                 n_urgentThreshold :=
                   default (n_urgentThreshold current) (np_urgentThreshold patch) |} |}.

End WithDisk.

End ConfigManager.

(** * Properties *)

(** ** The monad: how each primitive moves the state *)

Ltac run_monad :=
  unfold mbind, M_bind, bind, mret, M_ret, ret, get, modify, throw, tryCatch, when, skip,
    emit, consoleLog, consoleWarn, consoleError.

Lemma with_store_same (s : System) : with_store (store s) s = s.
Proof. by destruct s. Qed.

Lemma with_console_same (s : System) : with_console (console s) s = s.
Proof. by destruct s. Qed.

(** ** Time values and their text *)

Section TimeFacts.

Import JsDate.

Lemma dayFromYear_step y : 365 ≤ dayFromYear (y + 1) - dayFromYear y ≤ 366.
Proof. unfold dayFromYear. Z.div_mod_to_equations. lia. Qed.

Lemma dayFromYear_le a b : a ≤ b → dayFromYear a ≤ dayFromYear b.
Proof. unfold dayFromYear. Z.div_mod_to_equations. lia. Qed.

(** [yearFromDay] is [YearFromTime]: the year of a day begins on or before
    it, and the next year after it. *)
Lemma yearFromDay_spec d :
  dayFromYear (yearFromDay d) ≤ d < dayFromYear (yearFromDay d + 1).
Proof.
  unfold yearFromDay. cbv zeta.
  destruct (Z.ltb_spec d (dayFromYear (1970 + 400 * d / 146097))) as [Hlow|Hlow].
  - split.
    + revert Hlow. unfold dayFromYear. Z.div_mod_to_equations. lia.
    + by replace (1970 + 400 * d / 146097 - 1 + 1) with (1970 + 400 * d / 146097) by lia.
  - destruct (Z.leb_spec (dayFromYear (1970 + 400 * d / 146097 + 1)) d) as [Hup|Hup].
    + split; [done|]. revert Hup. unfold dayFromYear. Z.div_mod_to_equations. lia.
    + done.
Qed.

Lemma yearFromDay_unique d y :
  dayFromYear y ≤ d < dayFromYear (y + 1) → yearFromDay d = y.
Proof.
  intros [Hlo Hhi]. pose proof (yearFromDay_spec d) as [Hlo' Hhi'].
  destruct (Z.lt_trichotomy (yearFromDay d) y) as [Hlt|[Heq|Hgt]]; [|done|].
  - pose proof (dayFromYear_le (yearFromDay d + 1) y ltac:(lia)). lia.
  - pose proof (dayFromYear_le (y + 1) (yearFromDay d) ltac:(lia)). lia.
Qed.

Lemma yearFromDay_mono d e : d ≤ e → yearFromDay d ≤ yearFromDay e.
Proof.
  intros Hde. pose proof (yearFromDay_spec d) as [Hd _].
  pose proof (yearFromDay_spec e) as [_ He].
  destruct (Z.le_gt_cases (yearFromDay d) (yearFromDay e)) as [|Hgt]; [done|].
  pose proof (dayFromYear_le (yearFromDay e + 1) (yearFromDay d) ltac:(lia)). lia.
Qed.

(** The instants of [fourDigitYear] are those of the years 0000 to 9999. *)
Lemma fourDigitYear_year t : fourDigitYear t ↔ 0 ≤ yearFromTime t ≤ 9999.
Proof.
  unfold fourDigitYear, yearFromTime.
  pose proof (yearFromDay_spec (day t)) as [Hy Hy'].
  assert (H0 : dayFromYear 0 = -719528) by reflexivity.
  assert (H1 : dayFromYear 10000 = 2932897) by reflexivity.
  assert (Hday : (-62167219200000 ≤ t ↔ -719528 ≤ day t)
                 ∧ (t < 253402300800000 ↔ day t < 2932897)).
  { unfold day, msPerDay. Z.div_mod_to_equations. lia. }
  destruct Hday as [Hlo Hhi]. rewrite Hlo, Hhi. split.
  - intros [Ha Hb]. split.
    + destruct (Z.le_gt_cases 0 (yearFromDay (day t))) as [|Hneg]; [done|].
      pose proof (dayFromYear_le (yearFromDay (day t) + 1) 0 ltac:(lia)). lia.
    + destruct (Z.le_gt_cases (yearFromDay (day t)) 9999) as [|Hbig]; [done|].
      pose proof (dayFromYear_le 10000 (yearFromDay (day t)) ltac:(lia)). lia.
  - intros [Ha Hb]. split.
    + pose proof (dayFromYear_le 0 (yearFromDay (day t)) Ha). lia.
    + pose proof (dayFromYear_le (yearFromDay (day t) + 1) 10000 ltac:(lia)). lia.
Qed.

Lemma leapDays_range y : leapDays y = 0 ∨ leapDays y = 1.
Proof. unfold leapDays. pose proof (dayFromYear_step y). lia. Qed.

Lemma dayWithinYear_range t :
  0 ≤ dayWithinYear t < 365 + leapDays (yearFromTime t).
Proof.
  unfold dayWithinYear, leapDays, yearFromTime.
  pose proof (yearFromDay_spec (day t)). lia.
Qed.

Ltac split_months :=
  repeat match goal with
         | |- context [if ?x <? ?y then _ else _] => destruct (Z.ltb_spec x y)
         end.

Lemma monthFromDay_range leap d : 0 ≤ monthFromDay leap d ≤ 11.
Proof. unfold monthFromDay. split_months; lia. Qed.

Lemma dateFromDay_range leap d :
  leap = 0 ∨ leap = 1 → 0 ≤ d < 365 + leap → 1 ≤ dateFromDay leap d ≤ 31.
Proof. intros Hl Hd. unfold dateFromDay. split_months; lia. Qed.

(** Within a year, a later day has a later month, or the same month and a
    later date. *)
Lemma month_date_lt leap x y :
  x < y →
  monthFromDay leap x < monthFromDay leap y
  ∨ (monthFromDay leap x = monthFromDay leap y ∧ dateFromDay leap x < dateFromDay leap y).
Proof. intros Hxy. unfold monthFromDay, dateFromDay. split_months; lia. Qed.

Lemma clock_range u :
  0 ≤ u < msPerDay →
  0 ≤ u / 3600000 < 100 ∧ 0 ≤ (u / 60000) mod 60 < 100 ∧ 0 ≤ (u / 1000) mod 60 < 100
  ∧ 0 ≤ u mod 1000 < 1000.
Proof. unfold msPerDay. intros Hu. Z.div_mod_to_equations. lia. Qed.

Lemma clock_lt u v :
  0 ≤ u < v → v < msPerDay →
  u / 3600000 < v / 3600000
  ∨ (u / 3600000 = v / 3600000
     ∧ ((u / 60000) mod 60 < (v / 60000) mod 60
        ∨ ((u / 60000) mod 60 = (v / 60000) mod 60
           ∧ ((u / 1000) mod 60 < (v / 1000) mod 60
              ∨ ((u / 1000) mod 60 = (v / 1000) mod 60 ∧ u mod 1000 < v mod 1000))))).
Proof. unfold msPerDay. intros Hu Hv. Z.div_mod_to_equations. lia. Qed.

Lemma lexCompare_refl l : lexCompare l l = Eq.
Proof. induction l as [|x l IH]; [done|]. cbn. by rewrite Z.compare_refl. Qed.

Lemma lexCompare_antisym l1 l2 : lexCompare l1 l2 = CompOpp (lexCompare l2 l1).
Proof.
  revert l2. induction l1 as [|x l1 IH]; intros [|y l2]; try done. cbn.
  rewrite (Z.compare_antisym y x). destruct (y ?= x); cbn; [apply IH|done..].
Qed.

(** The numbers printed for an earlier instant come first. *)
Lemma fields_lt a b : a < b → lexCompare (fields a) (fields b) = Lt.
Proof.
  intros Hab. unfold fields, lexCompare.
  assert (Hday : day a < day b ∨ (day a = day b ∧ timeWithinDay a < timeWithinDay b)).
  { unfold day, timeWithinDay, msPerDay. Z.div_mod_to_equations. lia. }
  destruct Hday as [Hlt|[Heq Htod]].
  - pose proof (yearFromDay_mono (day a) (day b) ltac:(lia)) as Hy.
    fold (yearFromTime a) (yearFromTime b) in Hy.
    destruct (Z.compare_spec (yearFromTime a) (yearFromTime b)) as [Ey|?|?]; [|done|lia].
    unfold monthFromTime, dateFromTime, dayWithinYear. rewrite Ey.
    destruct (month_date_lt (leapDays (yearFromTime b))
                (day a - dayFromYear (yearFromTime b)) (day b - dayFromYear (yearFromTime b))
                ltac:(lia)) as [Hm|[Hm Hd]].
    + by rewrite (proj2 (Z.compare_lt_iff _ _)) by lia.
    + rewrite Hm, Z.compare_refl. by rewrite (proj2 (Z.compare_lt_iff _ _)) by lia.
  - unfold yearFromTime, monthFromTime, dateFromTime, dayWithinYear, yearFromTime.
    rewrite Heq, !Z.compare_refl.
    unfold hourFromTime, minFromTime, secFromTime, msFromTime.
    assert (H0 : 0 ≤ timeWithinDay a) by (apply Z.mod_pos_bound; done).
    assert (H1 : timeWithinDay b < msPerDay) by (apply Z.mod_pos_bound; done).
    destruct (clock_lt (timeWithinDay a) (timeWithinDay b) ltac:(lia) H1)
      as [Hh|[Hh [Hm|[Hm [Hs|[Hs Hms]]]]]].
    + by rewrite (proj2 (Z.compare_lt_iff _ _)) by lia.
    + rewrite Hh, Z.compare_refl. by rewrite (proj2 (Z.compare_lt_iff _ _)) by lia.
    + rewrite Hh, Hm, !Z.compare_refl. by rewrite (proj2 (Z.compare_lt_iff _ _)) by lia.
    + rewrite Hh, Hm, Hs, !Z.compare_refl. by rewrite (proj2 (Z.compare_lt_iff _ _)) by lia.
Qed.

Lemma fields_compare a b : lexCompare (fields a) (fields b) = (a ?= b).
Proof.
  destruct (Z.compare_spec a b) as [->|Hlt|Hgt].
  - apply lexCompare_refl.
  - by apply fields_lt.
  - rewrite lexCompare_antisym, (fields_lt b a) by done. done.
Qed.

(** *** Comparing texts *)

Lemma ascii_compare_refl c : Ascii.compare c c = Eq.
Proof. unfold Ascii.compare. apply N.compare_refl. Qed.

Lemma string_compare_refl s : String.compare s s = Eq.
Proof. induction s as [|c s IH]; [done|]. cbn. by rewrite ascii_compare_refl. Qed.

Lemma string_compare_le_trans s t u :
  String.compare s t ≠ Gt → String.compare t u ≠ Gt → String.compare s u ≠ Gt.
Proof.
  revert t u. induction s as [|a s IH]; intros [|b t] [|c u]; cbn; try done.
  unfold Ascii.compare.
  destruct (N.compare_spec (Ascii.N_of_ascii a) (Ascii.N_of_ascii b)) as [Eab|Hab|Hab];
    destruct (N.compare_spec (Ascii.N_of_ascii b) (Ascii.N_of_ascii c)) as [Ebc|Hbc|Hbc];
    destruct (N.compare_spec (Ascii.N_of_ascii a) (Ascii.N_of_ascii c)) as [Eac|Hac|Hac];
    try done; try lia.
  apply IH.
Qed.

Lemma append_cons c s t : String c s +:+ t = String c (s +:+ t).
Proof. reflexivity. Qed.

Lemma append_nil_l t : "" +:+ t = t.
Proof. reflexivity. Qed.

Lemma digit_compare a b :
  0 ≤ a ≤ 9 → 0 ≤ b ≤ 9 → Ascii.compare (digit a) (digit b) = (a ?= b).
Proof.
  intros Ha Hb. unfold Ascii.compare, digit.
  rewrite !Ascii.N_ascii_embedding by lia.
  rewrite Z2N.inj_compare by lia. apply Z.add_compare_mono_l.
Qed.

Lemma pad_first w n :
  0 ≤ n < 10 ^ Z.of_nat (S w) → 0 ≤ n / 10 ^ Z.of_nat w ≤ 9.
Proof.
  intros Hn. assert (Hp : 0 < 10 ^ Z.of_nat w) by (apply Z.pow_pos_nonneg; lia).
  rewrite Nat2Z.inj_succ, Z.pow_succ_r in Hn by lia.
  split; [apply Z.div_pos; lia|]. apply Z.lt_succ_r. apply Z.div_lt_upper_bound; lia.
Qed.

(** Numbers printed in the same width compare as numbers. *)
Lemma pad_compare w a b s t :
  0 ≤ a < 10 ^ Z.of_nat w → 0 ≤ b < 10 ^ Z.of_nat w →
  String.compare (pad w a +:+ s) (pad w b +:+ t)
  = match a ?= b with Eq => String.compare s t | c => c end.
Proof.
  revert a b. induction w as [|w IH]; intros a b Ha Hb.
  - cbn in Ha, Hb. assert (a = 0) as -> by lia. assert (b = 0) as -> by lia. done.
  - cbn [pad]. rewrite !append_cons. cbn [String.compare].
    pose proof (pad_first w a Ha) as Hqa. pose proof (pad_first w b Hb) as Hqb.
    set (p := 10 ^ Z.of_nat w) in *.
    assert (Hp : 0 < p) by (apply Z.pow_pos_nonneg; lia).
    pose proof (Z.div_mod a p ltac:(lia)) as Ea.
    pose proof (Z.div_mod b p ltac:(lia)) as Eb.
    pose proof (Z.mod_pos_bound a p Hp) as Ra.
    pose proof (Z.mod_pos_bound b p Hp) as Rb.
    rewrite digit_compare by done.
    rewrite IH by done.
    destruct (Z.compare_spec (a / p) (b / p)) as [Heq|Hlt|Hgt].
    + rewrite Heq in Ea.
      destruct (Z.compare_spec (a mod p) (b mod p)) as [Hr|Hr|Hr].
      * rewrite (proj2 (Z.compare_eq_iff a b)) by lia. done.
      * rewrite (proj2 (Z.compare_lt_iff a b)) by lia. done.
      * rewrite (proj2 (Z.compare_gt_iff a b)) by lia. done.
    + rewrite (proj2 (Z.compare_lt_iff a b)) by nia. done.
    + rewrite (proj2 (Z.compare_gt_iff a b)) by nia. done.
Qed.

(** Within the years 0000 to 9999 the texts of [toISOString] compare as
    the instants do. *)
Lemma textCompare_fourDigitYear a b :
  fourDigitYear a → fourDigitYear b → textCompare a b = (a ?= b).
Proof.
  intros Ha Hb. rewrite <- fields_compare. unfold textCompare.
  apply fourDigitYear_year in Ha as Hya. apply fourDigitYear_year in Hb as Hyb.
  unfold toISOString, yearText, fields, lexCompare.
  rewrite !(proj2 (andb_true_iff _ _)) by (split; apply Z.leb_le; lia).
  pose proof (dayWithinYear_range a) as Hwa. pose proof (dayWithinYear_range b) as Hwb.
  pose proof (leapDays_range (yearFromTime a)) as Hla.
  pose proof (leapDays_range (yearFromTime b)) as Hlb.
  pose proof (monthFromDay_range (leapDays (yearFromTime a)) (dayWithinYear a)) as Hma.
  pose proof (monthFromDay_range (leapDays (yearFromTime b)) (dayWithinYear b)) as Hmb.
  pose proof (dateFromDay_range _ _ Hla Hwa) as Hda.
  pose proof (dateFromDay_range _ _ Hlb Hwb) as Hdb.
  pose proof (clock_range (timeWithinDay a) (Z.mod_pos_bound a msPerDay eq_refl))
    as (Hha & Hmia & Hsa & Hmsa).
  pose proof (clock_range (timeWithinDay b) (Z.mod_pos_bound b msPerDay eq_refl))
    as (Hhb & Hmib & Hsb & Hmsb).
  fold (monthFromTime a) (monthFromTime b) (dateFromTime a) (dateFromTime b) in *.
  fold (hourFromTime a) (hourFromTime b) (minFromTime a) (minFromTime b)
       (secFromTime a) (secFromTime b) (msFromTime a) (msFromTime b) in *.
  repeat (rewrite pad_compare by (cbn; lia);
          rewrite ?append_cons, ?append_nil_l; cbn [String.compare Ascii.compare];
          rewrite ?ascii_compare_refl).
  done.
Qed.

Lemma textLe_fourDigitYear a b :
  fourDigitYear a → fourDigitYear b → textLe a b ↔ a ≤ b.
Proof.
  intros Ha Hb. unfold textLe. rewrite textCompare_fourDigitYear by done.
  destruct (Z.compare_spec a b); split; (done || lia).
Qed.

Lemma textLt_fourDigitYear a b :
  fourDigitYear a → fourDigitYear b → textLt a b ↔ a < b.
Proof.
  intros Ha Hb. unfold textLt. rewrite textCompare_fourDigitYear by done.
  destruct (Z.compare_spec a b); split; (done || lia).
Qed.

(** The text of a year outside 0000 to 9999 begins with a sign, which is
    below every digit. *)
Lemma textLt_sign a b : ¬ fourDigitYear a → fourDigitYear b → textLt a b.
Proof.
  intros Ha Hb. rewrite fourDigitYear_year in Ha. apply fourDigitYear_year in Hb.
  unfold textLt, textCompare, toISOString, yearText.
  rewrite (proj2 (andb_true_iff (0 <=? yearFromTime b) _)) by (split; apply Z.leb_le; lia).
  assert (Hout : (0 <=? yearFromTime a) && (yearFromTime a <=? 9999) = false).
  { apply andb_false_iff. rewrite Z.leb_gt, Z.leb_gt. lia. }
  rewrite Hout. cbn [pad]. rewrite !append_cons.
  pose proof (pad_first 3 (yearFromTime b) ltac:(cbn; lia)) as Hq.
  assert (Hsign : ∀ c, (Ascii.N_of_ascii c < 48)%N →
            Ascii.compare c (digit (yearFromTime b / 10 ^ Z.of_nat 3)) = Lt).
  { intros c Hc. unfold Ascii.compare, digit. rewrite Ascii.N_ascii_embedding by lia.
    apply N.compare_lt_iff. lia. }
  destruct (yearFromTime a <? 0); rewrite append_cons; cbn [String.compare];
    by rewrite Hsign by (vm_compute; reflexivity).
Qed.

#[global] Instance textLe_trans : Transitive textLe.
Proof. intros a b c. unfold textLe, textCompare. apply string_compare_le_trans. Qed.

#[global] Instance textLe_total : Total textLe.
Proof.
  intros a b. unfold textLe, textCompare.
  rewrite (String.compare_antisym (toISOString a) (toISOString b)).
  destruct (String.compare (toISOString b) (toISOString a)); cbn; (by left) || (by right).
Qed.

Lemma textLt_not_textLe a b : textLt a b ↔ ¬ textLe b a.
Proof.
  unfold textLt, textLe, textCompare.
  rewrite (String.compare_antisym (toISOString a) (toISOString b)).
  destruct (String.compare (toISOString b) (toISOString a)); cbn; split; try done.
  - intros Hno. by destruct Hno.
  - intros Hno. by destruct Hno.
  - intros _ Hno. by destruct Hno.
Qed.

End TimeFacts.

(** What [toISOString] prints at the ends of its ranges. *)
Example toISOString_samples :
  map JsDate.toISOString
    [0; -1; 951782400000; Sample.fallBack2026;
     253402300799999; 253402300800000; -62167219200000; -62167219200001;
     8640000000000000; -8640000000000000]
  = ["1970-01-01T00:00:00.000Z"; "1969-12-31T23:59:59.999Z"; "2000-02-29T00:00:00.000Z";
     "2026-11-01T06:00:00.000Z";
     "9999-12-31T23:59:59.999Z"; "+010000-01-01T00:00:00.000Z";
     "0000-01-01T00:00:00.000Z"; "-000001-12-31T23:59:59.999Z";
     "+275760-09-13T00:00:00.000Z"; "-271821-04-20T00:00:00.000Z"].
Proof. vm_compute. reflexivity. Qed.

(** ** Sorting *)

Section Sorting.

Context {A : Type} (before : A → A → Prop) `{∀ a b, Decision (before a b)}.

Lemma insertSorted_perm x l : insertSorted before x l ≡ₚ x :: l.
Proof.
  induction l as [|y l IH]; [done|]. cbn.
  destruct (decide (before x y)); [done|]. rewrite IH. apply Permutation_swap.
Qed.

Lemma stableSort_perm l : stableSort before l ≡ₚ l.
Proof.
  induction l as [|x l IH]; [done|]. cbn.
  rewrite insertSorted_perm. by rewrite IH.
Qed.

Context `{!Transitive before, !Total before}.

Lemma insertSorted_sorted x l :
  StronglySorted before l → StronglySorted before (insertSorted before x l).
Proof.
  induction 1 as [|y l Hl IH Hy]; cbn.
  - repeat constructor.
  - destruct (decide (before x y)) as [Hxy|Hxy].
    + constructor; [by constructor|]. constructor; [done|].
      eapply Forall_impl; [exact Hy|]. intros z Hz. by transitivity y.
    + constructor; [done|]. rewrite insertSorted_perm. constructor; [|done].
      by destruct (total before x y).
Qed.

Lemma stableSort_sorted l : StronglySorted before (stableSort before l).
Proof.
  induction l as [|x l IH]; [constructor|]. cbn. by apply insertSorted_sorted.
Qed.

(** Rows that may stand either way keep the order of the table. *)
Lemma insertSorted_first x l :
  Forall (before x) l → insertSorted before x l = x :: l.
Proof. intros Hl. destruct Hl; [done|]. cbn. by rewrite decide_True. Qed.

End Sorting.

(** ** The headline store *)

Section StoreFacts.

Import Database.

#[local] Instance byPubDateDesc_trans : Transitive byPubDateDesc.
Proof. intros a b c Hab Hbc. unfold byPubDateDesc in *. by transitivity (row_pub_date b). Qed.

#[local] Instance byPubDateDesc_total : Total byPubDateDesc.
Proof. intros a b. unfold byPubDateDesc. destruct (total JsDate.textLe (row_pub_date a) (row_pub_date b)); auto. Qed.

Lemma orderByPubDateDesc_perm rows : orderByPubDateDesc rows ≡ₚ rows.
Proof. apply stableSort_perm. Qed.

Lemma orderByPubDateDesc_sorted rows : StronglySorted byPubDateDesc (orderByPubDateDesc rows).
Proof. apply stableSort_sorted; apply _. Qed.

(** Whatever [LIMIT n] cuts off does not stand above what it keeps. *)
Lemma limit_keeps_newest (n : nat) (rows : list HeadlineRow) (kept dropped : HeadlineRow) :
  kept ∈ take n (orderByPubDateDesc rows) →
  dropped ∈ drop n (orderByPubDateDesc rows) →
  JsDate.textLe (row_pub_date dropped) (row_pub_date kept).
Proof.
  intros Hk Hd.
  pose proof (orderByPubDateDesc_sorted rows) as Hs.
  rewrite <- (take_drop n (orderByPubDateDesc rows)) in Hs.
  exact (StronglySorted_app_1_elem_of _ _ _ _ _ Hs Hk Hd).
Qed.

Lemma row_id_inj (rows : list HeadlineRow) (a b : HeadlineRow) :
  NoDup (map row_id rows) → a ∈ rows → b ∈ rows → row_id a = row_id b → a = b.
Proof.
  induction rows as [|r rows IH]; intros Hnd Ha Hb Hid.
  - by apply elem_of_nil in Ha.
  - cbn in Hnd. apply NoDup_cons in Hnd as [Hr Hnd].
    apply elem_of_cons in Ha as [->|Ha]; apply elem_of_cons in Hb as [->|Hb]; auto.
    + exfalso. apply Hr. rewrite Hid. apply (list_elem_of_fmap_2 row_id _ _ Hb).
    + exfalso. apply Hr. rewrite <- Hid. apply (list_elem_of_fmap_2 row_id _ _ Ha).
Qed.

Lemma filter_none {A : Type} (P : A → Prop) `{∀ x, Decision (P x)} (l : list A) :
  (∀ x, ¬ P x) → filter P l = [].
Proof.
  intros Hno. induction l as [|x l IH]; [done|].
  rewrite filter_cons. destruct (decide (P x)); [by destruct (Hno x)|done].
Qed.

Lemma uniqueIds_NoDup (d : TopixDatabase) : uniqueIds d → NoDup (headlines d).
Proof. intros H. by apply (NoDup_fmap_1 row_id). Qed.

Lemma uniqueIds_filter (P : HeadlineRow → Prop) `{∀ r, Decision (P r)} (d : TopixDatabase) :
  uniqueIds d → uniqueIds (with_headlines (filter P (headlines d)) d).
Proof.
  unfold uniqueIds; cbn. intros Hnd.
  induction (headlines d) as [|r rows IH]; [done|].
  cbn in Hnd. apply NoDup_cons in Hnd as [Hr Hnd].
  rewrite filter_cons. destruct (decide (P r)); [|by apply IH].
  cbn. apply NoDup_cons. split; [|by apply IH].
  intros Hin. apply Hr.
  apply list_elem_of_fmap in Hin as (x & -> & Hx).
  apply list_elem_of_filter in Hx as [_ Hx].
  by apply list_elem_of_fmap_2.
Qed.

(** What an accepted insert says of the headline and does to the table. *)
Lemma insertHeadline_inr (h : Headline) (d d' : TopixDatabase) :
  insertHeadline h d = inr d' →
  JsDate.validTime (h_pubDate h) = true ∧ JsDate.validTime (h_createdAt h) = true
  ∧ h_metadata h ≠ JUndefined
  ∧ (h_id h ∉ map row_id (headlines d))
  ∧ d' = with_headlines (headlines d ++ [toRow h]) d.
Proof.
  unfold insertHeadline. intros Hins.
  destruct (JsDate.validTime (h_pubDate h)); [|done].
  destruct (JsDate.validTime (h_createdAt h)); [|done]. cbn in Hins.
  destruct (h_metadata h); try done;
    (destruct (decide _) as [|Hfresh]; [done|]; by injection Hins as <-).
Qed.

Lemma insertHeadline_uniqueIds (h : Headline) (d d' : TopixDatabase) :
  uniqueIds d → insertHeadline h d = inr d' → uniqueIds d'.
Proof.
  unfold uniqueIds. intros Hnd Hins.
  apply insertHeadline_inr in Hins as (_ & _ & _ & Hfresh & ->). cbn.
  rewrite map_app. apply NoDup_app. split_and!; [done| |].
  - intros x Hx Hx'. cbn in Hx'. apply list_elem_of_singleton in Hx'. by subst.
  - cbn. apply NoDup_singleton.
Qed.

Lemma insertAll_uniqueIds (hs : list Headline) (d d' : TopixDatabase) :
  uniqueIds d → insertAll hs d = inr d' → uniqueIds d'.
Proof.
  revert d. induction hs as [|h hs IH]; intros d Hnd Hins; cbn in Hins.
  - by injection Hins as <-.
  - destruct (insertHeadline h d) as [|d1] eqn:E; [done|].
    eauto using insertHeadline_uniqueIds.
Qed.

(** A fetch that stores all its headlines appends their rows to the table. *)
Lemma insertAll_headlines (hs : list Headline) (d d' : TopixDatabase) :
  insertAll hs d = inr d' → headlines d' = headlines d ++ map toRow hs.
Proof.
  revert d. induction hs as [|h hs IH]; intros d Hins; cbn in Hins.
  - injection Hins as <-. by rewrite app_nil_r.
  - destruct (insertHeadline h d) as [|d1] eqn:E; [done|].
    rewrite (IH _ Hins). apply insertHeadline_inr in E as (_ & _ & _ & _ & ->). cbn.
    by rewrite <- app_assoc.
Qed.

Lemma deleteOldHeadlinesByCount_uniqueIds pluginId keepCount d :
  uniqueIds d → uniqueIds (deleteOldHeadlinesByCount pluginId keepCount d).2.
Proof.
  intros Hnd. unfold deleteOldHeadlinesByCount. cbn.
  destruct (map row_id _); by apply uniqueIds_filter.
Qed.

(** What a duration sweep that does not throw leaves: the rows of the
    other plugins, and of the plugin those whose text is not below the text
    of the cutoff. *)
Lemma deleteOldHeadlinesByDuration_inr pluginId hours zone now d swept :
  deleteOldHeadlinesByDuration pluginId hours zone now d = inr swept →
  ∃ cutoffDate,
    JsDate.setHoursBack zone hours now = Some cutoffDate
    ∧ swept.2
      = with_headlines
          (filter (λ r, ¬ (row_plugin_id r = pluginId
                           ∧ JsDate.textLt (row_pub_date r) cutoffDate)) (headlines d)) d.
Proof.
  unfold deleteOldHeadlinesByDuration.
  destruct (JsDate.setHoursBack zone hours now) as [cutoffDate|]; [|done].
  intros [= <-]. by exists cutoffDate.
Qed.

Lemma deleteOldHeadlinesByDuration_uniqueIds pluginId hours zone now d swept :
  uniqueIds d → deleteOldHeadlinesByDuration pluginId hours zone now d = inr swept →
  uniqueIds swept.2.
Proof.
  intros Hnd Hrun. apply deleteOldHeadlinesByDuration_inr in Hrun as (c & _ & ->).
  by apply uniqueIds_filter.
Qed.

Lemma applyRetention_uniqueIds pluginId policy zone now d d' :
  uniqueIds d → applyRetention pluginId policy zone now d = inr d' → uniqueIds d'.
Proof.
  intros Hnd. destruct policy as [value|hours|]; cbn.
  - intros [= <-]. by apply deleteOldHeadlinesByCount_uniqueIds.
  - destruct (deleteOldHeadlinesByDuration _ _ _ _ _) as [|swept] eqn:E; [done|].
    intros [= <-]. by eapply deleteOldHeadlinesByDuration_uniqueIds.
  - by intros [= <-].
Qed.

(** After the count sweep the rows of the plugin are those that
    [ORDER BY pub_date DESC LIMIT keepCount] selected. *)
Lemma deleteOldHeadlinesByCount_selects pluginId keepCount d :
  (0 ≤ keepCount)%Z → uniqueIds d →
  selectByPlugin pluginId (deleteOldHeadlinesByCount pluginId keepCount d).2
  ≡ₚ take (Z.to_nat keepCount) (orderByPubDateDesc (selectByPlugin pluginId d)).
Proof.
  intros Hn Hnd. unfold deleteOldHeadlinesByCount, limit.
  destruct (Z.ltb_spec keepCount 0) as [|_]; [lia|].
  set (keepRows := take _ _).
  assert (Hsub : ∀ r, r ∈ keepRows → r ∈ headlines d ∧ row_plugin_id r = pluginId).
  { intros r Hr. apply elem_of_take in Hr as (i & Hi & _).
    assert (Hr : r ∈ orderByPubDateDesc (selectByPlugin pluginId d)).
    { apply list_elem_of_lookup. eauto. }
    rewrite orderByPubDateDesc_perm in Hr.
    by apply list_elem_of_filter in Hr as [? ?]. }
  assert (Hkeep : NoDup keepRows).
  { apply (sublist_NoDup _ (orderByPubDateDesc (selectByPlugin pluginId d))).
    - rewrite orderByPubDateDesc_perm. apply NoDup_filter. by apply uniqueIds_NoDup.
    - apply sublist_take. }
  destruct (map row_id keepRows) as [|i ids] eqn:Eids; cbn; unfold selectByPlugin; cbn.
  - apply fmap_nil_inv in Eids. rewrite Eids.
    rewrite list_filter_filter.
    rewrite filter_none; [done|]. tauto.
  - rewrite <- Eids. rewrite list_filter_filter.
    apply NoDup_Permutation; [|done|].
    { apply NoDup_filter. by apply uniqueIds_NoDup. }
    intros r. rewrite list_elem_of_filter. split.
    + intros [[Hp Hk] Hr].
      assert (Hin : row_id r ∈ map row_id keepRows).
      { destruct (decide (row_id r ∈ map row_id keepRows)); [done|]. exfalso. apply Hk. done. }
      apply list_elem_of_fmap in Hin as (r' & Hid & Hr').
      destruct (Hsub _ Hr') as [Hr'd _].
      by rewrite (row_id_inj _ _ _ Hnd Hr Hr'd Hid).
    + intros Hr. destruct (Hsub _ Hr) as [Hrd Hp]. split_and!; [done| |done].
      intros [_ Hout]. apply Hout. by apply list_elem_of_fmap_2.
Qed.

Lemma filter_filter_sublist {A : Type} (P Q : A → Prop)
    `{∀ x, Decision (P x), ∀ x, Decision (Q x)} (l : list A) :
  filter Q (filter P l) `sublist_of` filter Q l.
Proof.
  induction l as [|x l IH]; [done|]. rewrite !filter_cons.
  destruct (decide (P x)); [rewrite filter_cons|]; destruct (decide (Q x)); try done;
    by constructor.
Qed.

(** The count sweep deletes rows and moves none. *)
Lemma deleteOldHeadlinesByCount_sublist pluginId keepCount d :
  selectByPlugin pluginId (deleteOldHeadlinesByCount pluginId keepCount d).2
  `sublist_of` selectByPlugin pluginId d.
Proof.
  unfold deleteOldHeadlinesByCount, selectByPlugin. cbn.
  destruct (map row_id _); cbn; apply filter_filter_sublist.
Qed.

(** After the duration sweep no row of the plugin has a text below the
    text of the cutoff. *)
Lemma deleteOldHeadlinesByDuration_recent pluginId cutoffDate d r :
  r ∈ filter (λ r, row_plugin_id r = pluginId)
        (filter (λ r, ¬ (row_plugin_id r = pluginId
                         ∧ JsDate.textLt (row_pub_date r) cutoffDate)) (headlines d)) →
  ¬ JsDate.textLt (row_pub_date r) cutoffDate.
Proof.
  rewrite list_filter_filter, list_elem_of_filter. intros [[Hp Hk] _] Hlt. by apply Hk.
Qed.

Lemma updatePluginRun_headlines pluginId error now d :
  headlines (Database.updatePluginRun pluginId error now d) = headlines d.
Proof. unfold Database.updatePluginRun. by destruct (_ !! _). Qed.

End StoreFacts.

(** ** The fetch pipeline *)

Lemma forEach_cons {A} (f : A → M unit) x l s :
  forEach f (x :: l) s =
  match f x s with
  | (Returned _, s1) => forEach f l s1
  | (Threw e, s1) => (Threw e, s1)
  end.
Proof. reflexivity. Qed.

Lemma insertHeadline_run h s :
  PluginManager.insertHeadline h s =
  match Database.insertHeadline h (store s) with
  | inl msg => (Threw (ErrorObj msg), s)
  | inr d => (Returned tt, with_store d s)
  end.
Proof.
  unfold PluginManager.insertHeadline. run_monad.
  by destruct (Database.insertHeadline h (store s)).
Qed.

Lemma forEach_insertHeadline_returned hs s u s' :
  forEach PluginManager.insertHeadline hs s = (Returned u, s') →
  Database.insertAll hs (store s) = inr (store s') ∧ s' = with_store (store s') s.
Proof.
  revert s. induction hs as [|h hs IH]; intros s Hrun.
  - injection Hrun as <- <-. cbn. split; [done|]. symmetry. apply with_store_same.
  - rewrite forEach_cons, insertHeadline_run in Hrun. cbn.
    destruct (Database.insertHeadline h (store s)) as [msg|d1] eqn:E; [done|].
    apply IH in Hrun as [Hall Hs']. cbn in Hall. split; [done|].
    rewrite Hs'. by destruct s.
Qed.

(** The sweep of [enforceRetentionPolicy] is [applyRetention]: the store
    it leaves, with at most one line on the console, or the error of the
    duration sweep. *)
Lemma enforceRetentionPolicy_run pid name policy s :
  match Database.applyRetention pid policy (zone s) (now s) (store s) with
  | inr d =>
      ∃ out, PluginManager.enforceRetentionPolicy pid name policy s
             = (Returned tt, with_console (console s ++ out) (with_store d s))
  | inl msg =>
      PluginManager.enforceRetentionPolicy pid name policy s = (Threw (ErrorObj msg), s)
  end.
Proof.
  unfold PluginManager.enforceRetentionPolicy, Database.applyRetention. run_monad.
  assert (Hsame : ∀ d, with_store d s = with_console (console s ++ []) (with_store d s)).
  { intros d. rewrite app_nil_r. by destruct s. }
  destruct policy as [value|hours|]; cbn.
  - destruct (Database.deleteOldHeadlinesByCount pid value (store s)) as [deleted d] eqn:E.
    cbn. destruct (_ && _); cbn; [by eexists|].
    exists []. by rewrite <- Hsame.
  - destruct (Database.deleteOldHeadlinesByDuration pid hours (zone s) (now s) (store s))
      as [msg|[deleted d]] eqn:E; [done|].
    cbn. destruct (_ && _); cbn; [by eexists|].
    exists []. by rewrite <- Hsame.
  - exists []. rewrite <- Hsame. by rewrite with_store_same.
Qed.


Lemma assoc_map_entries {A B} (f : string → A → B) k (l : list (string * A)) :
  assoc k (map (λ e, (e.1, f e.1 e.2)) l) = f k <$> assoc k l.
Proof.
  induction l as [|[k' v] l IH]; [done|]. cbn.
  destruct (String.eqb_spec k k') as [->|]; [done|apply IH].
Qed.

Lemma fetchBegin_run pid s :
  PluginManager.fetchBegin pid s =
  match assoc pid (plugins s) with
  | None => (Threw (PluginManager.notFound pid), s)
  | Some plugin =>
      match assoc pid (cfg_plugins (config s)) with
      | Some c =>
          if y_enabled c
          then (Returned (plugin, PluginManager.yamlPluginToDbPlugin pid c), s)
          else (Threw (PluginManager.notEnabled pid), s)
      | None => (Threw (PluginManager.notEnabled pid), s)
      end
  end.
Proof.
  unfold PluginManager.fetchBegin, PluginManager.getPluginConfig,
    PluginManager.getPluginConfigs.
  run_monad. cbn.
  destruct (assoc pid (plugins s)) as [plugin|]; [|done].
  rewrite (assoc_map_entries PluginManager.yamlPluginToDbPlugin).
  destruct (assoc pid (cfg_plugins (config s))) as [c|]; [|done]. cbn.
  by destruct (y_enabled c).
Qed.

Lemma fetchSettle_returned pid plugin settled s hs s' :
  PluginManager.fetchSettle pid plugin settled s = (Returned hs, s') →
  settled = inr hs
  ∧ ∃ d1 d2, Database.insertAll hs (store s) = inr d1
    ∧ Database.applyRetention pid (p_getRetentionPolicy plugin) (zone s) (now s) d1 = inr d2
    ∧ store s' = Database.updatePluginRun pid None (now s) d2
    ∧ now s' = now s ∧ zone s' = zone s.
Proof.
  unfold PluginManager.fetchSettle, PluginManager.updatePluginRun.
  destruct settled as [e|hs0]; run_monad; [done|].
  destruct (forEach PluginManager.insertHeadline hs0 s) as [[[]|e] s1] eqn:Hins; [|done].
  apply forEach_insertHeadline_returned in Hins as [Hall Hs1].
  pose proof (enforceRetentionPolicy_run pid (p_name plugin) (p_getRetentionPolicy plugin) s1)
    as Hsweep.
  assert (Hclock : zone s1 = zone s ∧ now s1 = now s) by (by rewrite Hs1).
  destruct Hclock as [Hzone Hnow]. rewrite Hzone, Hnow in Hsweep.
  destruct (Database.applyRetention pid _ (zone s) (now s) (store s1)) as [msg|d2] eqn:Hd2.
  - rewrite Hsweep. done.
  - destruct Hsweep as [out ->].
    cbn. intros [= <- <-]. split; [done|]. exists (store s1), d2. cbn.
    rewrite Hs1. cbn. done.
Qed.

Lemma fetchFromPlugin_returned pid s hs s' :
  PluginManager.fetchFromPlugin pid s = (Returned hs, s') →
  ∃ plugin c d1,
    assoc pid (plugins s) = Some plugin
    ∧ assoc pid (cfg_plugins (config s)) = Some c
    ∧ y_enabled c = true
    ∧ p_fetchHeadlines plugin
        (PluginManager.fetchContext pid (PluginManager.yamlPluginToDbPlugin pid c) s) = inr hs
    ∧ Database.insertAll hs (store s) = inr d1
    ∧ (∃ d2, Database.applyRetention pid (p_getRetentionPolicy plugin) (zone s) (now s) d1
             = inr d2
             ∧ store s' = Database.updatePluginRun pid None (now s) d2)
    ∧ now s' = now s ∧ zone s' = zone s.
Proof.
  unfold PluginManager.fetchFromPlugin.
  change (PluginManager.fetchBegin pid ≫= ?k) with (bind (PluginManager.fetchBegin pid) k).
  unfold bind. rewrite fetchBegin_run.
  destruct (assoc pid (plugins s)) as [plugin|] eqn:Hp; [|done].
  destruct (assoc pid (cfg_plugins (config s))) as [c|] eqn:Hc; [|done].
  destruct (y_enabled c) eqn:He; [|done].
  run_monad. cbn. intros Hrun.
  apply fetchSettle_returned in Hrun as (Hset & d1 & d2 & Hall & Hsweep & Hstore & Hnow & Hz).
  exists plugin, c, d1. split_and!; try done. by exists d2.
Qed.

Lemma selectByPlugin_updatePluginRun pid pid' error now d :
  Database.selectByPlugin pid (Database.updatePluginRun pid' error now d)
  = Database.selectByPlugin pid d.
Proof. unfold Database.selectByPlugin. by rewrite updatePluginRun_headlines. Qed.

Lemma selectByPlugin_insertAll pid hs d d' :
  Database.insertAll hs d = inr d' →
  Database.selectByPlugin pid d'
  = Database.selectByPlugin pid d
    ++ filter (λ r, row_plugin_id r = pid) (map Database.toRow hs).
Proof.
  intros Hall. unfold Database.selectByPlugin.
  by rewrite (insertAll_headlines _ _ _ Hall), filter_app.
Qed.

(** ** Retention after a fetch *)

(** A successful fetch under [count(n)], [n] a count, over a store that
    respects its primary key.  The plugin then owns [n] headlines, or all
    its candidates (those stored before plus those just fetched) when they
    are fewer; the sweep deleted rows and moved none; and no deleted row
    stands above a kept one in the order of the texts, which for two dates
    of the years 0000 to 9999 is the order of the instants. *)
Lemma count_sweep_after_fetch (pid : string) (n : Z) (plugin : TopixPlugin)
    (s s' : System) (hs : list Headline) :
  Database.uniqueIds (store s) →
  assoc pid (plugins s) = Some plugin →
  p_getRetentionPolicy plugin = RetainCount n →
  0 ≤ n →
  PluginManager.fetchFromPlugin pid s = (Returned hs, s') →
  let candidates :=
    Database.selectByPlugin pid (store s)
    ++ filter (λ r, row_plugin_id r = pid) (map Database.toRow hs) in
  let retained := Database.selectByPlugin pid (store s') in
  length retained = (Z.to_nat n `min` length candidates)%nat
  ∧ retained `sublist_of` candidates
  ∧ ∀ kept dropped,
      kept ∈ retained → dropped ∈ candidates → dropped ∉ retained →
      JsDate.textLe (row_pub_date dropped) (row_pub_date kept)
      ∧ (JsDate.fourDigitYear (row_pub_date kept) →
         JsDate.fourDigitYear (row_pub_date dropped) →
         row_pub_date dropped ≤ row_pub_date kept).
Proof.
  intros Hnd Hp Hpol Hn Hrun candidates retained.
  apply fetchFromPlugin_returned in Hrun
    as (plugin' & c & d1 & Hp' & _ & _ & _ & Hall & (d2 & Hsweep & Hstore) & _).
  assert (plugin' = plugin) as -> by congruence.
  rewrite Hpol in Hsweep. cbn in Hsweep. injection Hsweep as <-.
  assert (Hretained : retained
            = Database.selectByPlugin pid (Database.deleteOldHeadlinesByCount pid n d1).2).
  { subst retained. by rewrite Hstore, selectByPlugin_updatePluginRun. }
  assert (Hcandidates : candidates = Database.selectByPlugin pid d1).
  { subst candidates. by rewrite (selectByPlugin_insertAll _ _ _ _ Hall). }
  assert (Hperm : retained
                  ≡ₚ take (Z.to_nat n) (Database.orderByPubDateDesc candidates)).
  { rewrite Hretained, Hcandidates.
    apply deleteOldHeadlinesByCount_selects; [done|].
    by apply (insertAll_uniqueIds hs (store s)). }
  split_and!.
  - rewrite Hperm, length_take. by rewrite orderByPubDateDesc_perm.
  - rewrite Hretained, Hcandidates. apply deleteOldHeadlinesByCount_sublist.
  - intros kept dropped Hk Hd Hout.
    assert (Hle : JsDate.textLe (row_pub_date dropped) (row_pub_date kept)).
    { rewrite Hperm in Hk, Hout.
      apply (limit_keeps_newest (Z.to_nat n) candidates); [done|].
      rewrite <- (orderByPubDateDesc_perm candidates) in Hd.
      rewrite <- (take_drop (Z.to_nat n) (Database.orderByPubDateDesc candidates)) in Hd.
      apply elem_of_app in Hd as [Hd|Hd]; [by destruct Hout|done]. }
    split; [done|]. intros Hyk Hyd. by apply textLe_fourDigitYear.
Qed.

(** The lemma at the sample system: three of the five candidates stay. *)
Example count_sweep_after_fetch_sample :
  let s' := (PluginManager.fetchFromPlugin "alpha" Sample.sysCount3).2 in
  let candidates :=
    Database.selectByPlugin "alpha" (store Sample.sysCount3)
    ++ filter (λ r, row_plugin_id r = "alpha") (map Database.toRow Sample.fetched) in
  let retained := Database.selectByPlugin "alpha" (store s') in
  length retained = 3%nat
  ∧ map row_id retained = ["a1"; "a2"; "a3"]
  ∧ ∀ kept dropped,
      kept ∈ retained → dropped ∈ candidates → dropped ∉ retained →
      row_pub_date dropped ≤ row_pub_date kept.
Proof.
  assert (Hnd : Database.uniqueIds (store Sample.sysCount3)).
  { unfold Database.uniqueIds. apply (bool_decide_unpack _). vm_compute. exact I. }
  assert (Hrun : PluginManager.fetchFromPlugin "alpha" Sample.sysCount3
                 = (Returned Sample.fetched,
                    (PluginManager.fetchFromPlugin "alpha" Sample.sysCount3).2)).
  { vm_compute. reflexivity. }
  destruct (count_sweep_after_fetch "alpha" 3 Sample.alphaCount3 Sample.sysCount3 _
              Sample.fetched Hnd eq_refl eq_refl ltac:(lia) Hrun) as (Hlen & _ & Hnewest).
  split_and!; [vm_compute; reflexivity..|].
  intros kept dropped Hk Hd Hout.
  apply (Hnewest kept dropped Hk Hd Hout).
  - assert (Hrows : row_pub_date <$>
                      (Database.selectByPlugin "alpha"
                         (store (PluginManager.fetchFromPlugin "alpha" Sample.sysCount3).2))
                    = [10; 20; 30]) by (vm_compute; reflexivity).
    apply (list_elem_of_fmap_2 row_pub_date) in Hk. rewrite Hrows in Hk.
    unfold JsDate.fourDigitYear.
    repeat (apply elem_of_cons in Hk as [->|Hk]; [lia|]). apply elem_of_nil in Hk. destruct Hk.
  - assert (Hrows : row_pub_date <$>
                      (Database.selectByPlugin "alpha" (store Sample.sysCount3)
                       ++ filter (λ r, row_plugin_id r = "alpha")
                            (map Database.toRow Sample.fetched))
                    = [10; 20; 30; 5]) by (vm_compute; reflexivity).
    apply (list_elem_of_fmap_2 row_pub_date) in Hd. rewrite Hrows in Hd.
    unfold JsDate.fourDigitYear.
    repeat (apply elem_of_cons in Hd as [->|Hd]; [lia|]). apply elem_of_nil in Hd. destruct Hd.
Qed.

(** The example scenario of the specification: three fetches of two
    headlines each under [count(3)] leave the three most recent of the six. *)
Example three_fetches_leave_three :
  let thrice := PluginManager.fetchFromPlugin "alpha";;
                PluginManager.fetchFromPlugin "alpha";;
                PluginManager.fetchFromPlugin "alpha" in
  map row_id (headlines (store (thrice Sample.sysScenario).2)) = ["h4"; "h5"; "h6"].
Proof. vm_compute. reflexivity. Qed.

(** Headlines stamped with one instant: [count(1)] keeps the first of the
    table. *)
Example count_sweep_same_instant :
  map row_id (headlines (store (PluginManager.fetchFromPlugin "alpha"
                                  Sample.sysSameInstant).2)) = ["x1"].
Proof. vm_compute. reflexivity. Qed.

(** C2.  The sweep orders the texts of the dates, not the dates.  Under
    [count(2)], over two headlines of 2026, a fetch that brings a headline
    of the year 10000 succeeds and leaves the two of 2026: the text of the
    new date begins with a sign, which is below every digit, and the
    newest of the three headlines is the one deleted.  In general the
    plugin is left with [n] headlines or all its candidates, and a deleted
    row is never above a kept one in the order of the texts; the kept rows
    are the most recent as long as the dates are of the years 0000 to
    9999. *)
Theorem count_retention_orders_by_text :
  let out := PluginManager.fetchFromPlugin "alpha" Sample.sysFarFuture in
  out.1 = Returned [Sample.headline "far" "alpha" Sample.year10000]
  ∧ map (λ r, (row_id r, JsDate.toISOString (row_pub_date r)))
      (Database.selectByPlugin "alpha" (store out.2))
    = [("jan", "2026-01-01T00:00:00.000Z"); ("jun", "2026-06-01T00:00:00.000Z")]
  ∧ JsDate.toISOString Sample.year10000 = "+010000-01-01T00:00:00.000Z"
  ∧ Forall (λ r, row_pub_date r < Sample.year10000)
      (Database.selectByPlugin "alpha" (store out.2))
  ∧ ∀ (pid : string) (n : Z) (plugin : TopixPlugin) (s s' : System) (hs : list Headline),
      Database.uniqueIds (store s) →
      assoc pid (plugins s) = Some plugin →
      p_getRetentionPolicy plugin = RetainCount n →
      0 ≤ n →
      PluginManager.fetchFromPlugin pid s = (Returned hs, s') →
      let candidates :=
        Database.selectByPlugin pid (store s)
        ++ filter (λ r, row_plugin_id r = pid) (map Database.toRow hs) in
      let retained := Database.selectByPlugin pid (store s') in
      Z.of_nat (length retained) ≤ n
      ∧ length retained = (Z.to_nat n `min` length candidates)%nat
      ∧ retained `sublist_of` candidates
      ∧ ∀ kept dropped,
          kept ∈ retained → dropped ∈ candidates → dropped ∉ retained →
          JsDate.textLe (row_pub_date dropped) (row_pub_date kept)
          ∧ (JsDate.fourDigitYear (row_pub_date kept) →
             JsDate.fourDigitYear (row_pub_date dropped) →
             row_pub_date dropped ≤ row_pub_date kept).
Proof.
  intros out. split_and!.
  - vm_compute. reflexivity.
  - vm_compute. reflexivity.
  - vm_compute. reflexivity.
  - assert (Hrows : row_pub_date <$> Database.selectByPlugin "alpha" (store out.2)
                    = [Sample.jan2026; Sample.jun2026]) by (vm_compute; reflexivity).
    apply (Forall_fmap row_pub_date (λ t, t < Sample.year10000)).
    rewrite Hrows. repeat constructor.
  - intros pid n plugin s s' hs Hnd Hp Hpol Hn Hrun candidates retained.
    destruct (count_sweep_after_fetch pid n plugin s s' hs Hnd Hp Hpol Hn Hrun)
      as (Hlen & Hsub & Hnewest).
    split_and!; [|done|done|done].
    fold candidates retained in Hlen. lia.
Qed.

(** The same before the year 0000, where the texts of two dates compare
    against the dates: under [count(1)] the event of 753 BC stays and the
    event of 44 BC, seven centuries later, is deleted. *)
Example count_sweep_before_year_zero :
  let out := PluginManager.fetchFromPlugin "alpha" Sample.sysAntiquity in
  out.1 = Returned [Sample.headline "ides" "alpha" Sample.idesOfMarch]
  ∧ map (λ r, (row_id r, JsDate.toISOString (row_pub_date r)))
      (Database.selectByPlugin "alpha" (store out.2))
    = [("rome", "-000752-04-21T00:00:00.000Z")]
  ∧ JsDate.toISOString Sample.idesOfMarch = "-000043-03-15T00:00:00.000Z"
  ∧ Sample.foundingOfRome < Sample.idesOfMarch.
Proof. split_and!; vm_compute; reflexivity. Qed.

(** A successful fetch under [duration(h)]: the cutoff is the clock with
    the hour of the wall clock moved back by [h], and no headline that the
    plugin owns afterwards has a text below the text of the cutoff.  When
    the cutoff is of the years 0000 to 9999, none was published before it;
    and when the zone has the same offset at the cutoff as now, the cutoff
    is [h] hours before the clock. *)
Lemma duration_sweep_after_fetch (pid : string) (h : Z) (plugin : TopixPlugin)
    (s s' : System) (hs : list Headline) :
  assoc pid (plugins s) = Some plugin →
  p_getRetentionPolicy plugin = RetainDuration h →
  PluginManager.fetchFromPlugin pid s = (Returned hs, s') →
  ∃ cutoffDate,
    JsDate.setHoursBack (zone s) h (now s) = Some cutoffDate
    ∧ (∀ r, r ∈ Database.selectByPlugin pid (store s') →
            ¬ JsDate.textLt (row_pub_date r) cutoffDate
            ∧ (JsDate.fourDigitYear cutoffDate → cutoffDate ≤ row_pub_date r))
    ∧ (JsDate.offsetAtLocal (zone s) (JsDate.localTime (zone s) (now s) - h * JsDate.msPerHour)
       = JsDate.offsetAtUtc (zone s) (now s) →
       cutoffDate = now s' - h * JsDate.msPerHour).
Proof.
  intros Hp Hpol Hrun.
  apply fetchFromPlugin_returned in Hrun
    as (plugin' & c & d1 & Hp' & _ & _ & _ & _ & (d2 & Hsweep & Hstore) & Hnow & _).
  assert (plugin' = plugin) as -> by congruence.
  rewrite Hpol in Hsweep. cbn in Hsweep.
  destruct (Database.deleteOldHeadlinesByDuration pid h (zone s) (now s) d1)
    as [msg|swept] eqn:Hswept; [done|]. injection Hsweep as <-.
  apply deleteOldHeadlinesByDuration_inr in Hswept as (cutoffDate & Hcut & Hrows).
  exists cutoffDate. split_and!; [done| |].
  - intros r Hr.
    rewrite Hstore, selectByPlugin_updatePluginRun, Hrows in Hr.
    apply deleteOldHeadlinesByDuration_recent in Hr. split; [done|].
    intros Hyear.
    destruct (decide (JsDate.fourDigitYear (row_pub_date r))) as [Hr4|Hr4].
    + apply Z.le_ngt. intros Hlt. apply Hr. by apply textLt_fourDigitYear.
    + destruct Hr. by apply textLt_sign.
  - intros Hoffset. revert Hcut. unfold JsDate.setHoursBack.
    destruct (JsDate.validTime (now s)); [|done].
    destruct (JsDate.validTime _); [|done]. intros [= <-].
    unfold JsDate.utc. rewrite Hoffset. unfold JsDate.localTime. lia.
Qed.

(** The lemma in a zone without daylight saving time: the headlines
    published more than a day before the clock are gone. *)
Example duration_sweep_after_fetch_sample :
  Forall (λ r, now (PluginManager.fetchFromPlugin "alpha" Sample.sysDuration).2
               - 24 * JsDate.msPerHour ≤ row_pub_date r)
    (Database.selectByPlugin "alpha"
       (store (PluginManager.fetchFromPlugin "alpha" Sample.sysDuration).2)).
Proof.
  assert (Hrun : PluginManager.fetchFromPlugin "alpha" Sample.sysDuration
                 = (Returned Sample.fetchedToday,
                    (PluginManager.fetchFromPlugin "alpha" Sample.sysDuration).2))
    by (vm_compute; reflexivity).
  destruct (duration_sweep_after_fetch "alpha" 24 Sample.alphaDuration Sample.sysDuration _
              Sample.fetchedToday eq_refl eq_refl Hrun) as (cutoffDate & Hcut & Hrows & Hfixed).
  apply Forall_forall. intros r Hr.
  rewrite <- Hfixed by reflexivity.
  apply Hrows; [exact Hr|].
  assert (Hvalue : JsDate.setHoursBack (zone Sample.sysDuration) 24 (now Sample.sysDuration)
                   = Some 43200000) by (vm_compute; reflexivity).
  rewrite Hvalue in Hcut. injection Hcut as <-. unfold JsDate.fourDigitYear. lia.
Qed.

(** C9.  The cutoff of the duration sweep follows the wall clock of the
    host.  At noon in New York on 2026-11-01, the day on which daylight
    saving time ended, a fetch under [duration(24)] succeeds with the
    cutoff 25 hours before the clock, and the headline published 24 hours
    and a half before the clock is still stored.  In general no headline
    left has a text below the text of the cutoff; none is older than [h]
    hours when the zone has the same offset at the cutoff as now and the
    cutoff is of the years 0000 to 9999. *)
Theorem duration_retention_follows_wall_clock :
  let s := Sample.sysFallBack in
  let out := PluginManager.fetchFromPlugin "alpha" s in
  JsDate.toISOString (now s) = "2026-11-01T17:00:00.000Z"
  ∧ out.1 = Returned []
  ∧ now out.2 = now s
  ∧ JsDate.setHoursBack (zone s) 24 (now s) = Some (now s - 25 * JsDate.msPerHour)
  ∧ map (λ r, (row_id r, JsDate.toISOString (row_pub_date r)))
      (Database.selectByPlugin "alpha" (store out.2))
    = [("h24", "2026-10-31T16:30:00.000Z"); ("h23", "2026-10-31T18:00:00.000Z")]
  ∧ Exists (λ r, row_pub_date r < now out.2 - 24 * JsDate.msPerHour)
      (Database.selectByPlugin "alpha" (store out.2))
  ∧ ∀ (pid : string) (h : Z) (plugin : TopixPlugin) (s s' : System) (hs : list Headline),
      assoc pid (plugins s) = Some plugin →
      p_getRetentionPolicy plugin = RetainDuration h →
      PluginManager.fetchFromPlugin pid s = (Returned hs, s') →
      ∃ cutoffDate,
        JsDate.setHoursBack (zone s) h (now s) = Some cutoffDate
        ∧ (∀ r, r ∈ Database.selectByPlugin pid (store s') →
                ¬ JsDate.textLt (row_pub_date r) cutoffDate
                ∧ (JsDate.fourDigitYear cutoffDate → cutoffDate ≤ row_pub_date r))
        ∧ (JsDate.offsetAtLocal (zone s)
             (JsDate.localTime (zone s) (now s) - h * JsDate.msPerHour)
           = JsDate.offsetAtUtc (zone s) (now s) →
           cutoffDate = now s' - h * JsDate.msPerHour).
Proof.
  intros s out. split_and!.
  - vm_compute. reflexivity.
  - vm_compute. reflexivity.
  - vm_compute. reflexivity.
  - vm_compute. reflexivity.
  - vm_compute. reflexivity.
  - assert (Hrows : row_pub_date <$> Database.selectByPlugin "alpha" (store out.2)
                    = [Sample.noonAfterFallBack - 24 * JsDate.msPerHour - 1800000;
                       Sample.noonAfterFallBack - 23 * JsDate.msPerHour])
      by (vm_compute; reflexivity).
    apply (Exists_fmap row_pub_date (λ t, t < now out.2 - 24 * JsDate.msPerHour)).
    rewrite Hrows. apply Exists_cons_hd. reflexivity.
  - intros pid h plugin s0 s' hs Hp Hpol Hrun.
    exact (duration_sweep_after_fetch pid h plugin s0 s' hs Hp Hpol Hrun).
Qed.

(** ** What a fetch leaves alone *)

Section Frame.

Lemma preserves_ret {A} (a : A) : preserves (mret a).
Proof. by intros s. Qed.

Lemma preserves_throw {A} e : preserves (throw (A:=A) e).
Proof. by intros s. Qed.

Lemma preserves_get : preserves get.
Proof. by intros s. Qed.

Lemma preserves_bind {A B} (m : M A) (k : A → M B) :
  preserves m → (∀ a, preserves (k a)) → preserves (m ≫= k).
Proof.
  intros Hm Hk s. specialize (Hm s). unfold mbind, M_bind, bind.
  destruct (m s) as [[a|e] s1]; cbn in *; [|done].
  by rewrite (Hk a s1).
Qed.

Lemma preserves_tryCatch {A} (body : M A) (handler : Thrown → M A) :
  preserves body → (∀ e, preserves (handler e)) → preserves (tryCatch body handler).
Proof.
  intros Hm Hk s. specialize (Hm s). unfold tryCatch.
  destruct (body s) as [[a|e] s1]; cbn in *; [done|].
  by rewrite (Hk e s1).
Qed.

Lemma preserves_emit lv msg : preserves (emit lv msg).
Proof. by intros s. Qed.

Lemma preserves_store (f : System → TopixDatabase) :
  preserves (modify (λ s, with_store (f s) s)).
Proof. by intros s. Qed.

Lemma preserves_when b m : preserves m → preserves (when b m).
Proof. intros Hm. destruct b; [done|apply preserves_ret]. Qed.

Lemma preserves_forEach {A} (f : A → M unit) l :
  (∀ x, preserves (f x)) → preserves (forEach f l).
Proof.
  intros Hf. induction l as [|x l IH]; [apply preserves_ret|].
  cbn. by apply preserves_bind.
Qed.

End Frame.

Create HintDb frame.

#[export] Hint Resolve preserves_get preserves_emit : frame.
#[export] Hint Extern 1 (preserves (mret _)) => apply preserves_ret : frame.
#[export] Hint Extern 1 (preserves (ret _)) => apply preserves_ret : frame.
#[export] Hint Extern 1 (preserves skip) => apply preserves_ret : frame.
#[export] Hint Extern 1 (preserves (throw _)) => apply preserves_throw : frame.
#[export] Hint Extern 1 (preserves (consoleLog _)) => apply preserves_emit : frame.
#[export] Hint Extern 1 (preserves (consoleWarn _)) => apply preserves_emit : frame.
#[export] Hint Extern 1 (preserves (consoleError _)) => apply preserves_emit : frame.
#[export] Hint Extern 2 (preserves (modify _)) => (intros ?; reflexivity) : frame.
#[export] Hint Extern 2 (preserves (_ ≫= _)) => (apply preserves_bind; [|intros ?]) : frame.
#[export] Hint Extern 2 (preserves (tryCatch _ _)) =>
  (apply preserves_tryCatch; [|intros ?]) : frame.
#[export] Hint Extern 2 (preserves (when _ _)) => apply preserves_when : frame.
#[export] Hint Extern 2 (preserves (forEach _ _)) =>
  (apply preserves_forEach; intros ?) : frame.
#[export] Hint Extern 9 (preserves (match ?x with _ => _ end)) => destruct x : frame.

Ltac frame := auto 200 with frame nocore.

Lemma preserves_insertHeadline h : preserves (PluginManager.insertHeadline h).
Proof. unfold PluginManager.insertHeadline. frame. Qed.

Lemma preserves_enforceRetentionPolicy pid name policy :
  preserves (PluginManager.enforceRetentionPolicy pid name policy).
Proof. unfold PluginManager.enforceRetentionPolicy. frame. Qed.

Lemma preserves_updatePluginRun pid error : preserves (PluginManager.updatePluginRun pid error).
Proof. unfold PluginManager.updatePluginRun. frame. Qed.

#[export] Hint Resolve preserves_insertHeadline preserves_enforceRetentionPolicy
  preserves_updatePluginRun : frame.

Lemma preserves_fetchSettle pid plugin settled :
  preserves (PluginManager.fetchSettle pid plugin settled).
Proof. unfold PluginManager.fetchSettle. frame. Qed.

Lemma preserves_getPluginConfig pid : preserves (PluginManager.getPluginConfig pid).
Proof. unfold PluginManager.getPluginConfig, PluginManager.getPluginConfigs. frame. Qed.

#[export] Hint Resolve preserves_getPluginConfig : frame.

Lemma preserves_fetchBegin pid : preserves (PluginManager.fetchBegin pid).
Proof. unfold PluginManager.fetchBegin. frame. Qed.

#[export] Hint Resolve preserves_fetchBegin preserves_fetchSettle : frame.

Lemma preserves_fetchFromPlugin pid : preserves (PluginManager.fetchFromPlugin pid).
Proof. unfold PluginManager.fetchFromPlugin. frame. Qed.

(** ** Fetching from all plugins *)

Lemma getEnabledPlugins_run s :
  PluginManager.getEnabledPlugins s = (Returned (enabledPluginsOf s), s).
Proof. reflexivity. Qed.

Lemma assoc_mapSet_eq {A} k (v : A) m : assoc k (mapSet k v m) = Some v.
Proof.
  induction m as [|[k' v'] m IH]; cbn.
  - by rewrite String.eqb_refl.
  - destruct (String.eqb_spec k k') as [->|Hne]; cbn.
    + by rewrite String.eqb_refl.
    + by destruct (String.eqb_spec k k').
Qed.

Lemma assoc_mapSet_ne {A} k k' (v : A) m : k ≠ k' → assoc k' (mapSet k v m) = assoc k' m.
Proof.
  intros Hne. induction m as [|[k0 v0] m IH]; cbn.
  - by destruct (String.eqb_spec k' k); [subst|].
  - destruct (String.eqb_spec k k0) as [->|Hne0]; cbn.
    + by destruct (String.eqb_spec k' k0); [subst|].
    + by destruct (String.eqb_spec k' k0).
Qed.

Lemma keys_mapSet_fresh {A} k (v : A) m :
  k ∉ map fst m → map fst (mapSet k v m) = map fst m ++ [k].
Proof.
  induction m as [|[k0 v0] m IH]; cbn; [done|]. intros Hk.
  apply not_elem_of_cons in Hk as [Hne Hk].
  destruct (String.eqb_spec k k0); [done|]. cbn. by rewrite IH.
Qed.

Lemma mapSet_fresh {A} k (v : A) m :
  k ∉ map fst m → mapSet k v m = m ++ [(k, v)].
Proof.
  induction m as [|[k0 v0] m IH]; cbn; [done|]. intros Hk.
  apply not_elem_of_cons in Hk as [Hne Hk].
  destruct (String.eqb_spec k k0); [done|]. by rewrite IH.
Qed.

(** One turn of the loop of [fetchFromAllPlugins]. *)
Lemma fetchEach_cons p ps results s :
  PluginManager.fetchEach (p :: ps) results s
  = PluginManager.fetchEach ps
      (mapSet (p_id p) (recorded (PluginManager.fetchFromPlugin (p_id p) s).1) results)
      (afterFetch p s).
Proof.
  cbn. unfold mbind at 1, M_bind at 1, bind at 1, tryCatch.
  unfold mbind at 1, M_bind at 1, bind at 1. unfold afterFetch.
  by destruct (PluginManager.fetchFromPlugin (p_id p) s) as [[hs|e] s1].
Qed.

(** The loop never throws: it fetches from every plugin of the batch, one
    after the other, and records for each what its fetch returned, or no
    headline when it threw. *)
Lemma fetchEach_run batch : ∀ results s,
  NoDup (map p_id batch) →
  (∀ p, p ∈ batch → p_id p ∉ map fst results) →
  PluginManager.fetchEach batch results s
  = (Returned (results
               ++ map (λ v, (p_id v.1,
                             recorded (PluginManager.fetchFromPlugin (p_id v.1) v.2).1))
                    (visits batch s)),
     afterBatch batch s).
Proof.
  induction batch as [|p ps IH]; intros results s Hnd Hfresh.
  - cbn. by rewrite app_nil_r.
  - cbn in Hnd. apply NoDup_cons in Hnd as [Hp Hnd].
    rewrite fetchEach_cons, mapSet_fresh by (apply Hfresh; left).
    rewrite IH; [|done|].
    + cbn. by rewrite <- app_assoc.
    + intros q Hq. rewrite map_app, not_elem_of_app. split; [apply Hfresh; by right|].
      cbn. intros Heq%list_elem_of_singleton. apply Hp. rewrite <- Heq.
      by apply list_elem_of_fmap_2.
Qed.

Lemma visits_plugins batch s : map fst (visits batch s) = batch.
Proof. revert s. induction batch as [|p ps IH]; intros s; [done|]. cbn. by rewrite IH. Qed.

Lemma assoc_unique {A} k (v : A) (m : list (string * A)) :
  NoDup (map fst m) → (k, v) ∈ m → assoc k m = Some v.
Proof.
  induction m as [|[k0 v0] m IH]; intros Hnd Hin; [by apply elem_of_nil in Hin|].
  cbn in Hnd. apply NoDup_cons in Hnd as [Hk0 Hnd]. cbn.
  apply elem_of_cons in Hin as [[= <- <-]|Hin].
  - by rewrite String.eqb_refl.
  - destruct (String.eqb_spec k k0) as [->|Hne]; [|by apply IH].
    destruct Hk0. by apply (list_elem_of_fmap_2 fst _ (k0, v)).
Qed.

Lemma registryOk_enabled_NoDup s :
  registryOk (plugins s) → NoDup (map p_id (enabledPluginsOf s)).
Proof.
  intros [Hnd Hkey]. unfold enabledPluginsOf.
  assert (Hids : map p_id (map snd (plugins s)) = map fst (plugins s)).
  { rewrite map_map. apply map_ext_in. intros e He. apply Hkey. by apply list_elem_of_In. }
  rewrite <- Hids in Hnd.
  apply NoDup_fmap_2_strong.
  - intros x y Hx Hy Hxy.
    apply list_elem_of_filter in Hx as [_ Hx]. apply list_elem_of_filter in Hy as [_ Hy].
    revert Hnd Hx Hy Hxy. generalize (map snd (plugins s)). clear.
    induction l as [|r rows IH]; intros Hnd Ha Hb Hid.
    + by apply elem_of_nil in Ha.
    + cbn in Hnd. apply NoDup_cons in Hnd as [Hr Hnd].
      apply elem_of_cons in Ha as [->|Ha]; apply elem_of_cons in Hb as [->|Hb]; auto.
      * exfalso. apply Hr. rewrite Hid. by apply list_elem_of_fmap_2.
      * exfalso. apply Hr. rewrite <- Hid. by apply list_elem_of_fmap_2.
  - apply NoDup_filter. by apply (NoDup_fmap_1 p_id).
Qed.

(** C8, amended.  Over a registry keyed by the ids of its plugins,
    [fetchFromAllPlugins] never throws and runs [fetchFromPlugin] for every
    enabled plugin, one after the other, each on the state that the turns
    before it left, whether they failed or not.  A plugin whose fetch
    threw gets one line on the console and the empty list in the result;
    a plugin whose fetch returned gets what it returned.  The result has
    one entry per enabled plugin, in order, and the state at the end is the
    state after the last turn with the closing line on the console. *)
Theorem fetchFromAllPlugins_isolates_failures (s : System) :
  registryOk (plugins s) →
  let batch := enabledPluginsOf s in
  let started :=
    with_console (console s ++ [entry LogLevel ("Fetching from " +:+ pretty (length batch)
                                                 +:+ " enabled plugins...")]) s in
  let results :=
    map (λ v, (p_id v.1, recorded (PluginManager.fetchFromPlugin (p_id v.1) v.2).1))
      (visits batch started) in
  let ended := afterBatch batch started in
  PluginManager.fetchFromAllPlugins s
  = (Returned results,
     with_console
       (console ended
        ++ [entry LogLevel
              ("Fetched " +:+ pretty (foldl (λ sum r, (sum + length r.2)%nat) 0%nat results)
               +:+ " total headlines from " +:+ pretty (length batch) +:+ " plugins")]) ended)
  ∧ map fst (visits batch started) = batch
  ∧ map fst results = map p_id batch
  ∧ ∀ p sp, (p, sp) ∈ visits batch started →
      assoc (p_id p) results
      = Some (recorded (PluginManager.fetchFromPlugin (p_id p) sp).1).
Proof.
  intros Hok batch started results ended.
  pose proof (registryOk_enabled_NoDup s Hok) as Hnd. fold batch in Hnd.
  assert (Hkeys : map fst results = map p_id batch).
  { unfold results. rewrite map_map. cbn.
    rewrite <- (visits_plugins batch started) at 2. by rewrite map_map. }
  split_and!.
  - unfold PluginManager.fetchFromAllPlugins.
    unfold mbind at 1, M_bind at 1, bind at 1. rewrite getEnabledPlugins_run.
    fold batch. unfold mbind at 1, M_bind at 1, bind at 1.
    change (consoleLog ("Fetching from " +:+ pretty (length batch)
                        +:+ " enabled plugins...") s)
      with (Returned (), started).
    cbv beta iota. unfold mbind at 1, M_bind at 1, bind at 1.
    rewrite (fetchEach_run batch [] started Hnd)
      by (intros p _; apply not_elem_of_nil).
    rewrite app_nil_l. fold results ended. reflexivity.
  - apply visits_plugins.
  - exact Hkeys.
  - intros p sp Hvisit. apply assoc_unique; [by rewrite Hkeys|].
    unfold results.
    apply (list_elem_of_fmap_2
             (λ v, (p_id v.1, recorded (PluginManager.fetchFromPlugin (p_id v.1) v.2).1))
             _ _ Hvisit).
Qed.

Lemma fetchFromAllPlugins_isolates_failures_witness :
  let s := Sample.sysBatch in
  let batch := enabledPluginsOf s in
  let started :=
    with_console (console s ++ [entry LogLevel ("Fetching from " +:+ pretty (length batch)
                                                 +:+ " enabled plugins...")]) s in
  let results :=
    map (λ v, (p_id v.1, recorded (PluginManager.fetchFromPlugin (p_id v.1) v.2).1))
      (visits batch started) in
  let ended := afterBatch batch started in
  PluginManager.fetchFromAllPlugins s
  = (Returned results,
     with_console
       (console ended
        ++ [entry LogLevel
              ("Fetched " +:+ pretty (foldl (λ sum r, (sum + length r.2)%nat) 0%nat results)
               +:+ " total headlines from " +:+ pretty (length batch) +:+ " plugins")]) ended)
  ∧ map fst (visits batch started) = batch
  ∧ map fst results = map p_id batch
  ∧ ∀ p sp, (p, sp) ∈ visits batch started →
      assoc (p_id p) results
      = Some (recorded (PluginManager.fetchFromPlugin (p_id p) sp).1).
Proof.
  apply (fetchFromAllPlugins_isolates_failures Sample.sysBatch).
  split.
  - apply (bool_decide_unpack _). vm_compute. exact I.
  - intros e He. cbn in He.
    repeat (apply elem_of_cons in He as [->|He]; [reflexivity|]).
    by apply elem_of_nil in He.
Defined.

(** C8 as stated fails: the result does not say which fetch failed.  A
    plugin whose fetch threw and a plugin whose fetch returned no headline
    are recorded alike. *)
Lemma failure_is_recorded_as_no_headlines :
  (PluginManager.fetchFromPlugin "alpha" Sample.sysFailing).1 = Threw (ErrorObj "network down")
  ∧ (PluginManager.fetchFromPlugin "alpha" Sample.sysSilent).1 = Returned []
  ∧ (PluginManager.fetchFromAllPlugins Sample.sysFailing).1 = Returned [("alpha", [])]
  ∧ (PluginManager.fetchFromAllPlugins Sample.sysSilent).1 = Returned [("alpha", [])]
  ∧ ¬ ∃ failed : list (string * list Headline) → string → bool,
        (∀ results, (PluginManager.fetchFromAllPlugins Sample.sysFailing).1
                    = Returned results → failed results "alpha" = true)
        ∧ (∀ results, (PluginManager.fetchFromAllPlugins Sample.sysSilent).1
                      = Returned results → failed results "alpha" = false).
Proof.
  assert (Hfailing : (PluginManager.fetchFromAllPlugins Sample.sysFailing).1
                     = Returned [("alpha", [])]) by (vm_compute; reflexivity).
  assert (Hsilent : (PluginManager.fetchFromAllPlugins Sample.sysSilent).1
                    = Returned [("alpha", [])]) by (vm_compute; reflexivity).
  split_and!; [vm_compute; reflexivity..|exact Hfailing|exact Hsilent|].
  intros (failed & Hyes & Hno).
  specialize (Hyes _ Hfailing). specialize (Hno _ Hsilent). congruence.
Qed.

(** The failing first plugin is recorded with no headlines and the batch
    goes on to the second; the disabled third is not fetched. *)
Example fetchFromAllPlugins_batch :
  (PluginManager.fetchFromAllPlugins Sample.sysBatch).1
  = Returned [("alpha", []); ("beta", [Sample.headline "b9" "beta" 50])]
  ∧ map row_id (headlines (store (PluginManager.fetchFromAllPlugins Sample.sysBatch).2))
    = ["b9"].
Proof. split; vm_compute; reflexivity. Qed.

(** ** Invariants: the primary key and the registry *)

Section StoreInvariant.

Variable Q : TopixDatabase → Prop.

Lemma keepsStore_ret {A} (a : A) : keepsStore Q (mret a).
Proof. by intros s. Qed.

Lemma keepsStore_throw {A} e : keepsStore Q (throw (A:=A) e).
Proof. by intros s. Qed.

Lemma keepsStore_get : keepsStore Q get.
Proof. by intros s. Qed.

Lemma keepsStore_emit lv msg : keepsStore Q (emit lv msg).
Proof. by intros s. Qed.

Lemma keepsStore_bind {A B} (m : M A) (k : A → M B) :
  keepsStore Q m → (∀ a, keepsStore Q (k a)) → keepsStore Q (m ≫= k).
Proof.
  intros Hm Hk s Hs. specialize (Hm s Hs). unfold mbind, M_bind, bind.
  destruct (m s) as [[a|e] s1]; cbn in *; [|done]. by apply Hk.
Qed.

Lemma keepsStore_tryCatch {A} (body : M A) (handler : Thrown → M A) :
  keepsStore Q body → (∀ e, keepsStore Q (handler e)) → keepsStore Q (tryCatch body handler).
Proof.
  intros Hm Hk s Hs. specialize (Hm s Hs). unfold tryCatch.
  destruct (body s) as [[a|e] s1]; cbn in *; [done|]. by apply Hk.
Qed.

Lemma keepsStore_forEach {A} (f : A → M unit) l :
  (∀ x, keepsStore Q (f x)) → keepsStore Q (forEach f l).
Proof.
  intros Hf. induction l as [|x l IH]; [apply keepsStore_ret|].
  cbn. by apply keepsStore_bind.
Qed.

End StoreInvariant.

Create HintDb storeinv.

#[export] Hint Resolve keepsStore_get keepsStore_emit : storeinv.
#[export] Hint Extern 1 (keepsStore _ (mret _)) => apply keepsStore_ret : storeinv.
#[export] Hint Extern 1 (keepsStore _ skip) => apply keepsStore_ret : storeinv.
#[export] Hint Extern 1 (keepsStore _ (throw _)) => apply keepsStore_throw : storeinv.
#[export] Hint Extern 1 (keepsStore _ (consoleLog _)) => apply keepsStore_emit : storeinv.
#[export] Hint Extern 1 (keepsStore _ (consoleError _)) => apply keepsStore_emit : storeinv.
#[export] Hint Extern 2 (keepsStore _ (_ ≫= _)) =>
  (apply keepsStore_bind; [|intros ?]) : storeinv.
#[export] Hint Extern 2 (keepsStore _ (tryCatch _ _)) =>
  (apply keepsStore_tryCatch; [|intros ?]) : storeinv.
#[export] Hint Extern 2 (keepsStore _ (forEach _ _)) =>
  (apply keepsStore_forEach; intros ?) : storeinv.
#[export] Hint Extern 9 (keepsStore _ (match ?x with _ => _ end)) => destruct x : storeinv.

(** The primary key survives a fetch, whatever its outcome. *)
Lemma fetchFromPlugin_uniqueIds pid :
  keepsStore Database.uniqueIds (PluginManager.fetchFromPlugin pid).
Proof.
  assert (Hrun : ∀ e, keepsStore Database.uniqueIds (PluginManager.updatePluginRun pid e)).
  { intros e s Hs. unfold Database.uniqueIds in *. cbn.
    by rewrite updatePluginRun_headlines. }
  assert (Hins : ∀ h, keepsStore Database.uniqueIds (PluginManager.insertHeadline h)).
  { intros h s Hs. rewrite insertHeadline_run.
    destruct (Database.insertHeadline h (store s)) eqn:E; [done|].
    cbn. eauto using insertHeadline_uniqueIds. }
  assert (Hsweep : ∀ name policy,
            keepsStore Database.uniqueIds (PluginManager.enforceRetentionPolicy pid name policy)).
  { intros name policy s Hs.
    pose proof (enforceRetentionPolicy_run pid name policy s) as Hswept.
    destruct (Database.applyRetention pid policy (zone s) (now s) (store s))
      as [msg|d] eqn:E.
    - by rewrite Hswept.
    - destruct Hswept as [out ->]. cbn. by eapply applyRetention_uniqueIds. }
  assert (Hbegin : keepsStore Database.uniqueIds (PluginManager.fetchBegin pid)).
  { intros s Hs. rewrite fetchBegin_run. by repeat case_match. }
  unfold PluginManager.fetchFromPlugin, PluginManager.fetchSettle.
  auto 200 with storeinv nocore.
Qed.

Lemma registryOk_empty : registryOk [].
Proof. split; [apply NoDup_nil_2|]. intros e He. by apply elem_of_nil in He. Qed.

Lemma keys_mapSet_present {A} k (v : A) m :
  k ∈ map fst m → map fst (mapSet k v m) = map fst m.
Proof.
  induction m as [|[k0 v0] m IH]; cbn; [by intros ?%elem_of_nil|]. intros Hk.
  destruct (String.eqb_spec k k0) as [->|Hne]; [done|]. cbn. f_equal. apply IH.
  by apply elem_of_cons in Hk as [?|?].
Qed.

Lemma elem_of_mapSet {A} k (v : A) m e :
  e ∈ mapSet k v m → e = (k, v) ∨ e ∈ m.
Proof.
  induction m as [|[k0 v0] m IH]; cbn.
  - intros ?%list_elem_of_singleton. by left.
  - destruct (String.eqb_spec k k0) as [->|Hne].
    + intros [->|?]%elem_of_cons; [by left|right; by right].
    + intros [->|He]%elem_of_cons; [right; by left|].
      destruct (IH He) as [?|?]; [by left|right; by right].
Qed.

(** Registering a plugin under its id keeps the registry well formed. *)
Lemma registryOk_setPlugin (p : TopixPlugin) (s : System) :
  registryOk (plugins s) → registryOk (plugins (PluginManager.setPlugin p s).2).
Proof.
  intros [Hnd Hkey]. unfold PluginManager.setPlugin. cbn. split.
  - destruct (decide (p_id p ∈ map fst (plugins s))) as [Hin|Hout].
    + by rewrite keys_mapSet_present.
    + rewrite keys_mapSet_fresh by done. apply NoDup_app. split_and!; [done| |apply NoDup_singleton].
      intros x Hx ->%list_elem_of_singleton. done.
  - intros e [->|He]%elem_of_mapSet; [done|by apply Hkey].
Qed.

(** ** Fetching from a plugin that is unknown or not enabled *)

Lemma list_ascii_of_string_app (a b : string) :
  String.list_ascii_of_string (a +:+ b)
  = String.list_ascii_of_string a ++ String.list_ascii_of_string b.
Proof. induction a as [|c a IH]; [done|]. simpl. by f_equal. Qed.

(** The two messages differ in their last letter but one, whatever the ids. *)
Lemma notFound_notEnabled_differ (p q : string) :
  PluginManager.notFound p ≠ PluginManager.notEnabled q.
Proof.
  unfold PluginManager.notFound, PluginManager.notEnabled. intros [= Heq].
  apply (f_equal (λ m, reverse (String.list_ascii_of_string m) !! 1%nat)) in Heq.
  rewrite !list_ascii_of_string_app, !reverse_app in Heq.
  cbn in Heq. discriminate Heq.
Qed.

(** C5. Fetching from a plugin that is not loaded, or that is loaded but
    has no configuration or a disabled one, throws: [not found] in the
    first case, [is not enabled] in the others; the two errors differ; and
    the system, its store included, is left exactly as it was. *)
Theorem fetch_refused_without_writes (pid : string) (s : System) :
  assoc pid (plugins s) = None
  ∨ assoc pid (cfg_plugins (config s)) = None
  ∨ (∃ c, assoc pid (cfg_plugins (config s)) = Some c ∧ y_enabled c = false) →
  PluginManager.fetchFromPlugin pid s
  = (Threw (match assoc pid (plugins s) with
            | None => PluginManager.notFound pid
            | Some _ => PluginManager.notEnabled pid
            end), s)
  ∧ PluginManager.notFound pid ≠ PluginManager.notEnabled pid
  ∧ headlines (store (PluginManager.fetchFromPlugin pid s).2) = headlines (store s).
Proof.
  intros Hwhy.
  assert (Hrun : PluginManager.fetchFromPlugin pid s
                 = (Threw (match assoc pid (plugins s) with
                           | None => PluginManager.notFound pid
                           | Some _ => PluginManager.notEnabled pid
                           end), s)).
  { unfold PluginManager.fetchFromPlugin.
    unfold mbind at 1, M_bind at 1, bind at 1. rewrite fetchBegin_run.
    destruct (assoc pid (plugins s)) as [plugin|]; [|done].
    destruct Hwhy as [Hno|[Hno|(c & Hc & Hoff)]]; [done| |].
    - by rewrite Hno.
    - by rewrite Hc, Hoff. }
  split_and!; [done|apply notFound_notEnabled_differ|by rewrite Hrun].
Qed.

Lemma fetch_refused_without_writes_witness :
  (PluginManager.fetchFromPlugin "gamma" Sample.sysBatch
   = (Threw (PluginManager.notEnabled "gamma"), Sample.sysBatch))
  ∧ (PluginManager.fetchFromPlugin "omega" Sample.sysBatch
     = (Threw (PluginManager.notFound "omega"), Sample.sysBatch)).
Proof.
  split.
  - apply (fetch_refused_without_writes "gamma" Sample.sysBatch).
    right; right. eexists. split; reflexivity.
  - apply (fetch_refused_without_writes "omega" Sample.sysBatch).
    left. reflexivity.
Defined.

(** ** Rescheduling *)

(** C7, amended. A call of [reschedulePlugin] with an expression that
    node-cron refuses returns normally and leaves the scheduler as it was:
    the timer of the plugin, if any, stays installed and armed.  The
    warning is printed when the scheduler is running; a stopped scheduler
    returns before it validates and prints nothing. *)
Theorem reschedulePlugin_invalid_keeps_timer (cronValidate : string → bool)
    (pid schedule : string) (s : System) :
  cronValidate schedule = false →
  let s' := (Scheduler.reschedulePlugin cronValidate pid schedule s).2 in
  timers s' = timers s
  ∧ (∀ task, tasks s !! pid = Some task → task_id task ∈ armed s →
             tasks s' !! pid = Some task ∧ task_id task ∈ armed s')
  ∧ console s' =
      console s ++
      (if running s
       then [entry LogLevel ("Rescheduling " +:+ pid +:+ ": " +:+ schedule);
             entry WarnLevel ("Invalid cron schedule for " +:+ pid +:+ ": " +:+ schedule)]
       else []).
Proof.
  intros Hbad. unfold Scheduler.reschedulePlugin, Scheduler.schedulePlugin.
  run_monad. rewrite Hbad. cbn.
  destruct (running s) eqn:Hrun; cbn.
  - split_and!; [done|done|]. by rewrite <- app_assoc.
  - split_and!; [done|done|]. by rewrite app_nil_r.
Qed.

Lemma reschedulePlugin_invalid_keeps_timer_witness :
  let s := Sample.sysTicking in
  let s' := (Scheduler.reschedulePlugin Sample.cronValidate "alpha" "every so often" s).2 in
  timers s' = timers s
  ∧ (∀ task, tasks s !! "alpha" = Some task → task_id task ∈ armed s →
             tasks s' !! "alpha" = Some task ∧ task_id task ∈ armed s')
  ∧ console s' =
      console s ++
      (if running s
       then [entry LogLevel ("Rescheduling " +:+ "alpha" +:+ ": " +:+ "every so often");
             entry WarnLevel ("Invalid cron schedule for " +:+ "alpha" +:+ ": "
                              +:+ "every so often")]
       else []).
Proof.
  apply (reschedulePlugin_invalid_keeps_timer Sample.cronValidate "alpha" "every so often"
           Sample.sysTicking).
  reflexivity.
Defined.

(** C7 as stated fails on a stopped scheduler: the call is dropped without
    any warning. *)
Lemma reschedulePlugin_silent_when_stopped :
  Sample.cronValidate "every so often" = false
  ∧ running Sample.sysCount3 = false
  ∧ console (Scheduler.reschedulePlugin Sample.cronValidate "alpha" "every so often"
               Sample.sysCount3).2 = []
  ∧ ¬ ∃ e, e ∈ console (Scheduler.reschedulePlugin Sample.cronValidate "alpha"
                          "every so often" Sample.sysCount3).2
           ∧ level e = WarnLevel.
Proof.
  split_and!; [reflexivity..|].
  intros (e & He & _). vm_compute in He. by apply elem_of_nil in He.
Qed.

(** ** Overlapping fetches *)

Section Overlap.

Import EventLoop.

Lemma executeBegin_run pid s plugin c :
  assoc pid (plugins s) = Some plugin →
  assoc pid (cfg_plugins (config s)) = Some c →
  y_enabled c = true →
  Scheduler.executeBegin pid s
  = (Returned (Some (plugin, PluginManager.yamlPluginToDbPlugin pid c)),
     with_console (console s ++ [entry LogLevel ("[" +:+ pretty (now s)
                                   +:+ "] Running scheduled fetch: " +:+ p_name plugin)]) s).
Proof.
  intros Hp Hc He. unfold Scheduler.executeBegin, PluginManager.getPlugin.
  run_monad. rewrite Hp. cbn.
  rewrite fetchBegin_run. cbn. by rewrite Hp, Hc, He.
Qed.

Lemma inFlightFor_suspend pid plugin scheduled s l :
  inFlightFor pid (suspend pid plugin scheduled s l) = S (inFlightFor pid l)
  ∧ invokedFor pid (suspend pid plugin scheduled s l) = S (invokedFor pid l).
Proof.
  unfold inFlightFor, invokedFor, suspend. cbn.
  rewrite !filter_app, !length_app, !filter_cons, !filter_nil. cbn.
  rewrite !decide_True by done. cbn. lia.
Qed.

(** C1, amended. The code has no in-flight guard: every trigger for a
    loaded and enabled plugin, a caller or an armed timer, starts one more
    fetch of it, whatever number of its fetches is already in flight; the
    trigger is neither skipped nor queued, and the store is not touched
    until a fetch settles. *)
Theorem every_trigger_starts_a_fetch (pid : string) (ev : Event) (l : Loop)
    (plugin : TopixPlugin) (c : PluginConfigYAML) :
  assoc pid (plugins (sys l)) = Some plugin →
  assoc pid (cfg_plugins (config (sys l))) = Some c →
  y_enabled c = true →
  triggers pid ev l →
  let l' := step ev l in
  inFlightFor pid l' = S (inFlightFor pid l)
  ∧ invokedFor pid l' = S (invokedFor pid l)
  ∧ runtime (sys l') = runtime (sys l)
  ∧ store (sys l') = store (sys l).
Proof.
  intros Hp Hc He [->|[-> (task & Ht & Harmed)]]; cbn.
  - rewrite fetchBegin_run, Hp, Hc, He.
    pose proof (inFlightFor_suspend pid plugin false (sys l) l) as [? ?].
    by split_and!.
  - rewrite Ht, decide_True by done.
    rewrite (executeBegin_run pid (sys l) plugin c Hp Hc He).
    match goal with |- context [suspend _ _ _ ?s1 _] =>
      pose proof (inFlightFor_suspend pid plugin true s1 l) as [? ?] end.
    by split_and!.
Qed.

Lemma every_trigger_starts_a_fetch_witness :
  let l := step (Tick "alpha") (idle Sample.sysTicking) in
  let l' := step (Tick "alpha") l in
  inFlightFor "alpha" l' = S (inFlightFor "alpha" l)
  ∧ invokedFor "alpha" l' = S (invokedFor "alpha" l)
  ∧ runtime (sys l') = runtime (sys l)
  ∧ store (sys l') = store (sys l).
Proof.
  apply (every_trigger_starts_a_fetch "alpha" (Tick "alpha")
           (step (Tick "alpha") (idle Sample.sysTicking))
           Sample.alphaCount3 (Sample.yaml true Sample.every5)).
  - reflexivity.
  - reflexivity.
  - reflexivity.
  - right. split; [reflexivity|].
    exists {| task_id := 0; task_schedule := Sample.every5; task_pluginId := "alpha" |}.
    split; [vm_compute; reflexivity|]. apply (bool_decide_unpack _). vm_compute. exact I.
Defined.

(** C1 as stated fails: two ticks of the timer of alpha, the second while
    the first fetch is in flight, leave two fetches in flight; both run to
    completion and each applies the retention sweep. *)
Lemma two_ticks_two_fetches :
  let overlapping := run [Tick "alpha"; Tick "alpha"] (idle Sample.sysTicking) in
  let settled := run [Settle 0 (inr Sample.firstBatch); Settle 0 (inr Sample.secondBatch)]
                     overlapping in
  inFlightFor "alpha" overlapping = 2%nat
  ∧ ¬ (inFlightFor "alpha" overlapping ≤ 1)%nat
  ∧ invokedFor "alpha" settled = 2%nat
  ∧ map text (drop 3 (console (sys settled)))
    = ["[1000] Running scheduled fetch: alpha";
       "[1000] Running scheduled fetch: alpha";
       "  Deleted 1 old headlines from alpha (keeping last 3)";
       "Fetched 2 headlines from alpha";
       "  Deleted 2 old headlines from alpha (keeping last 3)";
       "Fetched 2 headlines from alpha"].
Proof.
  split_and!; try (vm_compute; reflexivity).
  vm_compute. lia.
Qed.

End Overlap.

(** ** The credential vault *)

Lemma storeCredentials_available pid c s :
  keychainAvailable s = true → kc_failing (keychain s) = false →
  ∃ s1, AuthManager.storeCredentials pid c s = (Returned (), s1)
        ∧ keychainAvailable s1 = true
        ∧ auth (store s1) !! pid
          = Some {| auth_type := AuthManager.getAuthType c;
                    credentials := Json (AuthManager.metadataOnly c);
                    auth_created_at := match auth (store s) !! pid with
                                       | Some old => auth_created_at old
                                       | None => now s
                                       end;
                    auth_updated_at := now s |}
        ∧ kc_entries (keychain s1) !! pid = Some (Json (jsonCredentials c)).
Proof.
  intros Hav Hok. unfold AuthManager.storeCredentials, AuthManager.storeInKeychain,
    AuthManager.upsertAuth.
  run_monad. rewrite Hav. cbn. rewrite Hok. cbn.
  eexists. split; [reflexivity|]. cbn. split_and!; [done| |].
  - unfold Database.upsertAuth. cbn. by rewrite lookup_insert_eq.
  - by rewrite lookup_insert_eq.
Qed.

(** C4, amended. A credential stored while the keychain works goes to the
    keychain, and the store receives only its type.  A later read with the
    keychain failing falls back to the store, demotes the keychain, and
    returns that type-only record: it is the credential that was stored
    only when the credential had no field besides its type. *)
Theorem fallback_returns_metadata_only (pid : string) (c : AuthCredentials) (s : System) :
  keychainAvailable s = true →
  kc_failing (keychain s) = false →
  let stored := (AuthManager.storeCredentials pid c s).2 in
  let later := AuthManager.getCredentials pid (keychainFails stored) in
  later.1 = Returned (Some (AuthManager.metadataOnly c))
  ∧ keychainAvailable later.2 = false
  ∧ (AuthManager.metadataOnly c = c ↔ cred_fields c = []).
Proof.
  intros Hav Hok stored later.
  destruct (storeCredentials_available pid c s Hav Hok) as (s1 & Hrun & Hav1 & Hrow & _).
  subst later stored. rewrite Hrun. cbn [snd].
  unfold AuthManager.getCredentials, AuthManager.getFromKeychain, AuthManager.getAuth,
    AuthManager.setKeychainAvailable, keychainFails.
  run_monad. cbn. rewrite Hav1. cbn.
  unfold Database.getAuth. cbn. rewrite Hrow. cbn.
  split_and!; [done|done|].
  unfold AuthManager.metadataOnly. destruct c as [t fields]; cbn.
  split; [by intros [= <-]|by intros ->].
Qed.

Lemma fallback_returns_metadata_only_witness :
  let stored := (AuthManager.storeCredentials "alpha" Sample.apiKeyCredential
                   Sample.sysCount3).2 in
  let later := AuthManager.getCredentials "alpha" (keychainFails stored) in
  later.1 = Returned (Some (AuthManager.metadataOnly Sample.apiKeyCredential))
  ∧ keychainAvailable later.2 = false
  ∧ (AuthManager.metadataOnly Sample.apiKeyCredential = Sample.apiKeyCredential
     ↔ cred_fields Sample.apiKeyCredential = []).
Proof.
  apply (fallback_returns_metadata_only "alpha" Sample.apiKeyCredential Sample.sysCount3);
    reflexivity.
Defined.

(** C4 as stated fails: the API key stored through the working keychain is
    not in what the fallback returns. *)
Lemma fallback_loses_the_secret :
  let stored := (AuthManager.storeCredentials "alpha" Sample.apiKeyCredential
                   Sample.sysCount3).2 in
  keychainAvailable Sample.sysCount3 = true
  ∧ kc_failing (keychain Sample.sysCount3) = false
  ∧ (AuthManager.getCredentials "alpha" stored).1 = Returned (Some Sample.apiKeyCredential)
  ∧ (AuthManager.getCredentials "alpha" (keychainFails stored)).1
    = Returned (Some {| cred_type := apikey; cred_fields := [] |})
  ∧ (AuthManager.getCredentials "alpha" (keychainFails stored)).1
    ≠ Returned (Some Sample.apiKeyCredential).
Proof.
  split_and!; try (vm_compute; reflexivity).
  vm_compute. discriminate.
Qed.

(** What [validateOAuth2Token] does with an OAuth2 credential that has an
    expiry: before the expiry it returns the credential; from the expiry on
    it is [refreshOAuth2Token]. *)
Lemma validateOAuth2Token_unexpired tokenEndpoint pid s s1 c e :
  AuthManager.getCredentials pid s = (Returned (Some c), s1) →
  cred_type c = oauth2 →
  AuthManager.expiry c = AuthManager.ExpiresAt e →
  now s1 < e →
  AuthManager.validateOAuth2Token tokenEndpoint pid s = (Returned (Some c), s1).
Proof.
  intros Hget Htype Hexp Hlater. unfold AuthManager.validateOAuth2Token.
  unfold mbind at 1, M_bind at 1, bind at 1. rewrite Hget, Htype, Hexp. cbn.
  run_monad. rewrite bool_decide_true by done. cbn.
  destruct (Z.leb_spec e (now s1)); [lia|done].
Qed.

Lemma validateOAuth2Token_expired tokenEndpoint pid s s1 c e :
  AuthManager.getCredentials pid s = (Returned (Some c), s1) →
  cred_type c = oauth2 →
  AuthManager.expiry c = AuthManager.ExpiresAt e →
  e ≤ now s1 →
  AuthManager.validateOAuth2Token tokenEndpoint pid s
  = AuthManager.refreshOAuth2Token tokenEndpoint pid s1.
Proof.
  intros Hget Htype Hexp Hpast. unfold AuthManager.validateOAuth2Token.
  unfold mbind at 1, M_bind at 1, bind at 1. rewrite Hget, Htype, Hexp. cbn.
  run_monad. rewrite bool_decide_true by done. cbn.
  destruct (Z.leb_spec e (now s1)); [done|lia].
Qed.

(** C3 at a credential that expires in four minutes: [validateOAuth2Token]
    returns it as it is, whatever the endpoint would answer, and the system
    is untouched, although [refreshOAuth2Token] on the same system does
    fetch a new token; at ten minutes the credential is returned as it is. *)
Theorem validate_skips_refresh_at_four_minutes :
  let s := Sample.sysWithToken 4 in
  (∀ tokenEndpoint,
     AuthManager.validateOAuth2Token tokenEndpoint "alpha" s
     = (Returned (Some (Sample.oauth2Credential 4)), s))
  ∧ (AuthManager.refreshOAuth2Token Sample.tokenEndpoint "alpha" s).1
    = Returned (Some {| cred_type := oauth2;
                        cred_fields := [("accessToken", CStr "fresh-access-token");
                                        ("refreshToken", CStr "test-refresh-token");
                                        ("expiresAt", CTime (1000 + 3600 * 1000));
                                        ("tokenUrl", CStr "https://example.com/token")] |})
  ∧ (AuthManager.validateOAuth2Token Sample.tokenEndpoint "alpha" (Sample.sysWithToken 10)).1
    = Returned (Some (Sample.oauth2Credential 10)).
Proof.
  split_and!.
  - intros tokenEndpoint. vm_compute. reflexivity.
  - vm_compute. reflexivity.
  - vm_compute. reflexivity.
Qed.

(** ** The configuration watcher *)

Lemma with_console_twice x y s : with_console x (with_console y s) = with_console x s.
Proof. done. Qed.

Lemma forEach_consoleError (f : string → string) (l : list string) (s : System) :
  forEach (λ e, consoleError (f e)) l s
  = (Returned (), with_console (console s ++ map (λ e, entry ErrorLevel (f e)) l) s).
Proof.
  revert s. induction l as [|e l IH]; intros s.
  - cbn. rewrite app_nil_r. by rewrite with_console_same.
  - rewrite forEach_cons. cbn. rewrite IH. cbn.
    by rewrite <- app_assoc.
Qed.

(** C6. When the document on disk fails [validateConfig], the watcher
    prints the failure, every error of the validation, and that it keeps
    the configuration, and does nothing else: the result is the same
    whatever handler is registered, and the configuration in memory, the
    scheduler's timers, the registry and the store are as before. *)
Theorem invalid_config_is_not_applied (w : ConfigWatcher.ConfigWatcher) (s : System)
    (r : ConfigFile.ValidationResult) :
  ConfigFile.validateConfig (configOnDisk s) = inr r →
  ConfigFile.valid r = false →
  ConfigWatcher.processConfigChange w s
  = (Returned (),
     with_console
       (console s
        ++ [entry LogLevel "Config file changed, reloading...";
            entry ErrorLevel "Config validation failed:"]
        ++ map (λ e, entry ErrorLevel ("   - " +:+ e)) (ConfigFile.errors r)
        ++ [entry ErrorLevel "   Keeping existing configuration"]) s)
  ∧ (∀ w', ConfigWatcher.processConfigChange w' s = ConfigWatcher.processConfigChange w s)
  ∧ let s' := (ConfigWatcher.processConfigChange w s).2 in
    config s' = config s ∧ timers s' = timers s ∧ plugins s' = plugins s
    ∧ store s' = store s
    ∧ ∀ e, e ∈ ConfigFile.errors r → entry ErrorLevel ("   - " +:+ e) ∈ console s'.
Proof.
  intros Hval Hbad.
  assert (Hrun : ∀ w0, ConfigWatcher.processConfigChange w0 s
          = (Returned (),
             with_console
               (console s
                ++ [entry LogLevel "Config file changed, reloading...";
                    entry ErrorLevel "Config validation failed:"]
                ++ map (λ e, entry ErrorLevel ("   - " +:+ e)) (ConfigFile.errors r)
                ++ [entry ErrorLevel "   Keeping existing configuration"]) s)).
  { intros w0. unfold ConfigWatcher.processConfigChange, ConfigWatcher.loadConfig,
      ConfigWatcher.validateConfig.
    run_monad. cbn. rewrite Hval, Hbad. cbn.
    rewrite (forEach_consoleError (λ e, "   - " +:+ e)). cbn.
    rewrite !with_console_twice. do 2 f_equal. by rewrite <- !app_assoc. }
  split_and!; [apply Hrun|intros w'; by rewrite !Hrun|].
  rewrite Hrun. cbn. split_and!; try done.
  intros e He. apply elem_of_app. right. do 2 (apply elem_of_cons; right).
  apply elem_of_app. left.
  by apply (list_elem_of_fmap_2 (λ e, entry ErrorLevel ("   - " +:+ e))).
Qed.


Lemma invalid_config_is_not_applied_witness :
  let s := Sample.onDisk (Sample.document (3 # 2)) Sample.sysTicking in
  let s' := (ConfigWatcher.processConfigChange Sample.watcher s).2 in
  config s' = config s ∧ timers s' = timers s
  ∧ entry ErrorLevel
      "   - importance.defaultThreshold must be a number between 0 and 1" ∈ console s'.
Proof.
  pose proof (invalid_config_is_not_applied Sample.watcher
                (Sample.onDisk (Sample.document (3 # 2)) Sample.sysTicking)
                {| ConfigFile.valid := false;
                   ConfigFile.errors :=
                     ["importance.defaultThreshold must be a number between 0 and 1"] |}
                eq_refl eq_refl) as (_ & _ & Hcfg & Htimers & _ & _ & Hlogged).
  split_and!; [exact Hcfg|exact Htimers|].
  apply Hlogged. apply list_elem_of_singleton. reflexivity.
Defined.

(** The same change with the threshold in range is applied: alpha is
    disabled in memory and its timer is removed. *)
Example valid_config_is_applied :
  let s := Sample.onDisk (Sample.document (1 # 2)) Sample.sysTicking in
  let s' := (ConfigWatcher.processConfigChange Sample.watcher s).2 in
  size (tasks s) = 1%nat ∧ size (tasks s') = 0%nat
  ∧ map (λ e, (e.1, y_enabled e.2)) (cfg_plugins (config s')) = [("alpha", false)].
Proof. split_and!; vm_compute; reflexivity. Qed.

(** ** Plugin discovery *)

Lemma whenVerbose_run m s :
  PluginManager.whenVerbose m s = if verbose s then m s else (Returned (), s).
Proof. unfold PluginManager.whenVerbose. run_monad. by destruct (verbose s). Qed.

Lemma preserves_whenVerbose m : preserves m → preserves (PluginManager.whenVerbose m).
Proof. intros Hm. unfold PluginManager.whenVerbose. frame. Qed.

#[export] Hint Resolve preserves_whenVerbose : frame.

Lemma preserves_initializeEnabledPlugins : preserves PluginManager.initializeEnabledPlugins.
Proof.
  unfold PluginManager.initializeEnabledPlugins, PluginManager.getPluginConfigs. frame.
Qed.

#[export] Hint Resolve preserves_initializeEnabledPlugins : frame.

(** An entry of the registry survives the loading of one user file. *)
Lemma loadUserFile_keeps (file : string * ImportResult) (s : System) (k : string)
    (p : TopixPlugin) :
  assoc k (plugins s) = Some p →
  assoc k (plugins (PluginManager.loadUserFile file s).2) = Some p.
Proof.
  intros Hk. destruct file as [file imported]. unfold PluginManager.loadUserFile.
  destruct (negb _); [done|].
  destruct imported as [e|[|shape plugin]]; [done| |].
  - rewrite whenVerbose_run. by destruct (verbose s).
  - destruct (PluginManager.isValidPlugin _).
    + run_monad. unfold mapHas.
      destruct (assoc (p_id plugin) (plugins s)) as [old|] eqn:Hold.
      * rewrite bool_decide_true by eauto.
        rewrite whenVerbose_run. by destruct (verbose s).
      * rewrite bool_decide_false by (intros [? ?]; done).
        unfold PluginManager.setPlugin. run_monad. cbn.
        rewrite whenVerbose_run. cbn.
        assert (p_id plugin ≠ k) by (intros Heq; rewrite Heq in Hold; congruence).
        destruct (verbose s); cbn; by rewrite assoc_mapSet_ne.
    + rewrite whenVerbose_run. by destruct (verbose s).
Qed.

Lemma loadUserPlugins_keeps (s : System) (k : string) (p : TopixPlugin) :
  assoc k (plugins s) = Some p →
  assoc k (plugins (PluginManager.loadUserPlugins s).2) = Some p.
Proof.
  intros Hk. unfold PluginManager.loadUserPlugins. run_monad.
  destruct (userDir s) as [files|]; [|done].
  revert s Hk. induction files as [|file files IH]; intros s Hk; [done|].
  rewrite forEach_cons.
  pose proof (loadUserFile_keeps file s k p Hk) as Hstep.
  destruct (PluginManager.loadUserFile file s) as [[[]|e] s1]; cbn in *; [by apply IH|done].
Qed.

(** C10, amended. A valid user plugin in a [.js] file whose id is already
    in the registry is skipped; the warning is printed when the manager is
    verbose, and nothing is printed otherwise.  Loading the user directory
    never changes an entry that was there, so what the built-in directory
    registered under an id is still registered under it when [initialize]
    ends. *)
Theorem user_plugin_never_replaces (file : string) (shape : PluginShape)
    (user loaded : TopixPlugin) (s : System) :
  PluginManager.endsWith file ".js" = true →
  PluginManager.isValidPlugin (ObjectExport shape user) = true →
  assoc (p_id user) (plugins s) = Some loaded →
  PluginManager.loadUserFile (file, Imported (ObjectExport shape user)) s
  = (Returned (),
     if verbose s
     then with_console
            (console s ++ [entry WarnLevel ("  User plugin " +:+ p_id user
                                            +:+ " conflicts with built-in plugin, skipping")]) s
     else s)
  ∧ assoc (p_id user) (plugins (PluginManager.loadUserPlugins s).2) = Some loaded
  ∧ ∀ initializePlugins s0,
      assoc (p_id user) (plugins (PluginManager.loadBuiltInPlugins
                                    (PluginManager.whenVerbose
                                       (consoleLog "Initializing Plugin Manager...") s0).2).2)
      = Some loaded →
      assoc (p_id user) (plugins (PluginManager.initialize initializePlugins s0).2)
      = Some loaded.
Proof.
  intros Hjs Hvalid Hloaded. split_and!.
  - unfold PluginManager.loadUserFile. rewrite Hjs, Hvalid. cbn. run_monad.
    unfold mapHas. rewrite bool_decide_true by eauto.
    rewrite whenVerbose_run. by destruct (verbose s).
  - by apply loadUserPlugins_keeps.
  - intros initializePlugins s0 Hbuilt.
    unfold PluginManager.initialize.
    unfold mbind at 1, M_bind at 1, bind at 1.
    destruct (PluginManager.whenVerbose _ s0) as [[[]|e] sa] eqn:Ha.
    2:{ rewrite whenVerbose_run in Ha. by destruct (verbose s0). }
    cbn [snd] in Hbuilt.
    unfold mbind at 1, M_bind at 1, bind at 1.
    destruct (PluginManager.loadBuiltInPlugins sa) as [[[]|e] sb] eqn:Hb; [|done].
    cbn [snd] in Hbuilt.
    unfold mbind at 1, M_bind at 1, bind at 1.
    pose proof (loadUserPlugins_keeps sb _ _ Hbuilt) as Huser.
    destruct (PluginManager.loadUserPlugins sb) as [[[]|e] sc] eqn:Hc; [|done].
    cbn [snd] in Huser.
    match goal with |- assoc _ (plugins (?m sc).2) = _ =>
      assert (Hframe : preserves m) end.
    { frame. }
    specialize (Hframe sc). unfold runtime in Hframe.
    injection Hframe as _ _ Hplugins _ _ _ _ _. by rewrite Hplugins.
Qed.

Lemma user_plugin_never_replaces_witness :
  let s := (PluginManager.loadBuiltInPlugins (Sample.sysDiscovery true)).2 in
  PluginManager.loadUserFile
    ("weather.js", Imported (ObjectExport Sample.okShape Sample.userWeather)) s
  = (Returned (),
     with_console
       (console s ++ [entry WarnLevel
                        "  User plugin weather conflicts with built-in plugin, skipping"]) s)
  ∧ assoc "weather" (plugins (PluginManager.loadUserPlugins s).2)
    = Some Sample.builtinWeather.
Proof.
  pose proof (user_plugin_never_replaces "weather.js" Sample.okShape Sample.userWeather
                Sample.builtinWeather
                (PluginManager.loadBuiltInPlugins (Sample.sysDiscovery true)).2
                eq_refl eq_refl eq_refl) as (Hfile & Hdir & _).
  split; [exact Hfile|exact Hdir].
Defined.

(** C10 as stated fails for a manager that is not verbose: the user plugin
    is skipped, and the built-in one kept, without any warning. *)
Lemma user_plugin_skipped_silently :
  let s := (PluginManager.initialize true (Sample.sysDiscovery false)).2 in
  map (λ e, (e.1, p_name e.2)) (plugins s) = [("weather", "weather")]
  ∧ console s = []
  ∧ ¬ ∃ e, e ∈ console s ∧ level e = WarnLevel.
Proof.
  split_and!; [vm_compute; reflexivity..|].
  intros (e & He & _). vm_compute in He. by apply elem_of_nil in He.
Qed.

(** * Further properties of the code *)
(** ** Computations that keep an invariant, computations that cannot throw *)

Section Keeps.

Variable P : System → Prop.

Lemma keeps_ret {A} (a : A) : keeps P (mret a).
Proof. by intros s. Qed.

Lemma keeps_throw {A} e : keeps P (throw (A:=A) e).
Proof. by intros s. Qed.

Lemma keeps_get : keeps P get.
Proof. by intros s. Qed.

Lemma keeps_bind {A B} (m : M A) (k : A → M B) :
  keeps P m → (∀ a, keeps P (k a)) → keeps P (m ≫= k).
Proof.
  intros Hm Hk s Hs. specialize (Hm s Hs). unfold mbind, M_bind, bind.
  destruct (m s) as [[a|e] s1]; cbn in *; [|done]. by apply Hk.
Qed.

Lemma keeps_tryCatch {A} (body : M A) (handler : Thrown → M A) :
  keeps P body → (∀ e, keeps P (handler e)) → keeps P (tryCatch body handler).
Proof.
  intros Hm Hk s Hs. specialize (Hm s Hs). unfold tryCatch.
  destruct (body s) as [[a|e] s1]; cbn in *; [done|]. by apply Hk.
Qed.

Lemma keeps_when b m : keeps P m → keeps P (when b m).
Proof. intros Hm. destruct b; [done|apply keeps_ret]. Qed.

Lemma keeps_forEach {A} (f : A → M unit) l :
  (∀ x, keeps P (f x)) → keeps P (forEach f l).
Proof.
  intros Hf. induction l as [|x l IH]; [apply keeps_ret|].
  cbn. by apply keeps_bind.
Qed.

(** An invariant that does not read the console survives printing. *)
Lemma keeps_emit lv msg :
  (∀ x s, P s → P (with_console x s)) → keeps P (emit lv msg).
Proof. intros Hc s Hs. by apply Hc. Qed.

End Keeps.

Create HintDb keeps.

#[export] Hint Resolve keeps_get : keeps.
#[export] Hint Extern 1 (keeps _ (mret _)) => apply keeps_ret : keeps.
#[export] Hint Extern 1 (keeps _ (ret _)) => apply keeps_ret : keeps.
#[export] Hint Extern 1 (keeps _ skip) => apply keeps_ret : keeps.
#[export] Hint Extern 1 (keeps _ (throw _)) => apply keeps_throw : keeps.
#[export] Hint Extern 2 (keeps _ (consoleLog _)) => (apply keeps_emit; assumption) : keeps.
#[export] Hint Extern 2 (keeps _ (consoleWarn _)) => (apply keeps_emit; assumption) : keeps.
#[export] Hint Extern 2 (keeps _ (consoleError _)) => (apply keeps_emit; assumption) : keeps.
#[export] Hint Extern 2 (keeps _ (_ ≫= _)) => (apply keeps_bind; [|intros ?]) : keeps.
#[export] Hint Extern 2 (keeps _ (tryCatch _ _)) => (apply keeps_tryCatch; [|intros ?]) : keeps.
#[export] Hint Extern 2 (keeps _ (when _ _)) => apply keeps_when : keeps.
#[export] Hint Extern 2 (keeps _ (forEach _ _)) => (apply keeps_forEach; intros ?) : keeps.
#[export] Hint Extern 9 (keeps _ (match ?x with _ => _ end)) => destruct x : keeps.

Section NeverThrows.

Lemma neverThrows_ret {A} (a : A) : neverThrows (mret a).
Proof. intros s. by exists a. Qed.

Lemma neverThrows_get : neverThrows get.
Proof. intros s. by exists s. Qed.

Lemma neverThrows_modify f : neverThrows (modify f).
Proof. intros s. by exists (). Qed.

Lemma neverThrows_emit lv msg : neverThrows (emit lv msg).
Proof. intros s. by exists (). Qed.

Lemma neverThrows_bind {A B} (m : M A) (k : A → M B) :
  neverThrows m → (∀ a, neverThrows (k a)) → neverThrows (m ≫= k).
Proof.
  intros Hm Hk s. destruct (Hm s) as [a Ha]. unfold mbind, M_bind, bind.
  destruct (m s) as [[a'|e] s1]; cbn in *; [|done]. apply Hk.
Qed.

(** A [try] whose handler cannot throw cannot throw. *)
Lemma neverThrows_tryCatch {A} (body : M A) (handler : Thrown → M A) :
  (∀ e, neverThrows (handler e)) → neverThrows (tryCatch body handler).
Proof.
  intros Hk s. unfold tryCatch.
  destruct (body s) as [[a|e] s1]; cbn; [by exists a|apply Hk].
Qed.

Lemma neverThrows_when b m : neverThrows m → neverThrows (when b m).
Proof. intros Hm. destruct b; [done|apply neverThrows_ret]. Qed.

Lemma neverThrows_forEach {A} (f : A → M unit) l :
  (∀ x, neverThrows (f x)) → neverThrows (forEach f l).
Proof.
  intros Hf. induction l as [|x l IH]; [apply neverThrows_ret|].
  cbn. by apply neverThrows_bind.
Qed.

End NeverThrows.

Create HintDb nothrow.

#[export] Hint Resolve neverThrows_get neverThrows_emit neverThrows_modify : nothrow.
#[export] Hint Extern 1 (neverThrows (mret _)) => apply neverThrows_ret : nothrow.
#[export] Hint Extern 1 (neverThrows (ret _)) => apply neverThrows_ret : nothrow.
#[export] Hint Extern 1 (neverThrows skip) => apply neverThrows_ret : nothrow.
#[export] Hint Extern 1 (neverThrows (consoleLog _)) => apply neverThrows_emit : nothrow.
#[export] Hint Extern 1 (neverThrows (consoleWarn _)) => apply neverThrows_emit : nothrow.
#[export] Hint Extern 1 (neverThrows (consoleError _)) => apply neverThrows_emit : nothrow.
#[export] Hint Extern 2 (neverThrows (_ ≫= _)) =>
  (apply neverThrows_bind; [|intros ?]) : nothrow.
#[export] Hint Extern 2 (neverThrows (tryCatch _ _)) =>
  (apply neverThrows_tryCatch; intros ?) : nothrow.
#[export] Hint Extern 2 (neverThrows (when _ _)) => apply neverThrows_when : nothrow.
#[export] Hint Extern 2 (neverThrows (forEach _ _)) =>
  (apply neverThrows_forEach; intros ?) : nothrow.
#[export] Hint Extern 9 (neverThrows (match ?x with _ => _ end)) => destruct x : nothrow.

(** ** The scheduler: timers and tasks *)

Lemma schedulerOk_console x s : schedulerOk s → schedulerOk (with_console x s).
Proof. done. Qed.

(** What [schedulePlugin] does with an expression that node-cron accepts. *)
Lemma schedulePlugin_valid_run cronValidate pid schedule s :
  cronValidate schedule = true →
  Scheduler.schedulePlugin cronValidate pid schedule s
  = (Returned (),
     with_console (console s ++ [entry LogLevel ("   Scheduled " +:+ pid +:+ ": " +:+ schedule)])
       (with_scheduler
          (<[pid := {| task_id := created s; task_schedule := schedule;
                       task_pluginId := pid |}]> (tasks s))
          (running s)
          (disarm (tasks s !! pid) (armed s) ∪ {[created s]})
          (S (created s)) s)).
Proof.
  intros Hok. unfold Scheduler.schedulePlugin, Scheduler.stopTask, Scheduler.setScheduler.
  rewrite Hok. run_monad. cbn.
  destruct (tasks s !! pid) as [old|] eqn:Hold; cbn.
  - by rewrite insert_delete_eq.
  - done.
Qed.

Lemma schedulePlugin_invalid_run cronValidate pid schedule s :
  cronValidate schedule = false →
  Scheduler.schedulePlugin cronValidate pid schedule s
  = (Returned (),
     with_console (console s ++ [entry WarnLevel ("Invalid cron schedule for " +:+ pid
                                                  +:+ ": " +:+ schedule)]) s).
Proof. intros Hbad. unfold Scheduler.schedulePlugin. by rewrite Hbad. Qed.

Lemma schedulerOk_install pid schedule s :
  schedulerOk s →
  schedulerOk
    (with_scheduler
       (<[pid := {| task_id := created s; task_schedule := schedule;
                    task_pluginId := pid |}]> (tasks s))
       (running s)
       (disarm (tasks s !! pid) (armed s) ∪ {[created s]})
       (S (created s)) s).
Proof.
  intros (Htask & Harmed & Hinj). unfold schedulerOk. cbn. split_and!.
  - intros q t Hq. destruct (decide (pid = q)) as [Heq|Hne].
    + subst q. rewrite lookup_insert_eq in Hq. injection Hq as <-. cbn.
      split_and!; [apply elem_of_union; right; by apply elem_of_singleton|lia|done].
    + rewrite lookup_insert_ne in Hq by done.
      destruct (Htask q t Hq) as (Ha & Hlt & Hid). split_and!; [|lia|done].
      apply elem_of_union. left. unfold disarm.
      destruct (tasks s !! pid) as [old|] eqn:Hold; [|done].
      apply elem_of_difference. split; [done|].
      intros Heq%elem_of_singleton. apply Hne. symmetry. by apply (Hinj q pid t old).
  - intros i [Hi|Hi]%elem_of_union.
    + assert (Hi' : i ∈ armed s ∧ ∀ old, tasks s !! pid = Some old → i ≠ task_id old).
      { unfold disarm in Hi. destruct (tasks s !! pid) as [old|].
        - apply elem_of_difference in Hi as [? Hne]. split; [done|].
          intros ? [= <-] ->. apply Hne. by apply elem_of_singleton.
        - split; [done|]. by intros. }
      destruct Hi' as [Hi1 Hi2]. destruct (Harmed i Hi1) as (q & t & Hq & Hid).
      exists q, t. split; [|done]. rewrite lookup_insert_ne; [done|].
      intros ->. by apply (Hi2 t).
    + apply elem_of_singleton in Hi as ->. eexists pid, _.
      rewrite lookup_insert_eq. done.
  - intros p q t u Hp Hq Hid.
    destruct (decide (pid = p)) as [Hp'|Hp']; destruct (decide (pid = q)) as [Hq'|Hq'];
      [congruence| | |].
    + subst p. rewrite lookup_insert_eq in Hp. rewrite lookup_insert_ne in Hq by done.
      injection Hp as <-. cbn in Hid. destruct (Htask q u Hq) as (_ & Hlt & _). lia.
    + subst q. rewrite lookup_insert_eq in Hq. rewrite lookup_insert_ne in Hp by done.
      injection Hq as <-. cbn in Hid. destruct (Htask p t Hp) as (_ & Hlt & _). lia.
    + rewrite lookup_insert_ne in Hp, Hq by done. by apply (Hinj p q t u).
Qed.

Lemma keeps_schedulePlugin cronValidate pid schedule :
  keeps schedulerOk (Scheduler.schedulePlugin cronValidate pid schedule).
Proof.
  intros s Hs. destruct (cronValidate schedule) eqn:Hv.
  - rewrite schedulePlugin_valid_run by done. cbn. by apply schedulerOk_install.
  - by rewrite schedulePlugin_invalid_run.
Qed.

Lemma unschedulePlugin_run pid s :
  Scheduler.unschedulePlugin pid s
  = match tasks s !! pid with
    | Some task =>
        (Returned (),
         with_console (console s ++ [entry LogLevel ("Unscheduled " +:+ pid)])
           (with_scheduler (delete pid (tasks s)) (running s)
              (armed s ∖ {[task_id task]}) (created s) s))
    | None => (Returned (), s)
    end.
Proof.
  unfold Scheduler.unschedulePlugin, Scheduler.stopTask, Scheduler.setScheduler. run_monad.
  by destruct (tasks s !! pid).
Qed.

Lemma schedulerOk_remove pid task s :
  schedulerOk s → tasks s !! pid = Some task →
  schedulerOk (with_scheduler (delete pid (tasks s)) (running s)
                 (armed s ∖ {[task_id task]}) (created s) s).
Proof.
  intros (Htask & Harmed & Hinj) Hpid. unfold schedulerOk. cbn. split_and!.
  - intros q t Hq. apply lookup_delete_Some in Hq as [Hne Hq].
    destruct (Htask q t Hq) as (Ha & Hlt & Hid). split_and!; [|done|done].
    apply elem_of_difference. split; [done|].
    intros Heq%elem_of_singleton. apply Hne. by apply (Hinj pid q task t).
  - intros i [Hi Hne]%elem_of_difference.
    destruct (Harmed i Hi) as (q & t & Hq & Hid). exists q, t. split; [|done].
    apply lookup_delete_Some. split; [|done].
    intros ->. apply Hne. apply elem_of_singleton. congruence.
  - intros p q t u [_ Hp]%lookup_delete_Some [_ Hq]%lookup_delete_Some.
    by apply (Hinj p q t u).
Qed.

Lemma keeps_unschedulePlugin pid : keeps schedulerOk (Scheduler.unschedulePlugin pid).
Proof.
  intros s Hs. rewrite unschedulePlugin_run.
  destruct (tasks s !! pid) as [task|] eqn:Hpid; [|done].
  cbn. by apply schedulerOk_remove.
Qed.

Lemma keeps_reschedulePlugin cronValidate pid schedule :
  keeps schedulerOk (Scheduler.reschedulePlugin cronValidate pid schedule).
Proof.
  pose proof schedulerOk_console. pose proof (keeps_schedulePlugin cronValidate).
  unfold Scheduler.reschedulePlugin. auto 50 with keeps nocore.
Qed.

Lemma neverThrows_schedulePlugin cronValidate pid schedule :
  neverThrows (Scheduler.schedulePlugin cronValidate pid schedule).
Proof.
  intros s. destruct (cronValidate schedule) eqn:Hv.
  - rewrite schedulePlugin_valid_run by done. by eexists.
  - rewrite schedulePlugin_invalid_run by done. by eexists.
Qed.

(** The entries of the configuration that [start] schedules. *)
Lemma start_run cronValidate s :
  running s = false →
  ∃ s1,
    forEach (λ e : string * PluginConfigYAML,
               Scheduler.schedulePlugin cronValidate e.1 (y_schedule e.2))
      (filter (λ e, y_enabled e.2 = true) (cfg_plugins (config s)))
      (with_console (console s ++ [entry LogLevel "Starting scheduler..."]) s)
    = (Returned (), s1)
    ∧ Scheduler.start cronValidate s
      = (Returned (),
         with_console (console s1 ++ [entry LogLevel ("Scheduler started with "
                                        +:+ pretty (size (tasks s1)) +:+ " scheduled tasks")])
           (with_scheduler (tasks s1) true (armed s1) (created s1) s1)).
Proof.
  intros Hstopped.
  destruct (neverThrows_forEach
              (λ e : string * PluginConfigYAML,
                 Scheduler.schedulePlugin cronValidate e.1 (y_schedule e.2))
              (filter (λ e, y_enabled e.2 = true) (cfg_plugins (config s)))
              (λ e, neverThrows_schedulePlugin cronValidate e.1 (y_schedule e.2))
              (with_console (console s ++ [entry LogLevel "Starting scheduler..."]) s))
    as [[] Hrun].
  destruct (forEach _ _ _) as [o s1] eqn:Hfor. cbn in Hrun. subst o.
  exists s1. split; [done|].
  unfold Scheduler.start, Scheduler.setScheduler. run_monad. rewrite Hstopped. cbn.
  unfold entry in Hfor. by rewrite Hfor.
Qed.

Lemma keeps_start cronValidate : keeps schedulerOk (Scheduler.start cronValidate).
Proof.
  intros s Hs. destruct (running s) eqn:Hr.
  - unfold Scheduler.start. run_monad. by rewrite Hr.
  - destruct (start_run cronValidate s Hr) as (s1 & Hfor & ->). cbn.
    assert (Hs1 : schedulerOk s1).
    { change s1 with ((Returned (), s1).2 : System). rewrite <- Hfor.
      apply keeps_forEach; [|done].
      intros e. apply keeps_schedulePlugin. }
    exact Hs1.
Qed.

Lemma stop_one_run (t : ScheduledTask) (msg : string) (s : System) :
  (Scheduler.stopTask t;; consoleLog msg) s
  = (Returned (),
     with_console (console s ++ [entry LogLevel msg])
       (with_scheduler (tasks s) (running s) (armed s ∖ {[task_id t]}) (created s) s)).
Proof. reflexivity. Qed.

Lemma stop_each_run (l : list (string * ScheduledTask)) (s : System) :
  ∃ s',
    forEach (λ e : string * ScheduledTask,
               Scheduler.stopTask e.2;; consoleLog ("   Stopped schedule for " +:+ e.1)) l s
    = (Returned (), s')
    ∧ tasks s' = tasks s ∧ running s' = running s ∧ created s' = created s
    ∧ armed s' = armed s ∖ list_to_set (task_id <$> l.*2)
    ∧ store s' = store s ∧ plugins s' = plugins s ∧ config s' = config s.
Proof.
  revert s. induction l as [|[pid t] l IH]; intros s.
  - exists s. split_and!; try done. cbn. by rewrite difference_empty_L.
  - rewrite forEach_cons. cbv beta. rewrite stop_one_run.
    match goal with |- context [forEach _ l ?s0] =>
      destruct (IH s0) as (s' & -> & Ht & Hr & Hc & Ha & Hst & Hp & Hcf) end.
    exists s'. cbn in *. split_and!; try done.
    rewrite Ha. by rewrite difference_difference_l_L.
Qed.

Lemma stop_run (s : System) :
  running s = true →
  ∃ s',
    Scheduler.stop s = (Returned (), s')
    ∧ tasks s' = ∅ ∧ running s' = false ∧ created s' = created s
    ∧ armed s' = armed s ∖ list_to_set (task_id <$> (map_to_list (tasks s)).*2)
    ∧ store s' = store s ∧ plugins s' = plugins s ∧ config s' = config s.
Proof.
  intros Hr. unfold Scheduler.stop.
  unfold mbind at 1, M_bind at 1, bind at 1. cbn [get]. rewrite Hr. cbn [negb].
  unfold mbind at 1, M_bind at 1, bind at 1.
  set (s0 := (consoleLog "Stopping scheduler..." s).2).
  change (consoleLog "Stopping scheduler..." s) with (Returned (), s0).
  cbv beta iota.
  unfold mbind at 1, M_bind at 1, bind at 1.
  destruct (stop_each_run (map_to_list (tasks s)) s0)
    as (s1 & -> & Ht & Hr1 & Hc & Ha & Hst & Hp & Hcf).
  eexists. split; [reflexivity|]. cbn. by split_and!.
Qed.

Lemma stop_disarms_everything_aux (s : System) :
  schedulerOk s → running s = true →
  ∃ s', Scheduler.stop s = (Returned (), s') ∧ tasks s' = ∅ ∧ armed s' = ∅.
Proof.
  intros (Htask & Harmed & _) Hr.
  destruct (stop_run s Hr) as (s' & -> & Ht & Hr' & Hc & Ha & Hst & Hp & Hcf).
  exists s'. split_and!; try done.
  rewrite Ha. apply set_eq. intros i. split; [|by intros ?%not_elem_of_empty].
  intros [Hi Hout]%elem_of_difference. exfalso. apply Hout.
  destruct (Harmed i Hi) as (pid & t & Hpid & <-).
  apply elem_of_list_to_set. apply list_elem_of_fmap. exists t. split; [done|].
  apply list_elem_of_fmap. exists (pid, t). split; [done|].
  by apply elem_of_map_to_list.
Qed.

(** X2. [stop] cancels every timer and forgets every task; a second [stop]
    finds nothing to do. *)
Theorem stop_disarms_everything (s : System) :
  schedulerOk s →
  running s = true →
  let s' := (Scheduler.stop s).2 in
  (Scheduler.stop s).1 = Returned ()
  ∧ tasks s' = ∅ ∧ armed s' = ∅ ∧ running s' = false
  ∧ store s' = store s ∧ plugins s' = plugins s ∧ config s' = config s
  ∧ Scheduler.stop s' = (Returned (), s').
Proof.
  intros Hok Hr.
  destruct (stop_disarms_everything_aux s Hok Hr) as (s1 & Hrun1 & _ & Hempty).
  destruct (stop_run s Hr) as (s' & Hrun & Ht & Hr' & Hc & Ha & Hst & Hp & Hcf).
  assert (s1 = s') as -> by congruence. rewrite Hrun. cbn.
  split_and!; try done.
  unfold Scheduler.stop. run_monad. by rewrite Hr'.
Qed.

Lemma schedulerOk_initial (s : System) : tasks s = ∅ → armed s = ∅ → schedulerOk s.
Proof.
  intros Ht Ha. unfold schedulerOk. rewrite Ht, Ha. split_and!.
  - intros ? ? H. by rewrite lookup_empty in H.
  - intros i Hi. by apply not_elem_of_empty in Hi.
  - intros ? ? ? ? H. by rewrite lookup_empty in H.
Qed.

(** X1. The scheduler's invariant holds before anything is scheduled and is
    kept by every operation of the scheduler: no timer is leaked, no task
    is left without its timer. *)
Theorem scheduler_never_leaks_a_timer (cronValidate : string → bool) (pid schedule : string) :
  keeps schedulerOk (Scheduler.start cronValidate)
  ∧ keeps schedulerOk Scheduler.stop
  ∧ keeps schedulerOk (Scheduler.reschedulePlugin cronValidate pid schedule)
  ∧ keeps schedulerOk (Scheduler.unschedulePlugin pid)
  ∧ ∀ s, tasks s = ∅ → armed s = ∅ → schedulerOk s.
Proof.
  split_and!.
  - apply keeps_start.
  - intros s Hs. destruct (running s) eqn:Hr.
    + destruct (stop_disarms_everything_aux s Hs Hr) as (s' & -> & Ht & Ha). cbn.
      by apply schedulerOk_initial.
    + unfold Scheduler.stop. run_monad. by rewrite Hr.
  - apply keeps_reschedulePlugin.
  - apply keeps_unschedulePlugin.
  - apply schedulerOk_initial.
Qed.

Lemma scheduler_never_leaks_a_timer_witness :
  schedulerOk (Scheduler.reschedulePlugin Sample.cronValidate "alpha" "0 * * * *"
                 (Scheduler.start Sample.cronValidate Sample.sysCount3).2).2.
Proof.
  destruct (scheduler_never_leaks_a_timer Sample.cronValidate "alpha" "0 * * * *")
    as (Hstart & _ & Hre & _ & Hinit).
  apply Hre, Hstart, Hinit; reflexivity.
Defined.

Lemma reschedulePlugin_run cronValidate pid schedule s :
  running s = true →
  Scheduler.reschedulePlugin cronValidate pid schedule s
  = Scheduler.schedulePlugin cronValidate pid schedule
      (with_console (console s ++ [entry LogLevel ("Rescheduling " +:+ pid +:+ ": " +:+ schedule)]) s).
Proof.
  intros Hr. unfold Scheduler.reschedulePlugin.
  unfold mbind at 1, M_bind at 1, bind at 1. cbn [get]. rewrite Hr. reflexivity.
Qed.

(** X3. When the scheduler is running and node-cron accepts the expression,
    [reschedulePlugin] leaves the plugin with one task on the new schedule
    and an armed timer, cancels the timer it had, and touches no other
    plugin. *)
Theorem reschedulePlugin_replaces_timer (cronValidate : string → bool)
    (pid schedule : string) (s : System) :
  schedulerOk s →
  running s = true →
  cronValidate schedule = true →
  let s' := (Scheduler.reschedulePlugin cronValidate pid schedule s).2 in
  (∃ t, tasks s' !! pid = Some t ∧ task_schedule t = schedule ∧ task_id t ∈ armed s')
  ∧ (∀ old, tasks s !! pid = Some old → task_id old ∉ armed s')
  ∧ (∀ q, q ≠ pid → tasks s' !! q = tasks s !! q)
  ∧ dom (tasks s') = {[pid]} ∪ dom (tasks s).
Proof.
  intros Hok Hr Hv s'. subst s'.
  rewrite reschedulePlugin_run, schedulePlugin_valid_run by done.
  cbn [snd tasks armed with_console with_scheduler console running created].
  destruct Hok as (Htask & _ & _). split_and!.
  - eexists. rewrite lookup_insert_eq. split_and!; [done|done|]. cbn.
    apply elem_of_union. right. by apply elem_of_singleton.
  - intros old Hold. rewrite Hold. cbn. intros [Hin|Hin]%elem_of_union.
    + apply elem_of_difference in Hin as [_ Hin]. apply Hin. by apply elem_of_singleton.
    + apply elem_of_singleton in Hin. destruct (Htask pid old Hold) as (_ & Hlt & _). lia.
  - intros q Hq. by rewrite lookup_insert_ne.
  - by rewrite dom_insert_L.
Qed.

Lemma schedulerOk_sysTicking : schedulerOk Sample.sysTicking.
Proof.
  apply keeps_start. by apply schedulerOk_initial.
Qed.

Lemma stop_disarms_everything_witness :
  let s := Sample.sysTicking in
  let s' := (Scheduler.stop s).2 in
  (Scheduler.stop s).1 = Returned ()
  ∧ tasks s' = ∅ ∧ armed s' = ∅ ∧ running s' = false
  ∧ store s' = store s ∧ plugins s' = plugins s ∧ config s' = config s
  ∧ Scheduler.stop s' = (Returned (), s').
Proof.
  apply (stop_disarms_everything Sample.sysTicking schedulerOk_sysTicking).
  vm_compute. reflexivity.
Defined.

Lemma reschedulePlugin_replaces_timer_witness :
  let s := Sample.sysTicking in
  let s' := (Scheduler.reschedulePlugin Sample.cronValidate "alpha" "0 * * * *" s).2 in
  (∃ t, tasks s' !! "alpha" = Some t ∧ task_schedule t = "0 * * * *" ∧ task_id t ∈ armed s')
  ∧ (∀ old, tasks s !! "alpha" = Some old → task_id old ∉ armed s')
  ∧ (∀ q, q ≠ "alpha" → tasks s' !! q = tasks s !! q)
  ∧ dom (tasks s') = {[ "alpha" ]} ∪ dom (tasks s).
Proof.
  apply (reschedulePlugin_replaces_timer Sample.cronValidate "alpha" "0 * * * *"
           Sample.sysTicking schedulerOk_sysTicking); vm_compute; reflexivity.
Defined.

(** X4. [unschedulePlugin] cancels the plugin's timer and forgets its task,
    leaves every other plugin's task with its timer armed, and does
    nothing at all for a plugin that has no task; so a second call changes
    nothing. *)
Theorem unschedulePlugin_removes_only_that_task (pid : string) (s : System) :
  schedulerOk s →
  let s' := (Scheduler.unschedulePlugin pid s).2 in
  (Scheduler.unschedulePlugin pid s).1 = Returned ()
  ∧ tasks s' !! pid = None
  ∧ (∀ old, tasks s !! pid = Some old → task_id old ∉ armed s')
  ∧ (∀ q t, q ≠ pid → tasks s !! q = Some t → tasks s' !! q = Some t ∧ task_id t ∈ armed s')
  ∧ (tasks s !! pid = None → s' = s)
  ∧ Scheduler.unschedulePlugin pid s' = (Returned (), s').
Proof.
  intros Hok s'. subst s'. rewrite unschedulePlugin_run.
  destruct (tasks s !! pid) as [task|] eqn:Hpid; cbn.
  - split_and!; try done.
    + by rewrite lookup_delete_eq.
    + intros old [= <-]. intros [_ Hout]%elem_of_difference.
      apply Hout. by apply elem_of_singleton.
    + intros q t Hq Hqt. rewrite lookup_delete_ne by done. split; [done|].
      destruct Hok as (Htask & _ & Hinj). apply elem_of_difference. split.
      * by destruct (Htask q t Hqt).
      * intros Heq%elem_of_singleton. apply Hq. by apply (Hinj q pid t task).
    + rewrite unschedulePlugin_run. cbn. by rewrite lookup_delete_eq.
  - split_and!; try done.
    + intros q t Hq Hqt. split; [done|]. destruct Hok as (Htask & _). by destruct (Htask q t Hqt).
    + rewrite unschedulePlugin_run. by rewrite Hpid.
Qed.

Lemma unschedulePlugin_removes_only_that_task_witness :
  let s := Sample.sysTicking in
  let s' := (Scheduler.unschedulePlugin "alpha" s).2 in
  (Scheduler.unschedulePlugin "alpha" s).1 = Returned ()
  ∧ tasks s' !! "alpha" = None
  ∧ (∀ old, tasks s !! "alpha" = Some old → task_id old ∉ armed s')
  ∧ (∀ q t, q ≠ "alpha" → tasks s !! q = Some t → tasks s' !! q = Some t ∧ task_id t ∈ armed s')
  ∧ (tasks s !! "alpha" = None → s' = s)
  ∧ Scheduler.unschedulePlugin "alpha" s' = (Returned (), s').
Proof.
  exact (unschedulePlugin_removes_only_that_task "alpha" Sample.sysTicking
           schedulerOk_sysTicking).
Defined.

Lemma NoDup_fst_functional {A B} (l : list (A * B)) (k : A) (x y : B) :
  NoDup l.*1 → (k, x) ∈ l → (k, y) ∈ l → x = y.
Proof.
  induction l as [|[k' z] l IH]; intros Hnd Hx Hy; [by apply elem_of_nil in Hx|].
  apply NoDup_cons in Hnd as [Hk Hnd]. cbn in Hk.
  apply elem_of_cons in Hx as [Hx|Hx]; apply elem_of_cons in Hy as [Hy|Hy].
  - congruence.
  - exfalso. apply Hk. apply list_elem_of_fmap. exists (k, y). split; [|done]. cbn. congruence.
  - exfalso. apply Hk. apply list_elem_of_fmap. exists (k, x). split; [|done]. cbn. congruence.
  - by apply IH.
Qed.

(** What a pass of [schedulePlugin] over the entries of an object leaves
    for one plugin id. *)
Lemma forEach_schedulePlugin_lookup cronValidate (l : list (string * PluginConfigYAML)) :
  NoDup l.*1 →
  ∀ s pid,
    let s' := (forEach (λ e : string * PluginConfigYAML,
                          Scheduler.schedulePlugin cronValidate e.1 (y_schedule e.2)) l s).2 in
    running s' = running s
    ∧ ((∃ y t, (pid, y) ∈ l ∧ cronValidate (y_schedule y) = true
               ∧ tasks s' !! pid = Some t ∧ task_schedule t = y_schedule y)
       ∨ ((∀ y, (pid, y) ∈ l → cronValidate (y_schedule y) = false)
          ∧ tasks s' !! pid = tasks s !! pid)).
Proof.
  induction l as [|[k y] l IH]; intros Hnd s pid.
  - cbn. split; [done|]. right. split; [|done]. by intros ? ?%elem_of_nil.
  - apply NoDup_cons in Hnd as [Hk Hnd]. cbn [fmap list_fmap fst] in Hk.
    rewrite forEach_cons. cbn [fst snd].
    destruct (cronValidate (y_schedule y)) eqn:Hv.
    + rewrite schedulePlugin_valid_run by done. cbv beta iota.
      match goal with |- context [forEach _ l ?s0] =>
        destruct (IH Hnd s0 pid) as [Hr Hcase] end.
      cbn zeta in *. split; [by rewrite Hr|].
      destruct Hcase as [(y' & t & Hin & Hv' & Ht & Hs)|[Hno Hsame]].
      * left. exists y', t. split_and!; try done. by apply elem_of_cons; right.
      * rewrite Hsame. cbn. destruct (decide (pid = k)) as [Heq|Hne].
        -- subst k. left. eexists y, _. rewrite lookup_insert_eq.
           split_and!; try done. by apply elem_of_cons; left.
        -- right. rewrite lookup_insert_ne by done. split; [|done].
           intros y' [[= ? ?]|Hin]%elem_of_cons; [done|]. by apply Hno.
    + rewrite schedulePlugin_invalid_run by done. cbv beta iota.
      match goal with |- context [forEach _ l ?s0] =>
        destruct (IH Hnd s0 pid) as [Hr Hcase] end.
      cbn zeta in *. split; [by rewrite Hr|].
      destruct Hcase as [(y' & t & Hin & Hv' & Ht & Hs)|[Hno Hsame]].
      * left. exists y', t. split_and!; try done. by apply elem_of_cons; right.
      * right. split; [|by rewrite Hsame].
        intros y' [[= ? ?]|Hin]%elem_of_cons; [by subst|]. by apply Hno.
Qed.

(** X5. [start] on a stopped scheduler leaves it running, with a task on the
    configured schedule for every enabled plugin whose expression node-cron
    accepts, and without a new task for any other plugin; a second [start]
    then changes no timer. *)
Theorem start_schedules_enabled_plugins (cronValidate : string → bool) (s : System) :
  running s = false →
  NoDup (cfg_plugins (config s)).*1 →
  let s' := (Scheduler.start cronValidate s).2 in
  (Scheduler.start cronValidate s).1 = Returned ()
  ∧ running s' = true
  ∧ (∀ pid y, schedulable cronValidate s pid y →
              ∃ t, tasks s' !! pid = Some t ∧ task_schedule t = y_schedule y)
  ∧ (∀ pid, (∀ y, ¬ schedulable cronValidate s pid y) → tasks s' !! pid = tasks s !! pid)
  ∧ timers (Scheduler.start cronValidate s').2 = timers s'.
Proof.
  intros Hr Hnd s'. subst s'.
  destruct (start_run cronValidate s Hr) as (s1 & Hfor & ->). cbn [fst snd].
  set (l := filter (λ e : string * PluginConfigYAML, y_enabled e.2 = true)
              (cfg_plugins (config s))) in *.
  assert (Hndl : NoDup l.*1).
  { eapply sublist_NoDup; [exact Hnd|]. apply fmap_sublist, sublist_filter. }
  assert (Hin : ∀ pid y, (pid, y) ∈ l ↔ (pid, y) ∈ cfg_plugins (config s) ∧ y_enabled y = true).
  { intros pid y. unfold l. rewrite list_elem_of_filter. cbn. tauto. }
  pose proof (forEach_schedulePlugin_lookup cronValidate l Hndl
                (with_console (console s ++ [entry LogLevel "Starting scheduler..."]) s))
    as Hlook.
  rewrite Hfor in Hlook. cbn [snd tasks with_console running] in Hlook.
  split_and!; try done.
  - intros pid y (Hy & Hen & Hv).
    destruct (Hlook pid) as [_ [(y' & t & Hy' & Hv' & Ht & Hs)|[Hno _]]].
    + exists t. split; [done|]. rewrite Hs. f_equal.
      apply Hin in Hy' as [Hy' _].
      by apply (NoDup_fst_functional (cfg_plugins (config s)) pid y' y Hnd).
    + rewrite (Hno y) in Hv; [done|]. apply Hin. done.
  - intros pid Hnone. destruct (Hlook pid) as [_ [(y' & t & Hy' & Hv' & Ht & Hs)|[_ Hsame]]].
    + exfalso. apply Hin in Hy' as [Hy' Hen]. by apply (Hnone y').
    + done.
Qed.

Lemma start_schedules_enabled_plugins_witness :
  let s := Sample.sysBatch in
  let s' := (Scheduler.start Sample.cronValidate s).2 in
  (Scheduler.start Sample.cronValidate s).1 = Returned ()
  ∧ running s' = true
  ∧ (∀ pid y, schedulable Sample.cronValidate s pid y →
              ∃ t, tasks s' !! pid = Some t ∧ task_schedule t = y_schedule y)
  ∧ (∀ pid, (∀ y, ¬ schedulable Sample.cronValidate s pid y) → tasks s' !! pid = tasks s !! pid)
  ∧ timers (Scheduler.start Sample.cronValidate s').2 = timers s'.
Proof.
  apply (start_schedules_enabled_plugins Sample.cronValidate Sample.sysBatch).
  - reflexivity.
  - apply (bool_decide_unpack _). vm_compute. exact I.
Defined.

(** ** Scheduled fetches *)

Lemma neverThrows_getPlugin pid : neverThrows (PluginManager.getPlugin pid).
Proof. unfold PluginManager.getPlugin. auto 50 with nothrow nocore. Qed.

(** X6. A scheduled run never lets an error escape into the timer: an unknown
    plugin, a refused fetch and a fetch that fails are all reported on the
    console. *)
Theorem executePlugin_never_throws (pid : string) :
  neverThrows (Scheduler.executePlugin pid).
Proof.
  pose proof (neverThrows_getPlugin pid).
  unfold Scheduler.executePlugin, Scheduler.executeBegin, Scheduler.executeSettle.
  auto 200 with nothrow nocore.
Qed.

(** ** Fetching: what a fetch leaves alone *)

Lemma keepsStore_updatePluginRun (Q : list HeadlineRow → Prop) pid e :
  keepsStore (λ d, Q (headlines d)) (PluginManager.updatePluginRun pid e).
Proof. intros s Hs. cbn. by rewrite updatePluginRun_headlines. Qed.

Lemma applyRetention_other_rows pid policy zone now d d' r :
  Database.applyRetention pid policy zone now d = inr d' →
  r ∈ headlines d → row_plugin_id r ≠ pid →
  r ∈ headlines d'.
Proof.
  intros Hswept Hin Hne. destruct policy as [n|h|]; cbn in Hswept.
  - injection Hswept as <-. cbn.
    destruct (map row_id _); apply list_elem_of_filter; split; try done.
    intros [? _]. done.
  - destruct (Database.deleteOldHeadlinesByDuration pid h zone now d)
      as [msg|swept] eqn:E; [done|]. injection Hswept as <-.
    apply deleteOldHeadlinesByDuration_inr in E as (cutoffDate & _ & ->). cbn.
    apply list_elem_of_filter. split; [|done]. intros [? _]. done.
  - by injection Hswept as <-.
Qed.

(** X7. A fetch of one plugin never deletes a headline of another plugin,
    whether the fetch succeeds, is refused or fails half-way. *)
Theorem fetch_never_deletes_other_plugins (pid : string) (s : System) (r : HeadlineRow) :
  r ∈ headlines (store s) →
  row_plugin_id r ≠ pid →
  r ∈ headlines (store (PluginManager.fetchFromPlugin pid s).2).
Proof.
  intros Hin Hne. revert s Hin.
  change (keepsStore (λ d, r ∈ headlines d) (PluginManager.fetchFromPlugin pid)).
  pose proof (keepsStore_updatePluginRun (λ l, r ∈ l) pid) as Hrun.
  assert (Hins : ∀ h, keepsStore (λ d, r ∈ headlines d) (PluginManager.insertHeadline h)).
  { intros h s Hs. rewrite insertHeadline_run.
    destruct (Database.insertHeadline h (store s)) as [msg|d] eqn:E; [done|].
    apply insertHeadline_inr in E as (_ & _ & _ & _ & ->). cbn. apply elem_of_app. by left. }
  assert (Hsweep : ∀ name policy,
            keepsStore (λ d, r ∈ headlines d)
              (PluginManager.enforceRetentionPolicy pid name policy)).
  { intros name policy s Hs.
    pose proof (enforceRetentionPolicy_run pid name policy s) as Hswept.
    destruct (Database.applyRetention pid policy (zone s) (now s) (store s))
      as [msg|d] eqn:E.
    - by rewrite Hswept.
    - destruct Hswept as [out ->]. cbn. by eapply applyRetention_other_rows. }
  assert (Hbegin : keepsStore (λ d, r ∈ headlines d) (PluginManager.fetchBegin pid)).
  { intros s Hs. rewrite fetchBegin_run. by repeat case_match. }
  unfold PluginManager.fetchFromPlugin, PluginManager.fetchSettle.
  auto 200 with storeinv nocore.
Qed.

Lemma fetch_never_deletes_other_plugins_witness :
  let beta := Database.toRow (Sample.headline "b1" "beta" 1) in
  beta ∈ headlines (store (PluginManager.fetchFromPlugin "alpha" Sample.sysCount3).2).
Proof.
  apply (fetch_never_deletes_other_plugins "alpha" Sample.sysCount3).
  - cbn. apply elem_of_cons. right. apply elem_of_cons. by left.
  - vm_compute. discriminate.
Defined.

Lemma fetchFromPlugin_failed_run pid s plugin c e :
  assoc pid (plugins s) = Some plugin →
  assoc pid (cfg_plugins (config s)) = Some c →
  y_enabled c = true →
  p_fetchHeadlines plugin
    (PluginManager.fetchContext pid (PluginManager.yamlPluginToDbPlugin pid c) s) = inl e →
  PluginManager.fetchFromPlugin pid s
  = (Threw e,
     with_store (Database.updatePluginRun pid (Some (errorMessage e)) (now s) (store s))
       (with_console (console s ++ [entry ErrorLevel ("Error fetching from " +:+ p_name plugin
                                                      +:+ ": " +:+ errorMessage e)]) s)).
Proof.
  intros Hp Hc Hen Hfail.
  unfold PluginManager.fetchFromPlugin.
  unfold mbind at 1, M_bind at 1, bind at 1.
  rewrite fetchBegin_run, Hp, Hc, Hen. cbv beta iota.
  unfold mbind at 1, M_bind at 1, bind at 1. cbn [get fst snd].
  rewrite Hfail. unfold PluginManager.fetchSettle, PluginManager.updatePluginRun.
  run_monad. reflexivity.
Qed.

(** X8. When the plugin's [fetchHeadlines] rejects, [fetchFromPlugin] rethrows
    the very same error, writes no headline, reports the failure on the
    console and records its message as the plugin's last error. *)
Theorem failed_fetch_is_recorded (pid : string) (s : System) (plugin : TopixPlugin)
    (c : PluginConfigYAML) (e : Thrown) :
  assoc pid (plugins s) = Some plugin →
  assoc pid (cfg_plugins (config s)) = Some c →
  y_enabled c = true →
  p_fetchHeadlines plugin
    (PluginManager.fetchContext pid (PluginManager.yamlPluginToDbPlugin pid c) s) = inl e →
  let s' := (PluginManager.fetchFromPlugin pid s).2 in
  (PluginManager.fetchFromPlugin pid s).1 = Threw e
  ∧ headlines (store s') = headlines (store s)
  ∧ console s' = console s ++ [entry ErrorLevel ("Error fetching from " +:+ p_name plugin
                                                 +:+ ": " +:+ errorMessage e)]
  ∧ (∀ old, plugin_configs (store s) !! pid = Some old →
       plugin_configs (store s') !! pid
       = Some {| run_last_run := Some (now s);
                 run_last_error := Database.orNullStr (Some (errorMessage e)) |})
  ∧ (∀ q, q ≠ pid → plugin_configs (store s') !! q = plugin_configs (store s) !! q).
Proof.
  intros Hp Hc Hen Hfail s'. subst s'.
  rewrite (fetchFromPlugin_failed_run pid s plugin c e) by done.
  cbn [fst snd store console with_store with_console].
  rewrite updatePluginRun_headlines. split_and!; try done.
  - intros old Hold. unfold Database.updatePluginRun. rewrite Hold. cbn.
    by rewrite lookup_insert_eq.
  - intros q Hq. unfold Database.updatePluginRun.
    destruct (plugin_configs (store s) !! pid); [|done]. cbn.
    by rewrite lookup_insert_ne.
Qed.

Lemma failed_fetch_is_recorded_witness :
  let s := Sample.sysBatch in
  let s' := (PluginManager.fetchFromPlugin "alpha" s).2 in
  (PluginManager.fetchFromPlugin "alpha" s).1 = Threw (ErrorObj "network down")
  ∧ headlines (store s') = headlines (store s)
  ∧ console s' = console s ++ [entry ErrorLevel ("Error fetching from " +:+ "alpha"
                                                 +:+ ": " +:+ "network down")]
  ∧ (∀ old, plugin_configs (store s) !! "alpha" = Some old →
       plugin_configs (store s') !! "alpha"
       = Some {| run_last_run := Some (now s);
                 run_last_error := Database.orNullStr (Some "network down") |})
  ∧ (∀ q, q ≠ "alpha" → plugin_configs (store s') !! q = plugin_configs (store s) !! q).
Proof.
  apply (failed_fetch_is_recorded "alpha" Sample.sysBatch Sample.failing
           (Sample.yaml true Sample.every5) (ErrorObj "network down")); reflexivity.
Defined.

(** X9. With the [unlimited] policy a successful fetch only adds: the table
    is the old table followed by the rows of the headlines returned, in
    the order the plugin gave them. *)
Theorem unlimited_retention_only_appends (pid : string) (plugin : TopixPlugin)
    (s s' : System) (hs : list Headline) :
  assoc pid (plugins s) = Some plugin →
  p_getRetentionPolicy plugin = RetainUnlimited →
  PluginManager.fetchFromPlugin pid s = (Returned hs, s') →
  headlines (store s') = headlines (store s) ++ map Database.toRow hs.
Proof.
  intros Hp Hpol Hrun.
  apply fetchFromPlugin_returned in Hrun
    as (plugin' & c & d1 & Hp' & _ & _ & _ & Hins & (d2 & Hsweep & ->) & _).
  rewrite Hp in Hp'. injection Hp' as <-.
  rewrite Hpol in Hsweep. cbn in Hsweep. injection Hsweep as <-.
  rewrite updatePluginRun_headlines.
  by apply insertAll_headlines.
Qed.

Lemma unlimited_retention_only_appends_witness :
  headlines (store (PluginManager.fetchFromPlugin "beta" Sample.sysBatch).2)
  = headlines (store Sample.sysBatch)
    ++ map Database.toRow [Sample.headline "b9" "beta" 50].
Proof.
  apply (unlimited_retention_only_appends "beta" Sample.working Sample.sysBatch); reflexivity.
Defined.

(** ** Discovery and the registry *)

Lemma keeps_forEach_in {A} (P : System → Prop) (f : A → M unit) (l : list A) :
  (∀ x, x ∈ l → keeps P (f x)) → keeps P (forEach f l).
Proof.
  induction l as [|x l IH]; intros Hf; [apply keeps_ret|].
  cbn. apply keeps_bind.
  - apply Hf. by apply elem_of_cons; left.
  - intros _. apply IH. intros y Hy. apply Hf. by apply elem_of_cons; right.
Qed.

Lemma keeps_whenVerbose (P : System → Prop) m :
  keeps P m → keeps P (PluginManager.whenVerbose m).
Proof. intros Hm s Hs. rewrite whenVerbose_run. destruct (verbose s); [by apply Hm|done]. Qed.

#[export] Hint Extern 2 (keeps _ (PluginManager.whenVerbose _)) =>
  apply keeps_whenVerbose : keeps.

Lemma neverThrows_whenVerbose m : neverThrows m → neverThrows (PluginManager.whenVerbose m).
Proof.
  intros Hm s. rewrite whenVerbose_run. destruct (verbose s); [apply Hm|by eexists].
Qed.

#[export] Hint Extern 2 (neverThrows (PluginManager.whenVerbose _)) =>
  apply neverThrows_whenVerbose : nothrow.

Section Discovery.

Variables builtIn user : option (list (string * ImportResult)).

Lemma registrySound_console x s :
  registrySound builtIn user s → registrySound builtIn user (with_console x s).
Proof. done. Qed.

Lemma registrySound_store d s :
  registrySound builtIn user s → registrySound builtIn user (with_store d s).
Proof. done. Qed.

Lemma registrySound_setPlugin p s :
  registrySound builtIn user s → discovered builtIn user p →
  registrySound builtIn user (PluginManager.setPlugin p s).2.
Proof.
  intros (Hb & Hu & Hok & Hall) Hp. split_and!; try done.
  - by apply registryOk_setPlugin.
  - intros e [->|He]%elem_of_mapSet; [done|by apply Hall].
Qed.

Lemma keeps_setPlugin p :
  discovered builtIn user p → keeps (registrySound builtIn user) (PluginManager.setPlugin p).
Proof. intros Hp s Hs. by apply registrySound_setPlugin. Qed.

Lemma keeps_loadBuiltInFile entry :
  entry ∈ default [] builtIn →
  keeps (registrySound builtIn user) (PluginManager.loadBuiltInFile entry).
Proof.
  intros Hin. pose proof registrySound_console as Hc.
  destruct entry as [file imported]. unfold PluginManager.loadBuiltInFile.
  destruct (_ || _) eqn:Hskip; [apply keeps_ret|].
  apply orb_false_iff in Hskip as [Hskip _]. apply orb_false_iff in Hskip as [Hskip _].
  apply orb_false_iff in Hskip as [Hskip Hex]. apply orb_false_iff in Hskip as [_ Hd].
  destruct imported as [e|x]; [auto 20 with keeps nocore|].
  destruct x as [|shape p]; [auto 20 with keeps nocore|].
  destruct (PluginManager.isValidPlugin _) eqn:Hvalid; [|auto 20 with keeps nocore].
  apply keeps_bind; [|intros; auto 20 with keeps nocore].
  apply keeps_setPlugin. exists file, shape. split; [done|]. by left.
Qed.

Lemma keeps_loadUserFile entry :
  entry ∈ default [] user →
  keeps (registrySound builtIn user) (PluginManager.loadUserFile entry).
Proof.
  intros Hin. pose proof registrySound_console as Hc.
  destruct entry as [file imported]. unfold PluginManager.loadUserFile.
  destruct (negb _) eqn:Hjs; [apply keeps_ret|]. apply negb_false_iff in Hjs.
  destruct imported as [e|x]; [auto 20 with keeps nocore|].
  destruct x as [|shape p]; [auto 20 with keeps nocore|].
  destruct (PluginManager.isValidPlugin _) eqn:Hvalid; [|auto 20 with keeps nocore].
  apply keeps_bind; [apply keeps_get|]. intros s0.
  destruct (mapHas _ _); [auto 20 with keeps nocore|].
  apply keeps_bind; [|intros; auto 20 with keeps nocore].
  apply keeps_setPlugin. exists file, shape. split; [done|]. by right.
Qed.

Lemma keeps_loadBuiltInPlugins :
  keeps (registrySound builtIn user) PluginManager.loadBuiltInPlugins.
Proof.
  intros s Hs. pose proof registrySound_console as Hc.
  unfold PluginManager.loadBuiltInPlugins.
  change ((get ≫= ?k) s) with (k s s). cbv beta.
  pose proof Hs as (Hb & _).
  destruct (builtInDir s) as [files|].
  - apply keeps_forEach_in; [|done].
    intros x Hx. apply keeps_loadBuiltInFile. by rewrite <- Hb.
  - assert (Hk : keeps (registrySound builtIn user)
                   (PluginManager.whenVerbose
                      (consoleWarn "  Built-in plugins directory not found")))
      by auto 20 with keeps nocore.
    by apply Hk.
Qed.

Lemma keeps_loadUserPlugins :
  keeps (registrySound builtIn user) PluginManager.loadUserPlugins.
Proof.
  intros s Hs. unfold PluginManager.loadUserPlugins.
  change ((get ≫= ?k) s) with (k s s). cbv beta.
  pose proof Hs as (_ & Hu & _).
  destruct (userDir s) as [files|]; [|done].
  apply keeps_forEach_in; [|done].
  intros x Hx. apply keeps_loadUserFile. by rewrite <- Hu.
Qed.

Lemma keeps_updatePluginRun pid e :
  keeps (registrySound builtIn user) (PluginManager.updatePluginRun pid e).
Proof. intros s Hs. by apply registrySound_store. Qed.

Lemma keeps_initializeEnabledPlugins :
  keeps (registrySound builtIn user) PluginManager.initializeEnabledPlugins.
Proof.
  pose proof registrySound_console as Hc. pose proof keeps_updatePluginRun as Hu.
  unfold PluginManager.initializeEnabledPlugins, PluginManager.getPluginConfigs.
  auto 50 with keeps nocore.
Qed.

Lemma keeps_initialize b :
  keeps (registrySound builtIn user) (PluginManager.initialize b).
Proof.
  pose proof registrySound_console as Hc.
  pose proof keeps_loadBuiltInPlugins. pose proof keeps_loadUserPlugins.
  pose proof keeps_initializeEnabledPlugins.
  unfold PluginManager.initialize. auto 50 with keeps nocore.
Qed.

End Discovery.

Lemma neverThrows_setPlugin p : neverThrows (PluginManager.setPlugin p).
Proof. apply neverThrows_modify. Qed.

Lemma neverThrows_updatePluginRun pid e : neverThrows (PluginManager.updatePluginRun pid e).
Proof. apply neverThrows_modify. Qed.

Lemma neverThrows_initialize b : neverThrows (PluginManager.initialize b).
Proof.
  pose proof neverThrows_setPlugin. pose proof neverThrows_updatePluginRun.
  unfold PluginManager.initialize, PluginManager.loadBuiltInPlugins,
    PluginManager.loadUserPlugins, PluginManager.initializeEnabledPlugins,
    PluginManager.getPluginConfigs.
  assert (∀ x, neverThrows (PluginManager.loadBuiltInFile x)).
  { intros [file imported]. unfold PluginManager.loadBuiltInFile.
    auto 100 with nothrow nocore. }
  assert (∀ x, neverThrows (PluginManager.loadUserFile x)).
  { intros [file imported]. unfold PluginManager.loadUserFile.
    auto 100 with nothrow nocore. }
  auto 100 with nothrow nocore.
Qed.

Lemma initialize_keeps_the_rest b s :
  let s' := (PluginManager.initialize b s).2 in
  headlines (store s') = headlines (store s) ∧ timers s' = timers s ∧ config s' = config s.
Proof.
  set (P := λ s' : System, headlines (store s') = headlines (store s)
                           ∧ timers s' = timers s ∧ config s' = config s).
  assert (Hc : ∀ x s', P s' → P (with_console x s')) by done.
  assert (Hset : ∀ p, keeps P (PluginManager.setPlugin p)) by (by intros p s').
  assert (Hrun : ∀ pid e, keeps P (PluginManager.updatePluginRun pid e)).
  { intros pid e s' (Hh & Ht & Hcfg). split_and!; try done.
    cbn. by rewrite updatePluginRun_headlines. }
  assert (Hb : ∀ x, keeps P (PluginManager.loadBuiltInFile x)).
  { intros [file imported]. unfold PluginManager.loadBuiltInFile.
    auto 100 with keeps nocore. }
  assert (Hu : ∀ x, keeps P (PluginManager.loadUserFile x)).
  { intros [file imported]. unfold PluginManager.loadUserFile.
    auto 100 with keeps nocore. }
  assert (Hk : keeps P (PluginManager.initialize b)).
  { unfold PluginManager.initialize, PluginManager.loadBuiltInPlugins,
      PluginManager.loadUserPlugins, PluginManager.initializeEnabledPlugins,
      PluginManager.getPluginConfigs.
    auto 100 with keeps nocore. }
  by apply Hk.
Qed.

(** X10. Starting from an empty registry, [initialize] always returns, and the
    registry it leaves holds only valid default exports of files that
    discovery accepts, each under its own id and no id twice. *)
Theorem initialize_registers_discovered_plugins (initializePlugins : bool) (s : System) :
  plugins s = [] →
  let s' := (PluginManager.initialize initializePlugins s).2 in
  (PluginManager.initialize initializePlugins s).1 = Returned ()
  ∧ registryOk (plugins s')
  ∧ (∀ e, e ∈ plugins s' → p_id e.2 = e.1 ∧ discovered (builtInDir s) (userDir s) e.2)
  ∧ headlines (store s') = headlines (store s)
  ∧ timers s' = timers s ∧ config s' = config s.
Proof.
  intros Hempty s'. subst s'.
  assert (Hsound : registrySound (builtInDir s) (userDir s) s).
  { split_and!; try done; rewrite Hempty; [apply registryOk_empty|].
    by intros e ?%elem_of_nil. }
  apply (keeps_initialize _ _ initializePlugins) in Hsound as (_ & _ & Hok & Hall).
  destruct (neverThrows_initialize initializePlugins s) as [[] Hret].
  split_and!; try done.
  - intros e He. split; [by apply Hok|by apply Hall].
  - by destruct (initialize_keeps_the_rest initializePlugins s) as (? & ? & ?).
  - by destruct (initialize_keeps_the_rest initializePlugins s) as (? & ? & ?).
  - by destruct (initialize_keeps_the_rest initializePlugins s) as (? & ? & ?).
Qed.

Lemma initialize_registers_discovered_plugins_witness :
  let s := Sample.sysDiscovery true in
  let s' := (PluginManager.initialize true s).2 in
  (PluginManager.initialize true s).1 = Returned ()
  ∧ registryOk (plugins s')
  ∧ (∀ e, e ∈ plugins s' → p_id e.2 = e.1 ∧ discovered (builtInDir s) (userDir s) e.2)
  ∧ headlines (store s') = headlines (store s)
  ∧ timers s' = timers s ∧ config s' = config s.
Proof.
  apply (initialize_registers_discovered_plugins true (Sample.sysDiscovery true)).
  reflexivity.
Defined.

(** ** Shutting down, and the deprecated entry points *)

Lemma bind_run {A B} (m : M A) (k : A → M B) s :
  (m ≫= k) s = match m s with
               | (Returned a, s1) => k a s1
               | (Threw e, s1) => (Threw e, s1)
               end.
Proof. unfold mbind, M_bind, bind. by destruct (m s) as [[?|?] ?]. Qed.

Lemma bind_returned {A B} (m : M A) (k : A → M B) s a s1 :
  m s = (Returned a, s1) → (m ≫= k) s = k a s1.
Proof. intros H. by rewrite bind_run, H. Qed.

(** A computation that cannot throw, seen as its result and final state. *)
Lemma neverThrows_run {A} (m : M A) s :
  neverThrows m → ∃ a, m s = (Returned a, (m s).2).
Proof. intros Hm. destruct (Hm s) as [a Ha]. exists a. destruct (m s); cbn in *; by subst. Qed.

Lemma shutdown_run s :
  ∃ s2, Lifecycle.shutdown s = (Returned (), with_plugins [] s2)
        ∧ store s2 = store s ∧ timers s2 = timers s ∧ config s2 = config s
        ∧ now s2 = now s.
Proof.
  set (P := λ s' : System, store s' = store s ∧ timers s' = timers s ∧ config s' = config s
                           ∧ now s' = now s).
  assert (Hc : ∀ x s', P s' → P (with_console x s')) by done.
  set (prefix := PluginManager.whenVerbose (consoleLog "Shutting down plugins...")).
  set (each := λ e : string * TopixPlugin,
         match p_shutdown e.2 with
         | None => PluginManager.whenVerbose (consoleLog ("  " +:+ e.1 +:+ " shut down"))
         | Some err => consoleError ("  Error shutting down " +:+ e.1 +:+ ": " +:+ shown err)
         end).
  assert (Hprefix : neverThrows prefix) by (unfold prefix; auto 20 with nothrow nocore).
  assert (Heach : ∀ e, neverThrows (each e)).
  { intros e. unfold each. auto 20 with nothrow nocore. }
  assert (Kprefix : keeps P prefix) by (unfold prefix; auto 20 with keeps nocore).
  assert (Keach : ∀ e, keeps P (each e)).
  { intros e. unfold each. auto 20 with keeps nocore. }
  destruct (neverThrows_run prefix s Hprefix) as [[] H1].
  set (s1 := (prefix s).2) in *.
  destruct (neverThrows_run (forEach each (plugins s1)) s1
              (neverThrows_forEach each _ Heach)) as [[] H2].
  set (s2 := (forEach each (plugins s1) s1).2) in *.
  exists s2. split.
  - unfold Lifecycle.shutdown. fold prefix. rewrite (bind_returned _ _ _ _ _ H1).
    change ((get ≫= ?k) s1) with (k s1 s1). cbv beta.
    fold each. by rewrite (bind_returned _ _ _ _ _ H2).
  - apply (keeps_forEach P each (plugins s1) Keach s1). by apply Kprefix.
Qed.

(** X11. [shutdown] always returns and leaves an empty registry, so that every
    later fetch is refused as not found; the store, the configuration and
    the scheduler's timers are left as they were. *)
Theorem shutdown_clears_registry (s : System) :
  let s' := (Lifecycle.shutdown s).2 in
  (Lifecycle.shutdown s).1 = Returned ()
  ∧ plugins s' = []
  ∧ store s' = store s ∧ timers s' = timers s ∧ config s' = config s
  ∧ ∀ pid, PluginManager.fetchFromPlugin pid s' = (Threw (PluginManager.notFound pid), s').
Proof.
  destruct (shutdown_run s) as (s2 & -> & Hst & Ht & Hcfg & _). cbn [fst snd].
  split_and!; done.
Qed.

(** X12. The deprecated [enablePlugin], [disablePlugin] and [updatePluginConfig]
    always throw, for a loaded plugin as for an unknown one, and change
    nothing but the console. *)
Theorem deprecated_setters_always_throw (pid : string) (s : System) :
  (∃ e, (Lifecycle.enablePlugin pid s).1 = Threw e)
  ∧ (∃ e, (Lifecycle.disablePlugin pid s).1 = Threw e)
  ∧ (∃ e, (Lifecycle.updatePluginConfig pid s).1 = Threw e)
  ∧ runtime (Lifecycle.enablePlugin pid s).2 = runtime s
  ∧ runtime (Lifecycle.disablePlugin pid s).2 = runtime s
  ∧ runtime (Lifecycle.updatePluginConfig pid s).2 = runtime s
  ∧ store (Lifecycle.enablePlugin pid s).2 = store s
  ∧ store (Lifecycle.disablePlugin pid s).2 = store s
  ∧ store (Lifecycle.updatePluginConfig pid s).2 = store s.
Proof.
  unfold Lifecycle.enablePlugin, Lifecycle.disablePlugin, Lifecycle.updatePluginConfig,
    PluginManager.getPlugin.
  run_monad. cbn.
  destruct (assoc pid (plugins s)); cbn; split_and!; try done; by eexists.
Qed.

(** ** Statistics *)

Lemma assoc_Some_elem {A} k (v : A) l : assoc k l = Some v → (k, v) ∈ l.
Proof.
  induction l as [|[k' v'] l IH]; [done|]. cbn.
  destruct (String.eqb k k') eqn:Hk.
  - apply String.eqb_eq in Hk as ->. intros [= ->]. by apply elem_of_cons; left.
  - intros H. apply elem_of_cons. right. by apply IH.
Qed.

(** The ids that the configuration enables, in its order. *)
Lemma enabledIds_keys (entries : list (string * PluginConfigYAML)) :
  map pc_pluginId
    (filter (λ c, pc_enabled c = true)
       (map snd (map (λ e, (e.1, PluginManager.yamlPluginToDbPlugin e.1 e.2)) entries)))
  = (filter (λ e : string * PluginConfigYAML, y_enabled e.2 = true) entries).*1.
Proof.
  induction entries as [|[k y] l IH]; [done|]. cbn [map fst snd].
  rewrite !filter_cons. cbn [fst snd pc_enabled PluginManager.yamlPluginToDbPlugin].
  destruct (decide (y_enabled y = true)); cbn; by rewrite IH.
Qed.

(** X13. When the keys of the configuration are distinct and every plugin it
    enables is loaded, [getPluginStats] counts as enabled exactly the
    plugins that [getEnabledPlugins] returns, and [disabled] is the number
    of the others. *)
Theorem getPluginStats_counts_enabled_plugins (s : System) :
  NoDup (cfg_plugins (config s)).*1 →
  registryOk (plugins s) →
  (∀ pid y, (pid, y) ∈ cfg_plugins (config s) → y_enabled y = true →
            is_Some (assoc pid (plugins s))) →
  ∃ stats,
    Lifecycle.getPluginStats s = (Returned stats, s)
    ∧ Lifecycle.total stats = Z.of_nat (length (plugins s))
    ∧ Lifecycle.enabled stats = Z.of_nat (length (enabledPluginsOf s))
    ∧ 0 ≤ Lifecycle.disabled stats
    ∧ Lifecycle.total stats = Lifecycle.enabled stats + Lifecycle.disabled stats.
Proof.
  intros Hnd Hok Hloaded.
  set (configs := map (λ e : string * PluginConfigYAML,
                         (e.1, PluginManager.yamlPluginToDbPlugin e.1 e.2))
                    (cfg_plugins (config s))).
  set (enabledConfigs := filter (λ c, pc_enabled c = true) (map snd configs)).
  set (ids := map pc_pluginId enabledConfigs).
  exists {| Lifecycle.total := Z.of_nat (length (plugins s));
            Lifecycle.enabled := Z.of_nat (length enabledConfigs);
            Lifecycle.disabled := Z.of_nat (length (plugins s))
                                  - Z.of_nat (length enabledConfigs) |}.
  split; [reflexivity|]. cbn [Lifecycle.total Lifecycle.enabled Lifecycle.disabled].
  assert (Hids : ids = (filter (λ e : string * PluginConfigYAML, y_enabled e.2 = true)
                          (cfg_plugins (config s))).*1) by apply enabledIds_keys.
  assert (Hperm : map p_id (enabledPluginsOf s) ≡ₚ ids).
  { apply NoDup_Permutation.
    - by apply registryOk_enabled_NoDup.
    - rewrite Hids. eapply sublist_NoDup; [exact Hnd|].
      apply fmap_sublist, sublist_filter.
    - intros x. split.
      + intros (p & -> & Hp)%list_elem_of_fmap. unfold enabledPluginsOf in Hp.
        by apply list_elem_of_filter in Hp as [Hp _].
      + intros Hx. pose proof Hx as Hx'. rewrite Hids in Hx'.
        apply list_elem_of_fmap in Hx' as ([k y] & -> & Hky).
        apply list_elem_of_filter in Hky as [Hen Hky]. cbn in Hen |- *.
        destruct (Hloaded k y Hky Hen) as [p Hp].
        apply assoc_Some_elem in Hp. destruct Hok as [_ Hkey].
        pose proof (Hkey _ Hp) as Hid. cbn in Hid.
        apply list_elem_of_fmap. exists p. split; [done|].
        unfold enabledPluginsOf. apply list_elem_of_filter. split.
        * by rewrite Hid.
        * apply list_elem_of_fmap. by exists (k, p). }
  assert (Hlen : length enabledConfigs = length (enabledPluginsOf s)).
  { rewrite <- (length_map pc_pluginId enabledConfigs). fold ids.
    rewrite <- Hperm. by rewrite length_map. }
  assert (Hle : (length (enabledPluginsOf s) ≤ length (plugins s))%nat).
  { unfold enabledPluginsOf. etrans; [apply length_filter|]. by rewrite length_map. }
  rewrite Hlen. split_and!; try done; lia.
Qed.

Lemma getPluginStats_counts_enabled_plugins_witness :
  ∃ stats,
    Lifecycle.getPluginStats Sample.sysBatch = (Returned stats, Sample.sysBatch)
    ∧ Lifecycle.total stats = Z.of_nat (length (plugins Sample.sysBatch))
    ∧ Lifecycle.enabled stats = Z.of_nat (length (enabledPluginsOf Sample.sysBatch))
    ∧ 0 ≤ Lifecycle.disabled stats
    ∧ Lifecycle.total stats = Lifecycle.enabled stats + Lifecycle.disabled stats.
Proof.
  apply (getPluginStats_counts_enabled_plugins Sample.sysBatch).
  - apply (bool_decide_unpack _). vm_compute. exact I.
  - split.
    + apply (bool_decide_unpack _). vm_compute. exact I.
    + intros e He. cbn in He.
      repeat (apply elem_of_cons in He as [->|He]; [reflexivity|]).
      by apply elem_of_nil in He.
  - intros pid y Hin _. cbn in Hin.
    repeat (apply elem_of_cons in Hin as [[= -> ->]|Hin]; [by eexists|]).
    by apply elem_of_nil in Hin.
Defined.

(** ** Reloading plugin configurations *)

Lemma with_console_app (a b : list LogEntry) (s : System) :
  with_console (console (with_console (console s ++ a) s) ++ b) (with_console (console s ++ a) s)
  = with_console (console s ++ (a ++ b)) s.
Proof. cbn. by rewrite app_assoc. Qed.

(** A loop whose body only prints: what it prints, entry by entry. *)
Lemma forEach_prints {A} (f : A → M unit) (w : A → System → nat) (l : list A) :
  (∀ x s c, w x (with_console c s) = w x s) →
  (∀ x s, ∃ out, f x s = (Returned (), with_console (console s ++ out) s)
                 ∧ length out = w x s) →
  ∀ s, ∃ out, forEach f l s = (Returned (), with_console (console s ++ out) s)
              ∧ length out = sum_list (map (λ x, w x s) l).
Proof.
  intros Hw Hf. induction l as [|x l IH]; intros s.
  - exists []. cbn. rewrite app_nil_r. by rewrite with_console_same.
  - destruct (Hf x s) as (out1 & Hx & Hlen1).
    destruct (IH (with_console (console s ++ out1) s)) as (out2 & Hl & Hlen2).
    exists (out1 ++ out2). rewrite forEach_cons, Hx, Hl. split.
    + by rewrite with_console_app.
    + rewrite length_app, Hlen1, Hlen2. cbn. f_equal. f_equal.
      apply map_ext. intros y. apply Hw.
Qed.

(** The loop of [handleConfigReload]: one line for every entry whose
    plugin is loaded, and no other effect. *)
Lemma handleConfigReload_loop (configs : list (string * PluginConfig)) (s : System) :
  ∃ lines,
    forEach (λ e : string * PluginConfig,
    s ← get;
    match assoc e.1 (plugins s) with
    | None => skip
    | Some plugin =>
        if pc_enabled e.2 then
          match p_shutdown plugin with
          | Some err => consoleError ("  Error reloading " +:+ p_name plugin +:+ ": " +:+ shown err)
          | None =>
              match p_initialize plugin e.2 with
              | Some err =>
                  consoleError ("  Error reloading " +:+ p_name plugin +:+ ": " +:+ shown err)
              | None => consoleLog ("  Reloaded plugin: " +:+ p_name plugin)
              end
          end
        else
          match p_shutdown plugin with
          | Some err => consoleError ("  Error disabling " +:+ p_name plugin +:+ ": " +:+ shown err)
          | None => consoleLog ("  Disabled plugin: " +:+ p_name plugin)
          end
    end) configs s
    = (Returned (), with_console (console s ++ lines) s)
    ∧ length lines
      = sum_list (map (λ e : string * PluginConfig,
                         match assoc e.1 (plugins s) with Some _ => 1%nat | None => 0%nat end)
                    configs).
Proof.
  apply (forEach_prints _
           (λ (e : string * PluginConfig) (s : System),
              match assoc e.1 (plugins s) with Some _ => 1%nat | None => 0%nat end));
    [done|].
  intros x s0. change ((get ≫= ?k) s0) with (k s0 s0). cbv beta.
  destruct (assoc x.1 (plugins s0)) as [plugin|].
  - destruct (pc_enabled x.2), (p_shutdown plugin); try destruct (p_initialize plugin x.2);
      eexists [_]; split; reflexivity.
  - exists []. split; [|done]. cbn. rewrite app_nil_r. by rewrite with_console_same.
Qed.

(** X14. [handleConfigReload] always returns and only prints: between its
    first and its last line there is exactly one line for every entry of
    the configuration whose plugin is loaded, also when a plugin fails to
    shut down or to initialise; the store, the registry, the configuration
    and the timers are unchanged. *)
Theorem handleConfigReload_reports_every_loaded_plugin (s : System) :
  ∃ lines,
    PluginManager.handleConfigReload s
    = (Returned (),
       with_console (console s ++ [entry LogLevel "Reloading plugin configurations..."]
                     ++ lines ++ [entry LogLevel "Plugin configuration reload complete"]) s)
    ∧ length lines
      = length (filter (λ e : string * PluginConfigYAML, is_Some (assoc e.1 (plugins s)))
                  (cfg_plugins (config s))).
Proof.
  set (configs := map (λ e : string * PluginConfigYAML,
                         (e.1, PluginManager.yamlPluginToDbPlugin e.1 e.2))
                    (cfg_plugins (config s))).
  set (s0 := with_console (console s ++ [entry LogLevel "Reloading plugin configurations..."]) s).
  destruct (handleConfigReload_loop configs s0) as (lines & Hrun & Hlen).
  exists lines. split.
  - unfold PluginManager.handleConfigReload.
    rewrite (bind_returned _ _ s () s0) by reflexivity.
    rewrite (bind_returned _ _ s0 configs s0) by reflexivity.
    rewrite (bind_returned _ _ _ _ _ Hrun).
    unfold s0, consoleLog, emit, modify, entry. cbn. by rewrite <- !app_assoc.
  - rewrite Hlen. unfold configs, s0. cbn [plugins with_console]. clear.
    induction (cfg_plugins (config s)) as [|[k y] l IH]; [done|].
    cbn [map sum_list fst snd]. rewrite filter_cons. cbn [fst].
    destruct (assoc k (plugins s)); cbn.
    + rewrite decide_True by by eexists. cbn. by rewrite IH.
    + rewrite decide_False by (by intros [? ?]). done.
Qed.

(** ** Reading and flagging headlines *)

Section QueryFacts.

Import Queries.

Lemma orderByCreatedAtDesc_perm rows : orderByCreatedAtDesc rows ≡ₚ rows.
Proof. apply stableSort_perm. Qed.

#[local] Instance byCreatedAtDesc_trans : Transitive byCreatedAtDesc.
Proof.
  intros a b c Hab Hbc. unfold byCreatedAtDesc in *. by transitivity (row_created_at b).
Qed.

#[local] Instance byCreatedAtDesc_total : Total byCreatedAtDesc.
Proof.
  intros a b. unfold byCreatedAtDesc.
  destruct (total JsDate.textLe (row_created_at a) (row_created_at b)); auto.
Qed.

Lemma orderByCreatedAtDesc_sorted rows :
  StronglySorted byCreatedAtDesc (orderByCreatedAtDesc rows).
Proof. apply stableSort_sorted; apply _. Qed.

Lemma StronglySorted_weaken {A} (R S : relation A) (l : list A) :
  (∀ x y, R x y → S x y) → StronglySorted R l → StronglySorted S l.
Proof.
  intros HRS. induction 1 as [|x l Hl IH Hx]; constructor; [done|].
  eapply Forall_impl; [exact Hx|]. intros y. apply HRS.
Qed.

Lemma StronglySorted_sublist {A} (R : relation A) (k l : list A) :
  k `sublist_of` l → StronglySorted R l → StronglySorted R k.
Proof.
  induction 1 as [|x k l Hsub IH|x k l Hsub IH]; intros Hs.
  - constructor.
  - apply StronglySorted_inv in Hs as [Hs Hall]. constructor; [by apply IH|].
    apply Forall_forall. intros y Hy. rewrite Forall_forall in Hall. apply Hall.
    by eapply elem_of_sublist.
  - apply StronglySorted_inv in Hs as [Hs _]. by apply IH.
Qed.

Lemma limit_sublist {A} n (l : list A) : Database.limit n l `sublist_of` l.
Proof. unfold Database.limit. destruct (n <? 0); [done|apply sublist_take]. Qed.

Lemma limit_length {A} n (l : list A) : 0 ≤ n → Z.of_nat (length (Database.limit n l)) ≤ n.
Proof.
  intros Hn. unfold Database.limit. destruct (Z.ltb_spec n 0); [lia|].
  rewrite length_take. lia.
Qed.

Lemma selected_spec q r :
  selected q r = true ↔
  row_archived r = default false (q_archived q)
  ∧ (∀ c, q_category q = Some c → c ≠ "" → row_category r = c)
  ∧ (∀ p, q_pluginId q = Some p → p ≠ "" → row_plugin_id r = p)
  ∧ (∀ m, q_minImportanceScore q = Some m →
          ∃ x, row_importance_score r = Some x ∧ (m <= x)%Q).
Proof.
  unfold selected. rewrite !andb_true_iff, Bool.eqb_true_iff.
  assert (Hstr : ∀ (o : option string) (v : string),
            match Database.orNullStr o with
            | Some c => String.eqb v c
            | None => true
            end = true ↔ ∀ c, o = Some c → c ≠ "" → v = c).
  { intros o v. destruct o as [c|]; cbn; [|by split].
    destruct (String.eqb_spec c "") as [->|Hne].
    - split; [|done]. by intros _ c [= <-].
    - rewrite String.eqb_eq. split; [by intros -> c' [= <-]|]. intros H. by apply H. }
  rewrite !Hstr.
  assert (Hmin : match q_minImportanceScore q with
                 | Some m => match row_importance_score r with
                             | Some x => Qle_bool m x
                             | None => false
                             end
                 | None => true
                 end = true
                 ↔ ∀ m, q_minImportanceScore q = Some m →
                        ∃ x, row_importance_score r = Some x ∧ (m <= x)%Q).
  { destruct (q_minImportanceScore q) as [m|]; [|by split].
    destruct (row_importance_score r) as [x|].
    - rewrite Qle_bool_iff. split.
      + intros Hle m' [= <-]. by exists x.
      + intros H. destruct (H m eq_refl) as (x' & [= <-] & Hle). done.
    - split; [done|]. intros H. by destruct (H m eq_refl) as (x' & [=] & _). }
  rewrite Hmin. tauto.
Qed.

End QueryFacts.

Lemma getHeadlines_rows (q : Queries.HeadlineQuery) (d : TopixDatabase) :
  Forall (λ h, ∃ r, r ∈ headlines d ∧ h = Database.rowToHeadline r
                    ∧ Queries.selected q r = true)
    (Queries.getHeadlines q d).
Proof.
  unfold Queries.getHeadlines. cbv zeta.
  set (rows := filter _ (headlines d)).
  set (page := Database.limit _ _).
  assert (Hsub : page `sublist_of` Queries.orderByCreatedAtDesc rows).
  { unfold page. etrans; [apply limit_sublist|]. apply sublist_drop. }
  apply Forall_forall. intros h (r & -> & Hr)%list_elem_of_fmap.
  assert (Hin : r ∈ rows).
  { rewrite <- (orderByCreatedAtDesc_perm rows). by eapply elem_of_sublist. }
  apply list_elem_of_filter in Hin as [Hsel Hin]. by exists r.
Qed.

Lemma getHeadlines_matching (q : Queries.HeadlineQuery) (d : TopixDatabase) :
  Forall (λ h, ∃ r, r ∈ headlines d ∧ h = Database.rowToHeadline r
                    ∧ h_archived h = default false (Queries.q_archived q)
                    ∧ (∀ c, Queries.q_category q = Some c → c ≠ "" → h_category h = c)
                    ∧ (∀ p, Queries.q_pluginId q = Some p → p ≠ "" → h_pluginId h = p)
                    ∧ (∀ m, Queries.q_minImportanceScore q = Some m →
                            (m <= h_importanceScore h)%Q))
    (Queries.getHeadlines q d).
Proof.
  eapply Forall_impl; [apply getHeadlines_rows|]. cbn beta.
  intros h (r & Hr & -> & Hsel).
  apply selected_spec in Hsel as (Ha & Hc & Hp & Hm).
  exists r. split_and!; try done.
  intros m Hq. destruct (Hm m Hq) as (x & Hx & Hle). cbn. by rewrite Hx.
Qed.

(** X15. [getHeadlines] returns only headlines of the table that pass every
    filter given (an empty category or plugin id filters nothing, a
    threshold excludes the headlines without a score), in descending order
    of the texts of their creation dates, which among dates of the years
    0000 to 9999 is newest first, and at most [limit] of them, 50 when no
    limit is given. *)
Theorem getHeadlines_returns_matching_newest_first (q : Queries.HeadlineQuery)
    (d : TopixDatabase) :
  Forall (λ h, ∃ r, r ∈ headlines d ∧ h = Database.rowToHeadline r
                    ∧ h_archived h = default false (Queries.q_archived q)
                    ∧ (∀ c, Queries.q_category q = Some c → c ≠ "" → h_category h = c)
                    ∧ (∀ p, Queries.q_pluginId q = Some p → p ≠ "" → h_pluginId h = p)
                    ∧ (∀ m, Queries.q_minImportanceScore q = Some m →
                            (m <= h_importanceScore h)%Q))
    (Queries.getHeadlines q d)
  ∧ StronglySorted (λ a b, JsDate.textLe (h_createdAt b) (h_createdAt a))
      (Queries.getHeadlines q d)
  ∧ StronglySorted (λ a b, JsDate.fourDigitYear (h_createdAt a) →
                           JsDate.fourDigitYear (h_createdAt b) →
                           h_createdAt b ≤ h_createdAt a)
      (Queries.getHeadlines q d)
  ∧ (0 ≤ default 50 (Queries.q_limit q) →
     Z.of_nat (length (Queries.getHeadlines q d)) ≤ default 50 (Queries.q_limit q))
  ∧ (default 50 (Queries.q_limit q) < 0 → default 0 (Queries.q_offset q) ≤ 0 →
     ∀ r, r ∈ headlines d → Queries.selected q r = true →
          Database.rowToHeadline r ∈ Queries.getHeadlines q d).
Proof.
  split; [apply getHeadlines_matching|].
  unfold Queries.getHeadlines. cbv zeta.
  set (rows := filter _ (headlines d)).
  set (page := Database.limit _ _).
  assert (Hsub : page `sublist_of` Queries.orderByCreatedAtDesc rows).
  { unfold page. etrans; [apply limit_sublist|]. apply sublist_drop. }
  assert (Hsorted : StronglySorted (λ a b, JsDate.textLe (h_createdAt b) (h_createdAt a))
                      (map Database.rowToHeadline page)).
  { apply (StronglySorted_fmap Database.rowToHeadline Queries.byCreatedAtDesc).
    - by intros x y.
    - eapply StronglySorted_sublist; [exact Hsub|]. apply orderByCreatedAtDesc_sorted. }
  split_and!.
  - exact Hsorted.
  - eapply StronglySorted_weaken; [|exact Hsorted]. cbn beta.
    intros a b Hle Ha Hb. by apply textLe_fourDigitYear.
  - intros Hn. rewrite length_map. by apply limit_length.
  - intros Hlim Hoff r Hr Hsel. apply list_elem_of_fmap. exists r. split; [done|].
    unfold page, Database.limit, Queries.offset.
    destruct (Z.ltb_spec (default 50 (Queries.q_limit q)) 0); [|lia].
    replace (Z.to_nat (default 0 (Queries.q_offset q))) with 0%nat by lia.
    rewrite drop_0, orderByCreatedAtDesc_perm. by apply list_elem_of_filter.
Qed.

Lemma filter_id_absent id (rows : list HeadlineRow) :
  id ∉ map row_id rows → filter (λ r, row_id r = id) rows = [].
Proof.
  induction rows as [|r rows IH]; [done|]. intros Hid. cbn [map] in Hid.
  rewrite filter_cons. rewrite decide_False.
  - apply IH. intros Hin. apply Hid. by apply elem_of_cons; right.
  - intros Heq. apply Hid. apply elem_of_cons. by left.
Qed.

Lemma filter_id_present id (rows : list HeadlineRow) :
  id ∈ map row_id rows → ∃ r, head (filter (λ r, row_id r = id) rows) = Some r.
Proof.
  induction rows as [|r rows IH]; [by intros ?%elem_of_nil|]. intros Hid. cbn [map] in Hid.
  rewrite filter_cons. destruct (decide (row_id r = id)) as [Heq|Hne]; [by eexists|].
  apply IH. apply elem_of_cons in Hid as [Hid|Hid]; [congruence|done].
Qed.

(** What is read back from a row is the headline that was written, when
    no column was emptied by [x || null] and the metadata is what its JSON
    text parses to. *)
Lemma rowToHeadline_toRow (h : Headline) :
  h_description h ≠ Some "" → h_link h ≠ Some "" → h_importanceReason h ≠ Some "" →
  (Qeq_bool (h_importanceScore h) (0 # 1) = true → h_importanceScore h = 0 # 1) →
  jsonValue (h_metadata h) = h_metadata h →
  Database.rowToHeadline (Database.toRow h) = h.
Proof.
  intros Hd Hl Hr Hs Hm. destruct h as [i p t d l pd ca c tg sc re m rd st ar]. cbn in *.
  assert (Hopt : ∀ o : option string, o ≠ Some "" →
            Database.orNullStr (Database.orNullStr o) = o).
  { intros [x|] Hx; [|done]. cbn. destruct (String.eqb_spec x "") as [->|Hne]; [done|].
    cbn. by rewrite (proj2 (String.eqb_neq x "")). }
  unfold Database.rowToHeadline, Database.toRow. cbn.
  rewrite !Hopt, Hm by done. f_equal.
  unfold Database.orNullNum. destruct (Qeq_bool sc (0 # 1)) eqn:Hz; cbn; [|done].
  symmetry. by apply Hs.
Qed.

(** A property whose value is [undefined] is not read back. *)
Example undefined_is_not_read_back :
  let h := Sample.headline "m1" "alpha" 10 in
  let tagged (m : JsVal) :=
    {| h_id := h_id h; h_pluginId := h_pluginId h; h_title := h_title h;
       h_description := h_description h; h_link := h_link h; h_pubDate := h_pubDate h;
       h_createdAt := h_createdAt h; h_category := h_category h; h_tags := h_tags h;
       h_importanceScore := h_importanceScore h;
       h_importanceReason := h_importanceReason h; h_metadata := m;
       h_read := h_read h; h_starred := h_starred h; h_archived := h_archived h |} in
  h_metadata (Database.rowToHeadline
                (Database.toRow (tagged (JObj [("source", JStr "feed"); ("draft", JUndefined);
                                               ("seen", JArr [JUndefined; JBool true])]))))
  = JObj [("source", JStr "feed"); ("seen", JArr [JNull; JBool true])].
Proof. reflexivity. Qed.

(** X16. [insertHeadline] refuses a headline when one of its dates is an
    Invalid Date, when its metadata is [undefined], or when its id is
    already in the table, and accepts it otherwise.  [getHeadlineById] then
    finds under its id the headline that its row reads as, and every other
    id reads as before.  That headline is the one written when no optional
    text is empty, the score is not a zero of another form, and the
    metadata is what its JSON text parses to. *)
Theorem insertHeadline_then_getHeadlineById (h : Headline) (d : TopixDatabase) :
  match Database.insertHeadline h d with
  | inl _ =>
      JsDate.validTime (h_pubDate h) = false ∨ JsDate.validTime (h_createdAt h) = false
      ∨ h_metadata h = JUndefined
      ∨ is_Some (Queries.getHeadlineById (h_id h) d)
  | inr d' =>
      JsDate.validTime (h_pubDate h) = true ∧ JsDate.validTime (h_createdAt h) = true
      ∧ h_metadata h ≠ JUndefined
      ∧ Queries.getHeadlineById (h_id h) d = None
      ∧ Queries.getHeadlineById (h_id h) d' = Some (Database.rowToHeadline (Database.toRow h))
      ∧ (∀ id, id ≠ h_id h → Queries.getHeadlineById id d' = Queries.getHeadlineById id d)
      ∧ (h_description h ≠ Some "" → h_link h ≠ Some "" → h_importanceReason h ≠ Some "" →
         (Qeq_bool (h_importanceScore h) (0 # 1) = true → h_importanceScore h = 0 # 1) →
         jsonValue (h_metadata h) = h_metadata h →
         Queries.getHeadlineById (h_id h) d' = Some h)
  end.
Proof.
  destruct (Database.insertHeadline h d) as [msg|d'] eqn:Hins.
  - revert Hins. unfold Database.insertHeadline, Queries.getHeadlineById.
    destruct (JsDate.validTime (h_pubDate h)); [|auto].
    destruct (JsDate.validTime (h_createdAt h)); [|auto]. cbn [negb andb].
    assert (Hid : h_id h ∈ map row_id (headlines d) →
                  is_Some (Database.rowToHeadline
                             <$> head (filter (λ r, row_id r = h_id h) (headlines d)))).
    { intros Hin. destruct (filter_id_present _ _ Hin) as [r ->]. by eexists. }
    destruct (h_metadata h); auto;
      (destruct (decide (h_id h ∈ map row_id (headlines d))) as [Hin|Hout]; [auto 6|done]).
  - apply insertHeadline_inr in Hins as (Hpub & Hcreated & Hmeta & Hout & ->).
    unfold Queries.getHeadlineById.
    cbn [headlines with_headlines]. rewrite !filter_app, (filter_id_absent _ _ Hout).
    assert (Hnew : filter (λ r, row_id r = h_id h) [Database.toRow h] = [Database.toRow h]).
    { rewrite filter_cons, decide_True by done. by rewrite filter_nil. }
    rewrite Hnew. cbn. split_and!; try done.
    + intros id Hid.
      assert (Hnone : filter (λ r, row_id r = id) [Database.toRow h] = []).
      { rewrite filter_cons, decide_False by (cbn; congruence). by rewrite filter_nil. }
      by rewrite filter_app, Hnone, app_nil_r.
    + intros. f_equal. by apply rowToHeadline_toRow.
Qed.

(** The theorem at a headline of the samples: it is accepted and read
    back as it was written. *)
Example insertHeadline_then_getHeadlineById_sample :
  let h := Sample.headline "n1" "alpha" Sample.jun2026 in
  ∃ d', Database.insertHeadline h (store Sample.sysCount3) = inr d'
        ∧ Queries.getHeadlineById "n1" d' = Some h.
Proof. eexists. split; vm_compute; reflexivity. Qed.

Lemma head_filter_map_other id id' u (rows : list HeadlineRow) :
  id' ≠ id →
  head (filter (λ r, row_id r = id')
          (map (λ r, if decide (row_id r = id) then Queries.setStatus u r else r) rows))
  = head (filter (λ r, row_id r = id') rows).
Proof.
  intros Hne. induction rows as [|r rows IH]; [done|]. cbn [map].
  rewrite !filter_cons.
  destruct (decide (row_id r = id)) as [Heq|Hneq].
  - cbn [Queries.setStatus row_id]. rewrite !decide_False by congruence. done.
  - destruct (decide (row_id r = id')); [done|]. done.
Qed.

Lemma head_filter_map_same id u (rows : list HeadlineRow) :
  head (filter (λ r, row_id r = id)
          (map (λ r, if decide (row_id r = id) then Queries.setStatus u r else r) rows))
  = Queries.setStatus u <$> head (filter (λ r, row_id r = id) rows).
Proof.
  induction rows as [|r rows IH]; [done|]. cbn [map].
  rewrite !filter_cons.
  destruct (decide (row_id r = id)) as [Heq|Hneq].
  - cbn [Queries.setStatus row_id]. rewrite decide_True by done. done.
  - rewrite decide_False by done. done.
Qed.

Lemma map_setStatus_ids id u (rows : list HeadlineRow) :
  map row_id (map (λ r, if decide (row_id r = id) then Queries.setStatus u r else r) rows)
  = map row_id rows.
Proof.
  rewrite map_map. apply map_ext. intros r. by destruct (decide (row_id r = id)).
Qed.

(** X17. [updateHeadlineStatus] changes nothing but the flags it is given, and
    only on the headline with that id: the ids of the table and every other
    headline are as before; a headline archived this way no longer appears
    in the default query. *)
Theorem updateHeadlineStatus_sets_only_named_flags (id : string)
    (u : Queries.StatusUpdates) (d : TopixDatabase) :
  let d' := Queries.updateHeadlineStatus id u d in
  map row_id (headlines d') = map row_id (headlines d)
  ∧ Queries.getHeadlineById id d' = flagged u <$> Queries.getHeadlineById id d
  ∧ (∀ id', id' ≠ id → Queries.getHeadlineById id' d' = Queries.getHeadlineById id' d)
  ∧ (Queries.u_archived u = Some true →
     ∀ q, default false (Queries.q_archived q) = false →
          Forall (λ h, h_id h ≠ id) (Queries.getHeadlines q d')).
Proof.
  intros d'.
  assert (Hflag : ∀ r, Database.rowToHeadline (Queries.setStatus u r)
                       = flagged u (Database.rowToHeadline r)) by done.
  assert (Hnoop : ∀ o : option HeadlineRow,
            Queries.u_read u = None → Queries.u_starred u = None →
            Queries.u_archived u = None →
            Database.rowToHeadline <$> o = flagged u <$> (Database.rowToHeadline <$> o)).
  { intros [r|] H1 H2 H3; [|done]. cbn. f_equal. unfold flagged. rewrite H1, H2, H3. cbn.
    by destruct r. }
  assert (Hcase : (Queries.u_read u = None ∧ Queries.u_starred u = None
                   ∧ Queries.u_archived u = None ∧ d' = d)
                  ∨ d' = with_headlines
                           (map (λ r, if decide (row_id r = id)
                                      then Queries.setStatus u r else r) (headlines d)) d).
  { unfold d', Queries.updateHeadlineStatus.
    destruct (Queries.u_read u), (Queries.u_starred u), (Queries.u_archived u); auto. }
  destruct Hcase as [(H1 & H2 & H3 & Hd)|Hd]; rewrite Hd; clear Hd d'.
  - split_and!; try done.
    + unfold Queries.getHeadlineById. by apply Hnoop.
    + intros Harch. congruence.
  - cbn [headlines with_headlines]. split_and!.
    + apply map_setStatus_ids.
    + unfold Queries.getHeadlineById. cbn [headlines with_headlines].
      rewrite head_filter_map_same. destruct (head _) as [r|]; [|done]. cbn. by rewrite Hflag.
    + intros id' Hne. unfold Queries.getHeadlineById. cbn [headlines with_headlines].
      by rewrite head_filter_map_other.
    + intros Harch q Hq.
      pose proof (getHeadlines_matching q
                  (with_headlines
                     (map (λ r, if decide (row_id r = id)
                                then Queries.setStatus u r else r) (headlines d)) d))
        as Hsound.
      eapply Forall_impl; [exact Hsound|]. cbn beta.
      intros h (r & Hr & -> & Ha & _) Hid. cbn [headlines with_headlines] in Hr.
      apply list_elem_of_fmap in Hr as (r0 & -> & _).
      destruct (decide (row_id r0 = id)) as [Heq|Hneq].
      * cbn in Ha. rewrite Harch, Hq in Ha. cbn in Ha. done.
      * by cbn in Hid.
Qed.

(** ** The credential vault: round trips and demotion *)

Section Vault.

Import AuthManager.

Lemma getAuth_run pid s :
  getAuth pid s = match Database.getAuth pid (store s) with
                  | inl msg => (Threw (ErrorObj msg), s)
                  | inr found => (Returned found, s)
                  end.
Proof. unfold getAuth. run_monad. by destruct (Database.getAuth pid (store s)). Qed.

Lemma getCredentials_run pid s :
  getCredentials pid s =
  if keychainAvailable s then
    if kc_failing (keychain s) then
      getAuth pid (demoted ("Failed to retrieve from Keychain: " +:+ shown keychainError) s)
    else
      match kc_entries (keychain s) !! pid with
      | Some (Json c) => (Returned (Some c), s)
      | Some (NotJson raw) =>
          if String.eqb raw "" then getAuth pid s
          else getAuth pid
                 (demoted ("Failed to retrieve from Keychain: "
                           +:+ shown (ErrorObj "SyntaxError: Unexpected token in JSON")) s)
      | None => getAuth pid s
      end
  else getAuth pid s.
Proof.
  unfold getCredentials, getFromKeychain, setKeychainAvailable, demoted.
  run_monad. destruct (keychainAvailable s); [|done].
  destruct (kc_failing (keychain s)); [done|].
  destruct (kc_entries (keychain s) !! pid) as [[c|raw]|]; try done.
  by destruct (String.eqb raw "").
Qed.

Lemma storeCredentials_fallback_run pid c s :
  keychainAvailable s = false ∨ kc_failing (keychain s) = true →
  ∃ out, storeCredentials pid c s
         = (Returned (),
            with_console out
              (with_store (Database.upsertAuth pid (getAuthType c) c (now s) (store s))
                 (with_keychainAvailable false s))).
Proof.
  intros Hcase. unfold storeCredentials, storeInKeychain, upsertAuth, setKeychainAvailable.
  run_monad. destruct (keychainAvailable s) eqn:Hav; cbn.
  - destruct Hcase as [?|Hf]; [done|]. rewrite Hf. cbn. by eexists.
  - eexists. unfold with_keychainAvailable. rewrite <- Hav. by destruct s.
Qed.

Lemma getAuth_upsertAuth pid t c now d :
  Database.getAuth pid (Database.upsertAuth pid t c now d) = inr (Some (jsonCredentials c)).
Proof. unfold Database.getAuth, Database.upsertAuth. cbn. by rewrite lookup_insert_eq. Qed.

Lemma getAuth_upsertAuth_ne pid q t c now d :
  q ≠ pid → Database.getAuth q (Database.upsertAuth pid t c now d) = Database.getAuth q d.
Proof.
  intros Hne. unfold Database.getAuth, Database.upsertAuth. cbn.
  by rewrite lookup_insert_ne.
Qed.

End Vault.

Lemma storeCredentials_then_getCredentials_aux pid c s :
  ∃ s1, AuthManager.storeCredentials pid c s = (Returned (), s1).
Proof.
  destruct (keychainAvailable s) eqn:Hav; [destruct (kc_failing (keychain s)) eqn:Hf|].
  - destruct (storeCredentials_fallback_run pid c s (or_intror Hf)) as [out ->]. by eexists.
  - destruct (storeCredentials_available pid c s Hav Hf) as (s1 & -> & _). by eexists.
  - destruct (storeCredentials_fallback_run pid c s (or_introl Hav)) as [out ->]. by eexists.
Qed.

Lemma getCredentials_after_fallback pid c out s :
  (AuthManager.getCredentials pid
     (with_console out
        (with_store (Database.upsertAuth pid (AuthManager.getAuthType c) c (now s) (store s))
           (with_keychainAvailable false s)))).1 = Returned (Some (jsonCredentials c)).
Proof.
  rewrite getCredentials_run. cbn. rewrite getAuth_run. cbn. by rewrite getAuth_upsertAuth.
Qed.

(** What is read back is what the JSON text of the credential parses to. *)
Lemma storeCredentials_read_back pid c s :
  (AuthManager.getCredentials pid (AuthManager.storeCredentials pid c s).2).1
  = Returned (Some (jsonCredentials c)).
Proof.
  destruct (keychainAvailable s) eqn:Hav; [destruct (kc_failing (keychain s)) eqn:Hf|].
  - destruct (storeCredentials_fallback_run pid c s (or_intror Hf)) as [out ->].
    apply getCredentials_after_fallback.
  - destruct (storeCredentials_available pid c s Hav Hf) as (s1 & Hrun & Hav1 & Hrow & Hkc).
    assert (Hf1 : kc_failing (keychain s1) = false).
    { revert Hrun. unfold AuthManager.storeCredentials, AuthManager.storeInKeychain,
        AuthManager.upsertAuth. run_monad. rewrite Hav. cbn. rewrite Hf. cbn.
      by intros [= <-]. }
    rewrite Hrun. cbn [snd]. by rewrite getCredentials_run, Hav1, Hf1, Hkc.
  - destruct (storeCredentials_fallback_run pid c s (or_introl Hav)) as [out ->].
    apply getCredentials_after_fallback.
Qed.

(** JSON leaves a credential as it is exactly when none of its fields is a
    [Date]. *)
Lemma jsonCredentials_same c :
  jsonCredentials c = c ↔ Forall (λ e, ∀ ms, e.2 ≠ CTime ms) (cred_fields c).
Proof.
  destruct c as [t fields]. unfold jsonCredentials. cbn.
  assert (Hval : ∀ v, jsonCredVal v = v ↔ ∀ ms, v ≠ CTime ms).
  { intros [x|ms|ms|]; cbn; try (split; [intros _ ms'; discriminate|done]).
    split; [|intros Hno; by destruct (Hno ms)].
    by destruct (JsDate.validTime ms). }
  split.
  - intros [= Hmap]. induction fields as [|[k v] fields IH]; [constructor|].
    cbn in Hmap. injection Hmap as Hv Hrest. constructor; [by apply Hval|by apply IH].
  - intros Hall. f_equal. induction Hall as [|[k v] fields Hv Hall IH]; [done|].
    cbn in *. apply Hval in Hv. by rewrite Hv, IH.
Qed.

(** X18. A credential that was stored is read back as its JSON text parses,
    whether it went to the keychain or, the keychain failing or given up,
    to the database: field for field the credential stored, with a [Date]
    as its ISO text and an Invalid Date as [null].  It is the credential
    stored exactly when none of its fields is a [Date]; and storing for one
    plugin does not change what is read for another. *)
Theorem storeCredentials_then_getCredentials (pid : string) (c : AuthCredentials)
    (s : System) :
  let stored := (AuthManager.storeCredentials pid c s).2 in
  (AuthManager.storeCredentials pid c s).1 = Returned ()
  ∧ (AuthManager.getCredentials pid stored).1 = Returned (Some (jsonCredentials c))
  ∧ cred_type (jsonCredentials c) = cred_type c
  ∧ map fst (cred_fields (jsonCredentials c)) = map fst (cred_fields c)
  ∧ (∀ k, assoc k (cred_fields (jsonCredentials c))
          = match assoc k (cred_fields c) with
            | Some (CTime ms) => Some (if JsDate.validTime ms then CIsoText ms else CNull)
            | other => other
            end)
  ∧ (jsonCredentials c = c ↔ Forall (λ e, ∀ ms, e.2 ≠ CTime ms) (cred_fields c))
  ∧ (AuthManager.hasCredentials pid stored).1 = Returned true
  ∧ ∀ q, q ≠ pid →
         (AuthManager.getCredentials q stored).1 = (AuthManager.getCredentials q s).1.
Proof.
  intros stored. subst stored.
  pose proof (storeCredentials_read_back pid c s) as Hback.
  split_and!.
  - by destruct (storeCredentials_then_getCredentials_aux pid c s) as [s1 ->].
  - done.
  - done.
  - unfold jsonCredentials. cbn. rewrite map_map. by apply map_ext.
  - intros k. unfold jsonCredentials. cbn.
    rewrite (assoc_map_entries (λ _ v, jsonCredVal v)).
    by destruct (assoc k (cred_fields c)) as [[x|ms|ms|]|].
  - apply jsonCredentials_same.
  - unfold AuthManager.hasCredentials. rewrite bind_run.
    destruct (AuthManager.getCredentials pid _) as [o s1]. cbn in Hback. by subst o.
  - intros q Hq.
    destruct (keychainAvailable s) eqn:Hav; [destruct (kc_failing (keychain s)) eqn:Hf|].
    + destruct (storeCredentials_fallback_run pid c s (or_intror Hf)) as [out ->].
      cbn [snd]. rewrite !getCredentials_run. cbn. rewrite Hav, Hf, !getAuth_run. cbn.
      rewrite getAuth_upsertAuth_ne by done. by destruct (Database.getAuth q (store s)).
    + destruct (storeCredentials_available pid c s Hav Hf) as (s1 & Hrun & Hav1 & _).
      assert (Hs1 : kc_failing (keychain s1) = false
                    ∧ kc_entries (keychain s1) !! q = kc_entries (keychain s) !! q
                    ∧ Database.getAuth q (store s1) = Database.getAuth q (store s)).
      { revert Hrun. unfold AuthManager.storeCredentials, AuthManager.storeInKeychain,
          AuthManager.upsertAuth. run_monad. rewrite Hav. cbn. rewrite Hf. cbn.
        intros [= <-]. cbn. rewrite lookup_insert_ne by done.
        by rewrite getAuth_upsertAuth_ne. }
      destruct Hs1 as (Hf1 & Hk & Hd). rewrite Hrun. cbn [snd].
      rewrite !getCredentials_run, Hav, Hav1, Hf, Hf1, Hk.
      destruct (kc_entries (keychain s) !! q) as [[c'|raw]|]; [done| |].
      * destruct (String.eqb raw ""); rewrite !getAuth_run; cbn; rewrite ?Hd;
          by destruct (Database.getAuth q (store s)).
      * rewrite !getAuth_run, Hd. by destruct (Database.getAuth q (store s)).
    + destruct (storeCredentials_fallback_run pid c s (or_introl Hav)) as [out ->].
      cbn [snd]. rewrite !getCredentials_run. cbn. rewrite Hav, !getAuth_run. cbn.
      rewrite getAuth_upsertAuth_ne by done. by destruct (Database.getAuth q (store s)).
Qed.

(** An OAuth2 credential stored with its expiry as a [Date] is read back
    with the expiry as text. *)
Example stored_date_is_read_back_as_text :
  let c := {| cred_type := oauth2;
              cred_fields := [("accessToken", CStr "test-access-token");
                              ("expiresAt", CTime Sample.jun2026)] |} in
  (AuthManager.getCredentials "alpha"
     (AuthManager.storeCredentials "alpha" c Sample.sysCount3).2).1
  = Returned (Some {| cred_type := oauth2;
                      cred_fields := [("accessToken", CStr "test-access-token");
                                      ("expiresAt", CIsoText Sample.jun2026)] |})
  ∧ JsDate.toISOString Sample.jun2026 = "2026-06-01T00:00:00.000Z".
Proof. split; vm_compute; reflexivity. Qed.

Lemma deleteCredentials_run pid s :
  ∃ out,
    AuthManager.deleteCredentials pid s
    = (Returned (),
       with_console (console s ++ out)
         (with_store (Database.deleteAuth pid (store s))
            (if keychainAvailable s && negb (kc_failing (keychain s))
             then with_keychain {| kc_failing := false;
                                   kc_entries := delete pid (kc_entries (keychain s)) |} s
             else s))).
Proof.
  unfold AuthManager.deleteCredentials. run_monad. unfold emit, modify.
  destruct (keychainAvailable s); cbn; [destruct (kc_failing (keychain s)); cbn|].
  - eexists [_; _]. unfold with_console, with_store. cbn.
    by rewrite <- app_assoc.
  - eexists [_; _]. unfold with_console, with_store, with_keychain. cbn.
    by rewrite <- app_assoc.
  - by eexists [_].
Qed.

Lemma getAuth_deleteAuth pid d : Database.getAuth pid (Database.deleteAuth pid d) = inr None.
Proof. unfold Database.getAuth, Database.deleteAuth. cbn. by rewrite lookup_delete_eq. Qed.

(** X19. After [deleteCredentials] nothing is read back for the plugin, as
    long as the keychain behaves as it did during the deletion.  A deletion
    that the failing keychain refused is only reported: once the keychain
    answers again, the credential it still holds is read back. *)
Theorem deleteCredentials_then_getCredentials (pid : string) (s : System) :
  let deleted := (AuthManager.deleteCredentials pid s).2 in
  (AuthManager.deleteCredentials pid s).1 = Returned ()
  ∧ (AuthManager.getCredentials pid deleted).1 = Returned None
  ∧ (AuthManager.hasCredentials pid deleted).1 = Returned false
  ∧ ∀ c, keychainAvailable s = true → kc_failing (keychain s) = true →
         kc_entries (keychain s) !! pid = Some (Json c) →
         (AuthManager.getCredentials pid (keychainRecovers deleted)).1 = Returned (Some c).
Proof.
  intros deleted. subst deleted.
  destruct (deleteCredentials_run pid s) as [out ->]. cbn [fst snd].
  assert (Hget : (AuthManager.getCredentials pid
                    (with_console (console s ++ out)
                       (with_store (Database.deleteAuth pid (store s))
                          (if keychainAvailable s && negb (kc_failing (keychain s))
                           then with_keychain
                                  {| kc_failing := false;
                                     kc_entries := delete pid (kc_entries (keychain s)) |} s
                           else s)))).1 = Returned None).
  { rewrite getCredentials_run.
    destruct (keychainAvailable s) eqn:Hav; [destruct (kc_failing (keychain s)) eqn:Hf|];
      cbn; rewrite ?Hav, ?Hf; cbn; rewrite ?lookup_delete_eq, getAuth_run; cbn;
      by rewrite getAuth_deleteAuth. }
  split_and!; [done|done| |].
  - unfold AuthManager.hasCredentials. rewrite bind_run.
    destruct (AuthManager.getCredentials pid _) as [o s1]. cbn in Hget. by subst o.
  - intros c Hav Hf Hc. rewrite getCredentials_run, Hav, Hf. cbn. by rewrite Hav, Hc.
Qed.

(** X20. Once the keychain has been given up it is never tried again: every
    operation of the vault leaves it given up and leaves its entries
    untouched, so that a deletion removes the database row only. *)
Theorem keychain_given_up_for_good
    (tokenEndpoint : string → list (string * string) → TokenReply)
    (pid : string) (c : AuthCredentials) (s : System) :
  keychainAvailable s = false →
  Forall (λ s', keychainAvailable s' = false ∧ keychain s' = keychain s)
    [(AuthManager.storeCredentials pid c s).2;
     (AuthManager.getCredentials pid s).2;
     (AuthManager.deleteCredentials pid s).2;
     (AuthManager.hasCredentials pid s).2;
     (AuthManager.refreshOAuth2Token tokenEndpoint pid s).2;
     (AuthManager.validateOAuth2Token tokenEndpoint pid s).2].
Proof.
  intros Hav.
  set (P := λ s' : System, keychainAvailable s' = false ∧ keychain s' = keychain s).
  assert (Hc : ∀ x s', P s' → P (with_console x s')) by done.
  assert (Hstore : ∀ c', keeps P (AuthManager.storeCredentials pid c')).
  { intros c' s' [Hav' Hk].
    by destruct (storeCredentials_fallback_run pid c' s' (or_introl Hav')) as [out ->]. }
  assert (Hget : keeps P (AuthManager.getCredentials pid)).
  { intros s' [Hav' Hk]. rewrite getCredentials_run, Hav', getAuth_run.
    by destruct (Database.getAuth pid (store s')). }
  assert (Hdel : keeps P (AuthManager.deleteCredentials pid)).
  { intros s' [Hav' Hk]. destruct (deleteCredentials_run pid s') as [out ->].
    by rewrite Hav'. }
  assert (Hhas : keeps P (AuthManager.hasCredentials pid)).
  { unfold AuthManager.hasCredentials. auto 20 with keeps nocore. }
  assert (Hrefresh : keeps P (AuthManager.refreshOAuth2Token tokenEndpoint pid)).
  { unfold AuthManager.refreshOAuth2Token. auto 100 with keeps nocore. }
  assert (Hvalid : keeps P (AuthManager.validateOAuth2Token tokenEndpoint pid)).
  { unfold AuthManager.validateOAuth2Token. auto 100 with keeps nocore. }
  assert (Hs : P s) by done.
  repeat apply Forall_cons_2; try apply Forall_nil_2.
  - by apply Hstore.
  - by apply Hget.
  - by apply Hdel.
  - by apply Hhas.
  - by apply Hrefresh.
  - by apply Hvalid.
Qed.

Lemma keychain_given_up_for_good_witness :
  let s := (AuthManager.getCredentials "alpha" (keychainFails Sample.sysCount3)).2 in
  Forall (λ s', keychainAvailable s' = false ∧ keychain s' = keychain s)
    [(AuthManager.storeCredentials "alpha" Sample.apiKeyCredential s).2;
     (AuthManager.getCredentials "alpha" s).2;
     (AuthManager.deleteCredentials "alpha" s).2;
     (AuthManager.hasCredentials "alpha" s).2;
     (AuthManager.refreshOAuth2Token Sample.tokenEndpoint "alpha" s).2;
     (AuthManager.validateOAuth2Token Sample.tokenEndpoint "alpha" s).2].
Proof.
  apply (keychain_given_up_for_good Sample.tokenEndpoint "alpha" Sample.apiKeyCredential).
  reflexivity.
Defined.

(** ** Refreshing OAuth2 tokens *)

(** X21. Without a refresh token [refreshOAuth2Token] gives up before any
    request is made: whatever the token endpoint would answer, the result
    is [null] and one warning is printed. *)
Theorem refresh_without_refresh_token_makes_no_request
    (tokenEndpoint : string → list (string * string) → TokenReply)
    (pid : string) (c : AuthCredentials) (s s1 : System) :
  AuthManager.getCredentials pid s = (Returned (Some c), s1) →
  cred_type c = oauth2 →
  AuthManager.textField "refreshToken" c = None →
  AuthManager.refreshOAuth2Token tokenEndpoint pid s
  = (Returned None,
     with_console (console s1 ++ [entry WarnLevel ("No refresh token available for " +:+ pid)])
       s1).
Proof.
  intros Hget Htype Hnone. unfold AuthManager.refreshOAuth2Token.
  rewrite (bind_returned _ _ _ _ _ Hget). rewrite Htype, Hnone. reflexivity.
Qed.

Lemma refresh_without_refresh_token_makes_no_request_witness :
  let c := {| cred_type := oauth2;
              cred_fields := [("accessToken", CStr "test-access-token");
                              ("refreshToken", CStr "");
                              ("expiresAt", CTime 0);
                              ("tokenUrl", CStr "https://example.com/token")] |} in
  let s := (AuthManager.storeCredentials "alpha" c Sample.sysCount3).2 in
  AuthManager.refreshOAuth2Token Sample.tokenEndpoint "alpha" s
  = (Returned None,
     with_console (console s ++ [entry WarnLevel ("No refresh token available for " +:+ "alpha")])
       s).
Proof.
  apply (refresh_without_refresh_token_makes_no_request Sample.tokenEndpoint "alpha"
           {| cred_type := oauth2;
              cred_fields := [("accessToken", CStr "test-access-token");
                              ("refreshToken", CStr "");
                              ("expiresAt", CIsoText 0);
                              ("tokenUrl", CStr "https://example.com/token")] |});
    reflexivity.
Defined.

(** The credential that a granted refresh builds. *)
Lemma refreshOAuth2Token_granted_run tokenEndpoint pid c s s1 rt url token r e :
  AuthManager.getCredentials pid s = (Returned (Some c), s1) →
  cred_type c = oauth2 →
  AuthManager.textField "refreshToken" c = Some rt →
  AuthManager.textField "tokenUrl" c = Some url →
  (∀ x, AuthManager.expiry c = AuthManager.ExpiresAt x → x - now s1 ≤ AuthManager.fiveMinutes) →
  tokenEndpoint url [("grant_type", "refresh_token"); ("refresh_token", rt);
                     ("client_id", default "" (AuthManager.textField "clientId" c));
                     ("client_secret", default "" (AuthManager.textField "clientSecret" c))]
  = TokenData token r e →
  let c' := {| cred_type := cred_type c;
               cred_fields :=
                 mapSet "expiresAt" (CTime (now s1 + e * 1000))
                   (mapSet "refreshToken"
                      (CStr match r with
                            | Some r' => if String.eqb r' "" then rt else r'
                            | None => rt
                            end)
                      (mapSet "accessToken" (CStr token) (cred_fields c))) |} in
  AuthManager.refreshOAuth2Token tokenEndpoint pid s
  = (Returned (Some c'),
     with_console (console (AuthManager.storeCredentials pid c' s1).2
                   ++ [entry LogLevel ("Refreshed OAuth2 token for " +:+ pid)])
       (AuthManager.storeCredentials pid c' s1).2).
Proof.
  intros Hget Htype Hrt Hurl Hdue Hreply c'.
  destruct c as [t fields]. cbn [cred_type cred_fields] in *. subst t.
  unfold AuthManager.refreshOAuth2Token.
  rewrite (bind_returned _ _ _ _ _ Hget). cbn [cred_type negb bool_decide].
  rewrite bool_decide_eq_true_2 by done. cbn [negb]. rewrite Hrt.
  change ((get ≫= ?k) s1) with (k s1 s1). cbv beta zeta.
  assert (Hvalid : match AuthManager.expiry {| cred_type := oauth2; cred_fields := fields |} with
                   | AuthManager.ExpiresAt expiresAt =>
                       AuthManager.fiveMinutes <? expiresAt - now s1
                   | _ => false
                   end = false).
  { destruct (AuthManager.expiry _) as [|x|] eqn:Hx; try done.
    apply Z.ltb_ge. by apply Hdue. }
  rewrite Hvalid, Hurl, Hreply. unfold tryCatch.
  change ((get ≫= ?k) s1) with (k s1 s1). cbv beta zeta. cbn [cred_type cred_fields].
  fold c'. rewrite bind_run.
  destruct (storeCredentials_then_getCredentials_aux pid c' s1) as [s2 Hs2].
  rewrite Hs2. reflexivity.
Qed.

Lemma getCredentials_console pid x s :
  (AuthManager.getCredentials pid (with_console x s)).1 = (AuthManager.getCredentials pid s).1.
Proof.
  rewrite !getCredentials_run. cbn [keychainAvailable keychain with_console].
  assert (Hdb : ∀ s' y, (AuthManager.getAuth pid (with_console y s')).1
                        = (AuthManager.getAuth pid s').1).
  { intros s' y. rewrite !getAuth_run. cbn. by destruct (Database.getAuth pid (store s')). }
  assert (Hdem : ∀ msg, (AuthManager.getAuth pid (demoted msg (with_console x s))).1
                        = (AuthManager.getAuth pid (demoted msg s)).1).
  { intros msg. rewrite !getAuth_run. cbn. by destruct (Database.getAuth pid (store s)). }
  destruct (keychainAvailable s); [|apply Hdb].
  destruct (kc_failing (keychain s)); [apply Hdem|].
  destruct (kc_entries (keychain s) !! pid) as [[c|raw]|]; [done| |apply Hdb].
  destruct (String.eqb raw ""); [apply Hdb|apply Hdem].
Qed.

(** X22. When the token endpoint grants a refresh, the credential returned
    carries the new access token and the new expiry, a [Date], keeps the
    old refresh token unless the reply brings one, and keeps every other
    field.  A later [getCredentials] reads what the JSON text of that
    credential parses to: the same fields, with the expiry as its ISO
    text, or as [null] when it is an Invalid Date. *)
Theorem granted_refresh_is_persisted
    (tokenEndpoint : string → list (string * string) → TokenReply)
    (pid : string) (c : AuthCredentials) (s s1 : System)
    (rt url token : string) (r : option string) (e : Z) :
  AuthManager.getCredentials pid s = (Returned (Some c), s1) →
  cred_type c = oauth2 →
  AuthManager.textField "refreshToken" c = Some rt →
  AuthManager.textField "tokenUrl" c = Some url →
  (∀ x, AuthManager.expiry c = AuthManager.ExpiresAt x → x - now s1 ≤ AuthManager.fiveMinutes) →
  tokenEndpoint url [("grant_type", "refresh_token"); ("refresh_token", rt);
                     ("client_id", default "" (AuthManager.textField "clientId" c));
                     ("client_secret", default "" (AuthManager.textField "clientSecret" c))]
  = TokenData token r e →
  let out := AuthManager.refreshOAuth2Token tokenEndpoint pid s in
  ∃ c', out.1 = Returned (Some c')
        ∧ cred_type c' = oauth2
        ∧ assoc "accessToken" (cred_fields c') = Some (CStr token)
        ∧ assoc "expiresAt" (cred_fields c') = Some (CTime (now s1 + e * 1000))
        ∧ assoc "refreshToken" (cred_fields c')
          = Some (CStr match r with
                       | Some r' => if String.eqb r' "" then rt else r'
                       | None => rt
                       end)
        ∧ (∀ k, k ∉ ["accessToken"; "refreshToken"; "expiresAt"] →
                assoc k (cred_fields c') = assoc k (cred_fields c))
        ∧ (AuthManager.getCredentials pid out.2).1 = Returned (Some (jsonCredentials c'))
        ∧ assoc "expiresAt" (cred_fields (jsonCredentials c'))
          = Some (if JsDate.validTime (now s1 + e * 1000)
                  then CIsoText (now s1 + e * 1000) else CNull).
Proof.
  intros Hget Htype Hrt Hurl Hdue Hreply out. subst out.
  rewrite (refreshOAuth2Token_granted_run tokenEndpoint pid c s s1 rt url token r e) by done.
  eexists. split; [reflexivity|]. cbn [fst snd cred_type cred_fields].
  split_and!.
  - done.
  - rewrite assoc_mapSet_ne by done. rewrite assoc_mapSet_ne by done.
    by rewrite assoc_mapSet_eq.
  - by rewrite assoc_mapSet_eq.
  - rewrite assoc_mapSet_ne by done. by rewrite assoc_mapSet_eq.
  - intros k Hk. rewrite !assoc_mapSet_ne; [done|..];
      intros <-; apply Hk; repeat (apply elem_of_cons; (by left) || right); done.
  - rewrite getCredentials_console.
    apply storeCredentials_read_back.
  - unfold jsonCredentials. cbn [cred_fields].
    rewrite (assoc_map_entries (λ _ v, jsonCredVal v)).
    by rewrite assoc_mapSet_eq.
Qed.

Lemma granted_refresh_is_persisted_witness :
  let out := AuthManager.refreshOAuth2Token Sample.tokenEndpoint "alpha"
               (Sample.sysWithToken 4) in
  ∃ c', out.1 = Returned (Some c')
        ∧ cred_type c' = oauth2
        ∧ assoc "accessToken" (cred_fields c') = Some (CStr "fresh-access-token")
        ∧ assoc "expiresAt" (cred_fields c') = Some (CTime (1000 + 3600 * 1000))
        ∧ assoc "refreshToken" (cred_fields c') = Some (CStr "test-refresh-token")
        ∧ (∀ k, k ∉ ["accessToken"; "refreshToken"; "expiresAt"] →
                assoc k (cred_fields c') = assoc k (cred_fields (Sample.oauth2Credential 4)))
        ∧ (AuthManager.getCredentials "alpha" out.2).1 = Returned (Some (jsonCredentials c'))
        ∧ assoc "expiresAt" (cred_fields (jsonCredentials c'))
          = Some (if JsDate.validTime (1000 + 3600 * 1000)
                  then CIsoText (1000 + 3600 * 1000) else CNull).
Proof.
  apply (granted_refresh_is_persisted Sample.tokenEndpoint "alpha" (Sample.oauth2Credential 4)
           (Sample.sysWithToken 4) (Sample.sysWithToken 4)
           "test-refresh-token" "https://example.com/token" "fresh-access-token" None 3600).
  - reflexivity.
  - reflexivity.
  - reflexivity.
  - reflexivity.
  - intros x [= <-]. vm_compute. discriminate.
  - reflexivity.
Defined.

(** X23. One keychain entry that is not JSON makes [getCredentials] give the
    keychain up for every plugin: the read falls back to the database,
    and from then on every read, also of a plugin whose keychain entry is
    sound, returns what the database holds. *)
Theorem malformed_entry_gives_up_keychain (pid raw : string) (s : System) :
  keychainAvailable s = true →
  kc_failing (keychain s) = false →
  kc_entries (keychain s) !! pid = Some (NotJson raw) →
  raw ≠ "" →
  let read := AuthManager.getCredentials pid s in
  read.1 = (AuthManager.getAuth pid s).1
  ∧ keychainAvailable read.2 = false
  ∧ keychain read.2 = keychain s
  ∧ ∀ q, (AuthManager.getCredentials q read.2).1 = (AuthManager.getAuth q s).1.
Proof.
  intros Hav Hf Hraw Hne read. subst read.
  rewrite getCredentials_run, Hav, Hf, Hraw.
  rewrite (proj2 (String.eqb_neq raw "")) by done.
  set (msg := "Failed to retrieve from Keychain: " +:+ _).
  assert (Hread : AuthManager.getAuth pid (demoted msg s)
                  = ((AuthManager.getAuth pid s).1, demoted msg s)).
  { rewrite !getAuth_run. cbn. by destruct (Database.getAuth pid (store s)). }
  rewrite Hread. cbn [fst snd]. split_and!; try done.
  intros q. rewrite getCredentials_run. cbn [keychainAvailable demoted with_keychainAvailable].
  rewrite !getAuth_run. cbn. by destruct (Database.getAuth q (store s)).
Qed.

Lemma malformed_entry_gives_up_keychain_witness :
  let s := with_keychain {| kc_failing := false;
                            kc_entries := {[ "alpha" := NotJson "invalid-json" ]} |}
             Sample.sysCount3 in
  let read := AuthManager.getCredentials "alpha" s in
  read.1 = (AuthManager.getAuth "alpha" s).1
  ∧ keychainAvailable read.2 = false
  ∧ keychain read.2 = keychain s
  ∧ ∀ q, (AuthManager.getCredentials q read.2).1 = (AuthManager.getAuth q s).1.
Proof.
  apply (malformed_entry_gives_up_keychain "alpha" "invalid-json"
           (with_keychain {| kc_failing := false;
                             kc_entries := {[ "alpha" := NotJson "invalid-json" ]} |}
              Sample.sysCount3)).
  - reflexivity.
  - reflexivity.
  - vm_compute. reflexivity.
  - discriminate.
Defined.

(** ** Watching the configuration file *)

Lemma processConfigChange_start w s :
  ConfigWatcher.processConfigChange w s
  = tryCatch
      (newConfig ← ConfigWatcher.loadConfig;
       validation ← ConfigWatcher.validateConfig newConfig;
       if negb (ConfigFile.valid validation) then
         consoleError "Config validation failed:";;
         forEach (λ error, consoleError ("   - " +:+ error)) (ConfigFile.errors validation);;
         consoleError "   Keeping existing configuration"
       else
         match ConfigWatcher.changeHandler w with
         | Some handler => handler newConfig;; consoleLog "Config reloaded successfully"
         | None => skip
         end)
      (λ error,
         consoleError ("Failed to reload config: " +:+ shown error);;
         consoleError "   Keeping existing configuration")
      (with_console (console s ++ [entry LogLevel "Config file changed, reloading..."]) s).
Proof. reflexivity. Qed.

(** X24. [processConfigChange] never throws, whatever the registered handler
    does.  With a valid document the handler is called with it: when the
    handler returns, the reload is reported as successful; when it throws,
    the failure is reported, and what the handler had done by then stays
    done. *)
Theorem valid_config_reaches_the_handler (w : ConfigWatcher.ConfigWatcher) (s : System) :
  (∃ u, (ConfigWatcher.processConfigChange w s).1 = Returned u)
  ∧ ∀ r handler,
      ConfigFile.validateConfig (configOnDisk s) = inr r →
      ConfigFile.valid r = true →
      ConfigWatcher.changeHandler w = Some handler →
      let handled :=
        handler (configOnDisk s)
          (with_console (console s ++ [entry LogLevel "Config file changed, reloading..."]) s) in
      (ConfigWatcher.processConfigChange w s).2
      = with_console
          (console handled.2
           ++ match handled.1 with
              | Returned _ => [entry LogLevel "Config reloaded successfully"]
              | Threw e => [entry ErrorLevel ("Failed to reload config: " +:+ shown e);
                            entry ErrorLevel "   Keeping existing configuration"]
              end)
          handled.2.
Proof.
  split.
  - assert (Hn : neverThrows (ConfigWatcher.processConfigChange w)).
    { unfold ConfigWatcher.processConfigChange. auto 20 with nothrow nocore. }
    apply Hn.
  - intros r handler Hvalid Hok Hh handled. subst handled.
    rewrite processConfigChange_start. unfold tryCatch.
    set (s0 := with_console _ s).
    rewrite (bind_returned _ _ s0 (configOnDisk s) s0) by reflexivity.
    assert (Hv : ConfigWatcher.validateConfig (configOnDisk s) s0 = (Returned r, s0)).
    { unfold ConfigWatcher.validateConfig. by rewrite Hvalid. }
    rewrite (bind_returned _ _ _ _ _ Hv). rewrite Hok, Hh. cbn [negb].
    rewrite bind_run.
    destruct (handler (configOnDisk s) s0) as [[[]|e] s1]; cbn [fst snd].
    + reflexivity.
    + unfold consoleError, emit, modify, entry. run_monad. cbn.
      by rewrite <- app_assoc.
Qed.

(** ** The change handler of the service *)

Section Handler.

Variable cronValidate : string → bool.
Variable asTopixConfig : JsVal → TopixConfig.

Lemma handleConfigReload_run s :
  ∃ out, PluginManager.handleConfigReload s = (Returned (), with_console (console s ++ out) s).
Proof.
  set (configs := map (λ e : string * PluginConfigYAML,
                         (e.1, PluginManager.yamlPluginToDbPlugin e.1 e.2))
                    (cfg_plugins (config s))).
  set (s0 := with_console (console s ++ [entry LogLevel "Reloading plugin configurations..."]) s).
  destruct (handleConfigReload_loop configs s0) as (lines & Hrun & _).
  exists ([entry LogLevel "Reloading plugin configurations..."] ++ lines
          ++ [entry LogLevel "Plugin configuration reload complete"]).
  unfold PluginManager.handleConfigReload.
  rewrite (bind_returned _ _ s () s0) by reflexivity.
  rewrite (bind_returned _ _ s0 configs s0) by reflexivity.
  rewrite (bind_returned _ _ _ _ _ Hrun).
  unfold s0, consoleLog, emit, modify, entry. cbn. by rewrite <- !app_assoc.
Qed.

(** What the loop over the new configuration leaves for one plugin id. *)
Lemma forEach_reschedule_lookup (l : list (string * PluginConfigYAML)) :
  NoDup l.*1 →
  ∀ s pid,
    running s = true →
    let s' := (forEach (λ e : string * PluginConfigYAML,
                          if y_enabled e.2
                          then Scheduler.reschedulePlugin cronValidate e.1 (y_schedule e.2)
                          else Scheduler.unschedulePlugin e.1) l s).2 in
    running s' = true
    ∧ store s' = store s ∧ config s' = config s ∧ plugins s' = plugins s
    ∧ match assoc pid l with
      | Some y =>
          if y_enabled y then
            if cronValidate (y_schedule y)
            then ∃ t, tasks s' !! pid = Some t ∧ task_schedule t = y_schedule y
            else tasks s' !! pid = tasks s !! pid
          else tasks s' !! pid = None
      | None => tasks s' !! pid = tasks s !! pid
      end.
Proof.
  induction l as [|[k y] l IH]; intros Hnd s pid Hr.
  - done.
  - apply NoDup_cons in Hnd as [Hk Hnd]. cbn [fmap list_fmap fst] in Hk.
    rewrite forEach_cons. cbn [fst snd].
    assert (Hfresh : assoc k l = None).
    { destruct (assoc k l) as [y'|] eqn:Hy; [|done]. exfalso. apply Hk.
      apply assoc_Some_elem in Hy. apply list_elem_of_fmap. by exists (k, y'). }
    set (step := if y_enabled y
                 then Scheduler.reschedulePlugin cronValidate k (y_schedule y)
                 else Scheduler.unschedulePlugin k).
    assert (Hstep : ∃ s1, step s = (Returned (), s1) ∧ running s1 = true
              ∧ store s1 = store s ∧ config s1 = config s ∧ plugins s1 = plugins s
              ∧ (∀ q, q ≠ k → tasks s1 !! q = tasks s !! q)
              ∧ if y_enabled y then
                  if cronValidate (y_schedule y)
                  then ∃ t, tasks s1 !! k = Some t ∧ task_schedule t = y_schedule y
                  else tasks s1 !! k = tasks s !! k
                else tasks s1 !! k = None).
    { unfold step. destruct (y_enabled y).
      - rewrite reschedulePlugin_run by done.
        destruct (cronValidate (y_schedule y)) eqn:Hv.
        + rewrite schedulePlugin_valid_run by done. eexists. split; [reflexivity|].
          cbn. split_and!; try done.
          * intros q Hq. by rewrite lookup_insert_ne.
          * eexists. by rewrite lookup_insert_eq.
        + rewrite schedulePlugin_invalid_run by done. eexists. split; [reflexivity|]. done.
      - rewrite unschedulePlugin_run. destruct (tasks s !! k) as [task|] eqn:Ht.
        + eexists. split; [reflexivity|]. cbn. split_and!; try done.
          * intros q Hq. by rewrite lookup_delete_ne.
          * by rewrite lookup_delete_eq.
        + eexists. split; [reflexivity|]. done. }
    destruct Hstep as (s1 & -> & Hr1 & Hst1 & Hc1 & Hp1 & Hother & Hk1).
    destruct (IH Hnd s1 pid Hr1) as (Hr' & Hst' & Hc' & Hp' & Hcase). cbn zeta in *.
    split_and!; try congruence.
    cbn [assoc]. destruct (String.eqb_spec pid k) as [->|Hne].
    + rewrite Hfresh in Hcase. rewrite Hcase.
      destruct (y_enabled y); [destruct (cronValidate (y_schedule y))|]; done.
    + destruct (assoc pid l) as [y'|]; [|by rewrite Hcase, Hother].
      destruct (y_enabled y'); [destruct (cronValidate (y_schedule y'))|]; try done.
      by rewrite Hcase, Hother.
Qed.

Lemma neverThrows_reschedulePlugin pid schedule :
  neverThrows (Scheduler.reschedulePlugin cronValidate pid schedule).
Proof.
  pose proof (neverThrows_schedulePlugin cronValidate).
  unfold Scheduler.reschedulePlugin. auto 20 with nothrow nocore.
Qed.

Lemma neverThrows_unschedulePlugin pid : neverThrows (Scheduler.unschedulePlugin pid).
Proof. intros s. rewrite unschedulePlugin_run. destruct (tasks s !! pid); by eexists. Qed.

Lemma onConfigChange_run doc s :
  ∃ out,
    let s0 := with_console (console s ++ out) (with_config (asTopixConfig (configOnDisk s)) s) in
    let loop := forEach (λ e : string * PluginConfigYAML,
                           if y_enabled e.2
                           then Scheduler.reschedulePlugin cronValidate e.1 (y_schedule e.2)
                           else Scheduler.unschedulePlugin e.1)
                  (cfg_plugins (asTopixConfig (configOnDisk s))) in
    ServiceManager.onConfigChange cronValidate asTopixConfig doc s = (Returned (), (loop s0).2).
Proof.
  unfold ServiceManager.onConfigChange, ServiceManager.reload.
  set (s1 := with_console (console s ++ [entry LogLevel "Config file changed, reloading..."]) s).
  set (s2 := with_console (console s1 ++ [entry LogLevel "Configuration reloaded from file"])
               (with_config (asTopixConfig (configOnDisk s1)) s1)).
  destruct (handleConfigReload_run s2) as [out Hreload].
  exists ([entry LogLevel "Config file changed, reloading...";
           entry LogLevel "Configuration reloaded from file"] ++ out).
  cbv zeta.
  rewrite (bind_returned _ _ s () s1) by reflexivity.
  rewrite (bind_returned _ _ s1 () s2) by reflexivity.
  rewrite (bind_returned _ _ _ _ _ Hreload).
  change ((get ≫= ?k) ?x) with (k x x). cbv beta.
  assert (Hs : with_console (console s2 ++ out) s2
               = with_console
                   (console s ++
                    [entry LogLevel "Config file changed, reloading...";
                     entry LogLevel "Configuration reloaded from file"] ++ out)
                   (with_config (asTopixConfig (configOnDisk s)) s)).
  { unfold s2, s1, with_console, with_config. cbn. by rewrite <- !app_assoc. }
  rewrite Hs. cbn [config with_console with_config cfg_plugins].
  match goal with |- forEach ?f ?l ?x = _ =>
    destruct (neverThrows_run (forEach f l) x) as [[] Hrun] end.
  { apply neverThrows_forEach. intros e. destruct (y_enabled e.2);
      [apply neverThrows_reschedulePlugin|apply neverThrows_unschedulePlugin]. }
  exact Hrun.
Qed.

End Handler.

(** X25. On a running scheduler the change handler of the service applies
    the new configuration and brings the timers in line with it: a
    disabled plugin loses its task, an enabled plugin gets a task on its new
    schedule when node-cron accepts the expression and keeps what it had
    otherwise.  A plugin that the new configuration no longer lists keeps
    its task. *)
Theorem onConfigChange_brings_timers_in_line (cronValidate : string → bool)
    (asTopixConfig : JsVal → TopixConfig) (doc : JsVal) (s : System) :
  schedulerOk s →
  running s = true →
  NoDup (cfg_plugins (asTopixConfig (configOnDisk s))).*1 →
  let s' := (ServiceManager.onConfigChange cronValidate asTopixConfig doc s).2 in
  (ServiceManager.onConfigChange cronValidate asTopixConfig doc s).1 = Returned ()
  ∧ config s' = asTopixConfig (configOnDisk s)
  ∧ schedulerOk s'
  ∧ store s' = store s ∧ plugins s' = plugins s
  ∧ ∀ pid,
      match assoc pid (cfg_plugins (config s')) with
      | Some y =>
          if y_enabled y then
            if cronValidate (y_schedule y)
            then ∃ t, tasks s' !! pid = Some t ∧ task_schedule t = y_schedule y
            else tasks s' !! pid = tasks s !! pid
          else tasks s' !! pid = None
      | None => tasks s' !! pid = tasks s !! pid
      end.
Proof.
  intros Hok Hr Hnd s'. subst s'.
  destruct (onConfigChange_run cronValidate asTopixConfig doc s) as [out Hrun].
  cbv zeta in Hrun. rewrite Hrun. cbn [fst snd].
  set (s0 := with_console (console s ++ out) (with_config (asTopixConfig (configOnDisk s)) s)).
  set (l := cfg_plugins (asTopixConfig (configOnDisk s))) in *.
  pose proof (λ pid, forEach_reschedule_lookup cronValidate l Hnd s0 pid Hr) as Hlook.
  cbv zeta in Hlook.
  destruct (Hlook "") as (_ & Hst & Hc & Hp & _).
  split_and!; try done.
  - apply keeps_forEach; [|done]. intros e. destruct (y_enabled e.2);
      [apply keeps_reschedulePlugin|apply keeps_unschedulePlugin].
  - intros pid. destruct (Hlook pid) as (_ & _ & _ & _ & Hcase).
    rewrite Hc. exact Hcase.
Qed.

Lemma onConfigChange_brings_timers_in_line_witness :
  let s := Sample.onDisk (Sample.document (1 # 2)) Sample.sysTicking in
  let s' := (ServiceManager.onConfigChange Sample.cronValidate Sample.asTopixConfig
               (Sample.document (1 # 2)) s).2 in
  (ServiceManager.onConfigChange Sample.cronValidate Sample.asTopixConfig
     (Sample.document (1 # 2)) s).1 = Returned ()
  ∧ config s' = Sample.asTopixConfig (configOnDisk s)
  ∧ schedulerOk s'
  ∧ store s' = store s ∧ plugins s' = plugins s
  ∧ ∀ pid,
      match assoc pid (cfg_plugins (config s')) with
      | Some y =>
          if y_enabled y then
            if Sample.cronValidate (y_schedule y)
            then ∃ t, tasks s' !! pid = Some t ∧ task_schedule t = y_schedule y
            else tasks s' !! pid = tasks s !! pid
          else tasks s' !! pid = None
      | None => tasks s' !! pid = tasks s !! pid
      end.
Proof.
  apply (onConfigChange_brings_timers_in_line Sample.cronValidate Sample.asTopixConfig
           (Sample.document (1 # 2))
           (Sample.onDisk (Sample.document (1 # 2)) Sample.sysTicking)).
  - exact schedulerOk_sysTicking.
  - vm_compute. reflexivity.
  - apply (bool_decide_unpack _). vm_compute. exact I.
Defined.

(** ** Validating a configuration document *)

Section Validation.

Import ConfigFile.

Lemma validateEntries_throws entries e :
  validateEntries entries = inl e → ∃ pluginId, (pluginId, JNull) ∈ entries.
Proof.
  revert e. induction entries as [|[k p] l IH]; intros e; [done|]. cbn [validateEntries].
  destruct (negb (isObject p)) eqn:Hobj.
  - destruct (validateEntries l) as [e'|more] eqn:Hl; [|done].
    intros _. destruct (IH e' eq_refl) as [id Hid]. exists id. by apply elem_of_cons; right.
  - destruct p; try (destruct (validateEntries l) as [e'|more] eqn:Hl; [|done];
                     intros _; destruct (IH e' eq_refl) as [id Hid]; exists id;
                     by apply elem_of_cons; right).
    intros _. exists k. by apply elem_of_cons; left.
Qed.

Lemma validateEntries_null entries pluginId :
  (pluginId, JNull) ∈ entries → ∃ e, validateEntries entries = inl e.
Proof.
  induction entries as [|[k p] l IH]; [by intros ?%elem_of_nil|].
  intros [[= <- <-]|Hin]%elem_of_cons; cbn [validateEntries].
  - cbn. by eexists.
  - destruct (IH Hin) as [e ->].
    destruct (negb (isObject p)); [by eexists|]. destruct p; by eexists.
Qed.

(** An entry that passes every check of the loop. *)
Lemma validateEntries_clean entries :
  validateEntries entries = inr [] →
  ∀ pluginId p, (pluginId, p) ∈ entries →
    isObject p = true
    ∧ (getProp p "enabled" = JUndefined ∨ ∃ b, getProp p "enabled" = JBool b)
    ∧ (truthy (getProp p "schedule") = true → ∃ text, getProp p "schedule" = JStr text)
    ∧ (truthy (getProp p "config") = true → isObject (getProp p "config") = true).
Proof.
  induction entries as [|[k p] l IH]; [by intros _ ? ? ?%elem_of_nil|].
  cbn [validateEntries]. intros Hrun id p' Hin.
  destruct (negb (isObject p)) eqn:Hobj.
  { destruct (validateEntries l); [done|]. by injection Hrun. }
  apply negb_false_iff in Hobj.
  assert (Hhere : validatePlugin k p = [] ∧ validateEntries l = inr []).
  { destruct p; destruct (validateEntries l) as [?|more]; try done;
      injection Hrun as Hrun; by apply app_eq_nil in Hrun as [? ->]. }
  destruct Hhere as [Hp Hl].
  apply elem_of_cons in Hin as [[= -> ->]|Hin]; [|by apply (IH Hl id)].
  unfold validatePlugin in Hp.
  apply app_eq_nil in Hp as [Hen Hp]. apply app_eq_nil in Hp as [Hsched Hconf].
  split_and!; [done| | |].
  - destruct (getProp p "enabled"); try done; [by left|right; by eexists].
  - intros Ht. rewrite Ht in Hsched. cbn in Hsched.
    destruct (getProp p "schedule"); try done. by eexists.
  - intros Ht. rewrite Ht in Hconf. cbn in Hconf.
    by destruct (isObject (getProp p "config")).
Qed.

End Validation.

(** X26. [validateConfig] throws exactly when the document is an object whose
    [plugins] object has a [null] entry.  When it returns, [valid] says that
    no error was found, and for a valid document the threshold, if given, is
    a number between 0 and 1, and every entry of [plugins] is an object whose
    [enabled], if present, is a boolean and whose [schedule], if given, is
    text. *)
Theorem validateConfig_accepts_and_throws (doc : JsVal) :
  ((∃ e, ConfigFile.validateConfig doc = inl e)
   ↔ truthy doc = true ∧ ConfigFile.isObject doc = true
     ∧ ConfigFile.isObject (getProp doc "plugins") = true
     ∧ ∃ pluginId, (pluginId, JNull) ∈ objectEntries (getProp doc "plugins"))
  ∧ ∀ r, ConfigFile.validateConfig doc = inr r →
      (ConfigFile.valid r = true ↔ ConfigFile.errors r = [])
      ∧ (ConfigFile.valid r = true →
         (truthy (getProp (getProp doc "importance") "defaultThreshold") = true →
          ∃ q, getProp (getProp doc "importance") "defaultThreshold" = JNum q
               ∧ (0 <= q)%Q ∧ (q <= 1)%Q)
         ∧ ∀ pluginId p, (pluginId, p) ∈ objectEntries (getProp doc "plugins") →
             ConfigFile.isObject p = true
             ∧ (getProp p "enabled" = JUndefined ∨ ∃ b, getProp p "enabled" = JBool b)
             ∧ (truthy (getProp p "schedule") = true →
                ∃ text, getProp p "schedule" = JStr text)).
Proof.
  unfold ConfigFile.validateConfig, ConfigFile.validatePlugins.
  split.
  - split.
    + intros [e He]. destruct (negb (truthy doc) || negb (ConfigFile.isObject doc)) eqn:Hdoc;
        [done|].
      apply orb_false_iff in Hdoc as [Ht Ho].
      apply negb_false_iff in Ht. apply negb_false_iff in Ho.
      destruct (truthy (getProp doc "plugins")) eqn:Hp; [|done].
      destruct (negb (ConfigFile.isObject (getProp doc "plugins"))) eqn:Hpo; [done|].
      apply negb_false_iff in Hpo.
      destruct (ConfigFile.validateEntries _) as [e'|errs] eqn:Hv; [|done].
      split_and!; try done. by eapply validateEntries_throws.
    + intros (Ht & Ho & Hpo & id & Hid). rewrite Ht, Ho. cbn [negb orb].
      assert (Hp : truthy (getProp doc "plugins") = true).
      { destruct (getProp doc "plugins") as [| | | | text|items|props]; try done;
          try by apply elem_of_nil in Hid. }
      rewrite Hp, Hpo. cbn [negb].
      destruct (validateEntries_null _ _ Hid) as [e ->]. by eexists.
  - intros r. destruct (negb (truthy doc) || negb (ConfigFile.isObject doc)) eqn:Hdoc.
    { intros [= <-]. cbn. split; [done|]. done. }
    destruct (if truthy (getProp doc "plugins") then _ else _) as [e|pluginErrors] eqn:Hpl;
      [done|].
    intros [= <-]. cbn [ConfigFile.valid ConfigFile.errors].
    rewrite bool_decide_eq_true, length_zero_iff_nil. split; [done|].
    intros Hnil.
    apply app_eq_nil in Hnil as [_ Hnil]. apply app_eq_nil in Hnil as [Himp Hnil].
    apply app_eq_nil in Hnil as [_ Hplug]. subst pluginErrors. split.
    + intros Ht. unfold ConfigFile.validateImportance in Himp.
      destruct (truthy (getProp doc "importance")) eqn:Hi.
      * destruct (negb (ConfigFile.isObject (getProp doc "importance"))); [done|].
        rewrite Ht in Himp. cbn [andb] in Himp.
        destruct (getProp (getProp doc "importance") "defaultThreshold") as [| | |q| | |];
          try done.
        cbn in Himp. destruct (Qle_bool 0 q) eqn:H0; [|done].
        destruct (Qle_bool q 1) eqn:H1; [|done].
        exists q. split_and!; [done| |]; by apply Qle_bool_iff.
      * by destruct (getProp doc "importance").
    + intros id p Hin.
      destruct (truthy (getProp doc "plugins")) eqn:Hp.
      * destruct (negb (ConfigFile.isObject (getProp doc "plugins"))); [done|].
        destruct (validateEntries_clean _ Hpl id p Hin) as (? & ? & ? & _). done.
      * destruct (getProp doc "plugins") as [| |b|q|text| |]; try done;
          try by apply elem_of_nil in Hin.
        -- cbn in Hp. apply negb_false_iff, String.eqb_eq in Hp. subst text.
           by apply elem_of_nil in Hin.
Qed.

(** ** Escaping text for the feed *)

Lemma append_assoc (x y z : string) : (x +:+ y) +:+ z = x +:+ (y +:+ z).
Proof. induction x as [|a x IH]; [done|]. by rewrite !append_cons, IH. Qed.

Lemma replaceAll_app c replacement x y :
  Feed.replaceAll c replacement (x +:+ y)
  = Feed.replaceAll c replacement x +:+ Feed.replaceAll c replacement y.
Proof.
  induction x as [|a x IH]; [done|]. rewrite append_cons. cbn [Feed.replaceAll]. rewrite IH.
  destruct (Ascii.eqb a c); [|done]. by rewrite append_assoc.
Qed.

Lemma escapeXml_app x y : Feed.escapeXml (x +:+ y) = Feed.escapeXml x +:+ Feed.escapeXml y.
Proof. unfold Feed.escapeXml. by rewrite !replaceAll_app. Qed.

Lemma escapeXml_single a : Feed.escapeXml (String a EmptyString) = entity a.
Proof.
  unfold Feed.escapeXml, entity. cbn [Feed.replaceAll].
  destruct (Ascii.eqb a Feed.ampersand) eqn:H1; [done|]. cbn [Feed.replaceAll].
  destruct (Ascii.eqb a Feed.lessThan) eqn:H2; [done|]. cbn [Feed.replaceAll].
  destruct (Ascii.eqb a Feed.greaterThan) eqn:H3; [done|]. cbn [Feed.replaceAll].
  destruct (Ascii.eqb a Feed.doubleQuote) eqn:H4; [done|]. cbn [Feed.replaceAll].
  by destruct (Ascii.eqb a Feed.apostrophe) eqn:H5.
Qed.

Lemma escapeXml_cons a s : Feed.escapeXml (String a s) = entity a +:+ Feed.escapeXml s.
Proof.
  change (String a s) with (String a EmptyString +:+ s).
  by rewrite escapeXml_app, escapeXml_single.
Qed.

Lemma entity_cases a :
  (entity a = String a EmptyString
   ∧ a ≠ Feed.ampersand ∧ a ≠ Feed.lessThan ∧ a ≠ Feed.greaterThan ∧ a ≠ Feed.doubleQuote ∧ a ≠ Feed.apostrophe)
  ∨ (a = Feed.ampersand ∧ entity a = "&amp;")
  ∨ (a = Feed.lessThan ∧ entity a = "&lt;")
  ∨ (a = Feed.greaterThan ∧ entity a = "&gt;")
  ∨ (a = Feed.doubleQuote ∧ entity a = "&quot;")
  ∨ (a = Feed.apostrophe ∧ entity a = "&apos;").
Proof.
  unfold entity.
  destruct (Ascii.eqb_spec a Feed.ampersand); [subst; tauto|].
  destruct (Ascii.eqb_spec a Feed.lessThan); [subst; tauto|].
  destruct (Ascii.eqb_spec a Feed.greaterThan); [subst; tauto|].
  destruct (Ascii.eqb_spec a Feed.doubleQuote); [subst; tauto|].
  destruct (Ascii.eqb_spec a Feed.apostrophe); [subst; tauto|].
  left. done.
Qed.

Lemma escapeXml_inj s : ∀ t, Feed.escapeXml s = Feed.escapeXml t → s = t.
Proof.
  induction s as [|a s IH]; intros [|b t].
  - done.
  - rewrite escapeXml_cons.
    destruct (entity_cases b) as [(-> & _)|[(_ & ->)|[(_ & ->)|[(_ & ->)|[(_ & ->)|(_ & ->)]]]]];
      done.
  - rewrite escapeXml_cons.
    destruct (entity_cases a) as [(-> & _)|[(_ & ->)|[(_ & ->)|[(_ & ->)|[(_ & ->)|(_ & ->)]]]]];
      done.
  - rewrite !escapeXml_cons. intros Heq.
    assert (a = b ∧ Feed.escapeXml s = Feed.escapeXml t) as [-> Hrest].
    { destruct (entity_cases a)
        as [(Ha & ? & ? & ? & ? & ?)|[(-> & Ha)|[(-> & Ha)|[(-> & Ha)|[(-> & Ha)|(-> & Ha)]]]]];
      destruct (entity_cases b)
        as [(Hb & ? & ? & ? & ? & ?)|[(-> & Hb)|[(-> & Hb)|[(-> & Hb)|[(-> & Hb)|(-> & Hb)]]]]];
      rewrite ?Ha, ?Hb in Heq; cbn in Heq; try discriminate Heq;
      try (injection Heq as -> Heq; done);
      try (injection Heq as Heq; done);
      try (injection Heq as <- Heq; done). }
    f_equal. by apply IH.
Qed.

(** X27. [escapeXml] replaces each of the five special characters by its
    entity and leaves every other character alone, the ampersand first so
    that no entity is escaped twice; its result holds no angle bracket and
    no quote, and two different texts never escape to the same text. *)
Theorem escapeXml_is_safe_and_faithful (s : string) :
  (∀ a rest, Feed.escapeXml (String a rest) = entity a +:+ Feed.escapeXml rest)
  ∧ Forall (λ c, c ∉ [Feed.lessThan; Feed.greaterThan; Feed.doubleQuote; Feed.apostrophe])
      (String.list_ascii_of_string (Feed.escapeXml s))
  ∧ ∀ t, Feed.escapeXml s = Feed.escapeXml t → s = t.
Proof.
  split_and!.
  - apply escapeXml_cons.
  - induction s as [|a s IH]; [by apply Forall_nil|].
    rewrite escapeXml_cons, list_ascii_of_string_app. apply Forall_app. split; [|done].
    destruct (entity_cases a)
      as [(Ha & ? & ? & ? & ? & ?)|[(-> & Ha)|[(-> & Ha)|[(-> & Ha)|[(-> & Ha)|(-> & Ha)]]]]];
      rewrite Ha; cbn; repeat apply Forall_cons_2; try apply Forall_nil_2;
      intros Hin; repeat (apply elem_of_cons in Hin as [Hin|Hin]; [done|]);
      by apply elem_of_nil in Hin.
  - apply escapeXml_inj.
Qed.

(** ** What the feed lists *)

(** X28. A headline whose importance score is zero is stored without a score,
    and a query with a threshold never returns it, not even with the
    threshold zero; so the feed, whose query always has a threshold, never
    lists it.  What the feed lists is not archived, reaches the configured
    threshold, and is at most [maxItems] long. *)
Theorem zero_score_is_never_listed (h : Headline) (d d' : TopixDatabase) :
  Database.insertHeadline h d = inr d' →
  (h_importanceScore h == 0)%Q →
  (∀ q m, Queries.q_minImportanceScore q = Some m →
          Forall (λ x, h_id x ≠ h_id h) (Queries.getHeadlines q d'))
  ∧ ∀ s, store s = d' →
      ∃ items,
        Feed.feedItems s = (Returned items, s)
        ∧ Forall (λ x, h_id x ≠ h_id h ∧ h_archived x = false
                       ∧ (defaultThreshold (cfg_importance (config s)) <= h_importanceScore x)%Q)
            items
        ∧ (0 ≤ feed_maxItems (cfg_feed (config s)) →
           Z.of_nat (length items) ≤ feed_maxItems (cfg_feed (config s))).
Proof.
  intros Hins Hzero.
  assert (Hmain : ∀ q m, Queries.q_minImportanceScore q = Some m →
            Forall (λ x, h_id x ≠ h_id h) (Queries.getHeadlines q d')).
  { intros q m Hq. eapply Forall_impl; [apply getHeadlines_rows|]. cbn beta.
    intros x (r & Hr & -> & Hsel) Hid. cbn in Hid.
    apply insertHeadline_inr in Hins as (_ & _ & _ & Hfresh & ->).
    cbn in Hr. apply elem_of_app in Hr as [Hr|Hr].
    - apply Hfresh. rewrite <- Hid. by apply list_elem_of_fmap_2.
    - apply list_elem_of_singleton in Hr as ->.
      apply selected_spec in Hsel as (_ & _ & _ & Hm).
      destruct (Hm m Hq) as (y & Hy & _). cbn in Hy.
      unfold Database.orNullNum in Hy.
      by rewrite (proj2 (Qeq_bool_iff _ _) Hzero) in Hy. }
  split; [exact Hmain|].
  intros s Hs. eexists. split; [reflexivity|].
  set (q := Feed.feedQuery (cfg_feed (config s)) (cfg_importance (config s))).
  rewrite Hs. split.
  - pose proof (Hmain q _ eq_refl) as H1.
    pose proof (getHeadlines_matching q d') as H2.
    rewrite Forall_forall in H1. rewrite Forall_forall in H2.
    apply Forall_forall. intros x Hx.
    destruct (H2 x Hx) as (r & _ & _ & Ha & _ & _ & Hm).
    split_and!; [by apply H1|done|by apply Hm].
  - intros Hmax. unfold Queries.getHeadlines. rewrite length_map.
    by apply limit_length.
Qed.

Lemma zero_score_is_never_listed_witness :
  let h := {| h_id := "z1"; h_pluginId := "alpha"; h_title := "quiet";
              h_description := None; h_link := None; h_pubDate := 40; h_createdAt := 40;
              h_category := "news"; h_tags := []; h_importanceScore := 0 # 1;
              h_importanceReason := None; h_metadata := JObj [];
              h_read := false; h_starred := false; h_archived := false |} in
  let d' := with_headlines (headlines (store Sample.sysCount3) ++ [Database.toRow h])
              (store Sample.sysCount3) in
  (∀ q m, Queries.q_minImportanceScore q = Some m →
          Forall (λ x, h_id x ≠ h_id h) (Queries.getHeadlines q d'))
  ∧ ∀ s, store s = d' →
      ∃ items,
        Feed.feedItems s = (Returned items, s)
        ∧ Forall (λ x, h_id x ≠ h_id h ∧ h_archived x = false
                       ∧ (defaultThreshold (cfg_importance (config s)) <= h_importanceScore x)%Q)
            items
        ∧ (0 ≤ feed_maxItems (cfg_feed (config s)) →
           Z.of_nat (length items) ≤ feed_maxItems (cfg_feed (config s))).
Proof.
  apply (zero_score_is_never_listed
           {| h_id := "z1"; h_pluginId := "alpha"; h_title := "quiet";
              h_description := None; h_link := None; h_pubDate := 40; h_createdAt := 40;
              h_category := "news"; h_tags := []; h_importanceScore := 0 # 1;
              h_importanceReason := None; h_metadata := JObj [];
              h_read := false; h_starred := false; h_archived := false |}
           (store Sample.sysCount3)).
  - reflexivity.
  - reflexivity.
Defined.

(** ** What the scheduler reports *)

(** X29. [getScheduledTasks] lists the tasks whose plugin the configuration
    names, each with the schedule of the configuration, not the one its
    timer runs on: a task whose plugin left the configuration is not listed
    though its timer stays armed, and after a reschedule that node-cron
    refused the schedule listed is not the schedule of the timer. *)
Theorem getScheduledTasks_lists_configured_schedules (s : System) :
  ∃ infos,
    SchedulerInfo.getScheduledTasks s = (Returned infos, s)
    ∧ (∀ i, i ∈ infos ↔
            ∃ t y, tasks s !! SchedulerInfo.info_pluginId i = Some t
                   ∧ assoc (SchedulerInfo.info_pluginId i) (cfg_plugins (config s)) = Some y
                   ∧ SchedulerInfo.info_schedule i = y_schedule y
                   ∧ SchedulerInfo.info_active i = true)
    ∧ ∀ cronValidate pid t y,
        running s = true →
        tasks s !! pid = Some t →
        assoc pid (cfg_plugins (config s)) = Some y →
        cronValidate (task_schedule t) = true →
        cronValidate (y_schedule y) = false →
        let s' := (Scheduler.reschedulePlugin cronValidate pid (y_schedule y) s).2 in
        tasks s' !! pid = Some t
        ∧ ∃ i infos', SchedulerInfo.getScheduledTasks s' = (Returned infos', s')
                      ∧ i ∈ infos' ∧ SchedulerInfo.info_pluginId i = pid
                      ∧ SchedulerInfo.info_schedule i ≠ task_schedule t.
Proof.
  assert (Hiff : ∀ s0 i,
            i ∈ omap (λ e : string * ScheduledTask,
                        (λ y, {| SchedulerInfo.info_pluginId := e.1;
                                 SchedulerInfo.info_schedule := y_schedule y;
                                 SchedulerInfo.info_active := true |})
                        <$> assoc e.1 (cfg_plugins (config s0)))
                   (map_to_list (tasks s0))
            ↔ ∃ t y, tasks s0 !! SchedulerInfo.info_pluginId i = Some t
                     ∧ assoc (SchedulerInfo.info_pluginId i) (cfg_plugins (config s0)) = Some y
                     ∧ SchedulerInfo.info_schedule i = y_schedule y
                     ∧ SchedulerInfo.info_active i = true).
  { intros s0 i. rewrite list_elem_of_omap. split.
    - intros ([pid t] & Hin & Hi). apply elem_of_map_to_list in Hin. cbn in Hi.
      destruct (assoc pid (cfg_plugins (config s0))) as [y|] eqn:Hy; [|done].
      injection Hi as <-. cbn. by exists t, y.
    - intros (t & y & Ht & Hy & Hs & Ha). exists (SchedulerInfo.info_pluginId i, t).
      split; [by apply elem_of_map_to_list|]. cbn. rewrite Hy. cbn. f_equal.
      destruct i as [p sch act]. cbn in *. by subst. }
  eexists. split; [reflexivity|]. split; [apply Hiff|].
  intros cronValidate pid t y Hr Ht Hy Hold Hnew s'. subst s'.
  rewrite reschedulePlugin_run, schedulePlugin_invalid_run by done.
  cbn [snd tasks with_console]. split; [done|].
  eexists {| SchedulerInfo.info_pluginId := pid; SchedulerInfo.info_schedule := y_schedule y;
             SchedulerInfo.info_active := true |}, _.
  split; [reflexivity|]. split.
  - apply Hiff. cbn. by exists t, y.
  - cbn. split; [done|]. intros Heq. congruence.
Qed.

(** ** Preferences *)

Lemma setPreferences_run toDocument writeFileSync prefs s :
  let cfg := {| cfg_feed := ConfigManager.prefs_feed prefs;
                cfg_importance := ConfigManager.prefs_importance prefs;
                cfg_llm := ConfigManager.prefs_llm prefs;
                cfg_plugins := cfg_plugins (config s) |} in
  ConfigManager.setPreferences toDocument writeFileSync prefs s
  = match writeFileSync (toDocument cfg) with
    | None =>
        (Returned (),
         with_console (console s ++ [entry LogLevel "Updated user preferences"])
           (with_configOnDisk (toDocument cfg) (with_config cfg s)))
    | Some e =>
        (Threw e,
         with_console (console s ++ [entry ErrorLevel ("Failed to save config file: "
                                                       +:+ shown e)])
           (with_config cfg s))
    end.
Proof.
  cbv zeta. unfold ConfigManager.setPreferences, ConfigManager.persist,
    ConfigManager.saveConfig.
  run_monad. cbn. by destruct (writeFileSync _).
Qed.

(** X30. [setFeedConfig] merges the keys given into the feed settings and
    leaves the other sections and the plugins alone.  The configuration in
    memory is changed before the file is written: when the write fails the
    error is rethrown with the file as it was and the memory already changed.
    Notification settings are never stored: after [setNotificationConfig]
    the configuration is what it was and [getNotificationConfig] still
    answers the defaults. *)
Theorem setFeedConfig_changes_memory_before_disk
    (toDocument : TopixConfig → JsVal) (writeFileSync : JsVal → option Thrown)
    (patch : ConfigManager.FeedPatch) (notify : ConfigManager.NotificationPatch)
    (s : System) :
  let run := ConfigManager.setFeedConfig toDocument writeFileSync patch s in
  let merged := ConfigManager.mergeFeed (cfg_feed (config s)) patch in
  cfg_feed (config run.2) = merged
  ∧ cfg_importance (config run.2) = cfg_importance (config s)
  ∧ cfg_llm (config run.2) = cfg_llm (config s)
  ∧ cfg_plugins (config run.2) = cfg_plugins (config s)
  ∧ (ConfigManager.getFeedConfig run.2).1 = Returned merged
  ∧ match writeFileSync (toDocument (config run.2)) with
    | None => run.1 = Returned () ∧ configOnDisk run.2 = toDocument (config run.2)
    | Some e => run.1 = Threw e ∧ configOnDisk run.2 = configOnDisk s
    end
  ∧ config (ConfigManager.setNotificationConfig toDocument writeFileSync notify s).2 = config s
  ∧ (ConfigManager.getNotificationConfig
       (ConfigManager.setNotificationConfig toDocument writeFileSync notify s).2).1
    = Returned (Some ConfigManager.defaultNotifications).
Proof.
  intros run merged. subst run merged.
  unfold ConfigManager.setFeedConfig, ConfigManager.setNotificationConfig.
  rewrite !(bind_returned _ _ s
              {| ConfigManager.prefs_feed := cfg_feed (config s);
                 ConfigManager.prefs_importance := cfg_importance (config s);
                 ConfigManager.prefs_llm := cfg_llm (config s);
                 ConfigManager.prefs_notifications :=
                   Some ConfigManager.defaultNotifications |} s) by reflexivity.
  cbv zeta. rewrite !setPreferences_run. cbv zeta.
  cbn [ConfigManager.prefs_feed ConfigManager.prefs_importance ConfigManager.prefs_llm].
  assert (Hsame : {| cfg_feed := cfg_feed (config s);
                     cfg_importance := cfg_importance (config s);
                     cfg_llm := cfg_llm (config s);
                     cfg_plugins := cfg_plugins (config s) |} = config s)
    by by destruct (config s).
  rewrite Hsame.
  set (cfg := {| cfg_feed := ConfigManager.mergeFeed (cfg_feed (config s)) patch;
                 cfg_importance := cfg_importance (config s);
                 cfg_llm := cfg_llm (config s);
                 cfg_plugins := cfg_plugins (config s) |}).
  assert (Hcfg : config (match writeFileSync (toDocument cfg) with
                         | None =>
                             (Returned (),
                              with_console (console s ++ [entry LogLevel "Updated user preferences"])
                                (with_configOnDisk (toDocument cfg) (with_config cfg s)))
                         | Some e =>
                             (Threw e,
                              with_console
                                (console s ++ [entry ErrorLevel ("Failed to save config file: "
                                                                 +:+ shown e)])
                                (with_config cfg s))
                         end).2 = cfg)
    by by destruct (writeFileSync (toDocument cfg)).
  rewrite Hcfg. split_and!; try done.
  - unfold ConfigManager.getFeedConfig, ConfigManager.getPreferences. run_monad. cbn.
    by rewrite Hcfg.
  - by destruct (writeFileSync (toDocument cfg)).
  - destruct (writeFileSync (toDocument (config s))); cbn; by destruct (config s).
Qed.
